(** * HCL-to-plan-JSON conversion of the Terraform HCL provider

  A shallow embedding of [internal/providers/terraform/hcl_provider.go]:
  the plan assembler [modulesToPlanJSON], the attribute and block
  marshallers, the reference extractor and [loadPlanJSON], together with
  the properties of the converter that the specification states.

  Go maps are [gmap]s (a nil map is [None]), slices are lists, a function
  that can end in a run-time panic returns in the [res] monad. *)

From Stdlib Require Import Ascii.
From stdpp Require Import gmap strings list fin_maps pretty.

Set Warnings "-register-all".
Open Scope string_scope.
Open Scope list_scope.

(** ** Run-time panics *)

Inductive panic :=
| PanicNotAString       (* cty: AsString on a value that is not a known, non-null string *)
| PanicNotIterable      (* cty: ElementIterator on a value without elements *)
| PanicNilMapWrite      (* Go: assignment to entry in nil map *)
| PanicTypeAssertion    (* Go: interface conversion v.([]interface{}) *)
| PanicIndexOutOfRange. (* Go: index out of range *)

Inductive res (A : Type) :=
| Ok (a : A)
| Panic (p : panic).
Arguments Ok {A} a.
Arguments Panic {A} p.

Definition res_bind {A B} (x : res A) (f : A → res B) : res B :=
match x with
| Ok a => f a
| Panic p => Panic p
end.

Notation "x ←! y ; z" := (res_bind y (λ x, z))
(at level 20, y at level 100, z at level 200, only parsing).
Notation "' x ←! y ; z" := (res_bind y (λ x, z))
(at level 20, x pattern, y at level 100, z at level 200, only parsing).

(** A [for _, x := range l] loop whose body may panic: the body maps the
    state before the iteration to the state after it. *)
Definition foldM {S B} (body : S → B → res S) : S → list B → res S :=
fix go s l :=
  match l with
  | [] => Ok s
  | x :: l' => s' ←! body s x; go s' l'
  end.

(** ** Values of the go-cty library

    The library is a dependency, not part of the repository.  A value is
    modelled by the cases the converter distinguishes: the zero value
    [NilVal], typed nulls and unknowns, primitives and the collections whose
    elements [ElementIterator] enumerates. *)
Module cty.

Inductive Type_ :=
| NilType | String | Number | Bool | DynamicPseudoType | Object | Map | List.

#[global] Instance Type_eq_dec : EqDecision Type_.
Proof. solve_decision. Defined.

Inductive Value :=
| NilVal
| NullVal (ty : Type_)
| UnknownVal (ty : Type_)
| StringVal (s : string)
| NumberIntVal (n : Z)
| BoolVal (b : bool)
| ObjectVal (attrs : list (string * Value))
| MapVal (elems : list (string * Value))
| ListVal (elems : list Value).

(** [value == cty.NilVal] *)
Definition isNilVal (v : Value) : bool :=
  match v with NilVal => true | _ => false end.

(** [Value.IsNull]: the value carries no payload. *)
Definition IsNull (v : Value) : bool :=
  match v with NilVal | NullVal _ => true | _ => false end.

(** [Value.Type] *)
Definition TypeOf (v : Value) : Type_ :=
  match v with
  | NilVal => NilType
  | NullVal ty | UnknownVal ty => ty
  | StringVal _ => String
  | NumberIntVal _ => Number
  | BoolVal _ => Bool
  | ObjectVal _ => Object
  | MapVal _ => Map
  | ListVal _ => List
  end.

(** [Value.AsString]: the native string of a known, non-null string value;
    the library panics on every other value. *)
Definition AsString (v : Value) : res string :=
  match v with
  | StringVal s => Ok s
  | _ => Panic PanicNotAString
  end.

(** [Value.ElementIterator], as the list of (key, value) pairs it yields:
    attribute names for objects and maps, indices for lists.  The library
    panics on null, unknown and non-collection values. *)
Definition ElementIterator (v : Value) : res (list (Value * Value)) :=
  match v with
  | ObjectVal kvs | MapVal kvs => Ok (prod_map StringVal id <$> kvs)
  | ListVal vs => Ok (imap (λ i x, (NumberIntVal (Z.of_nat i), x)) vs)
  | _ => Panic PanicNotIterable
  end.

End cty.

(** ** Blocks of the [internal/hcl] package

    The types that the converter takes from the package [internal/hcl],
    after the data model of the specification. *)
Module hcl.

(** Modelled from the spec: a [Reference], the symbolic dependency of an
    attribute; the record holds the address that [Reference.String] renders. *)
Record Reference := mkReference { String : string }.

(** Modelled from the spec: an [Attribute] has a name, an evaluated value
    and the list of references it depends on. *)
Record Attribute := mkAttribute {
  Name : string;
  AttrValue : cty.Value;
  AllReferences : list Reference;
}.

(** Modelled from the spec: [Attribute.Value], the evaluated value of the
    attribute.  The converter calls it on the nil attribute that
    [GetAttribute] returns for a missing name and compares the result with
    [cty.NilVal], which is what the nil attribute yields. *)
Definition Value (a : option Attribute) : cty.Value :=
  match a with
  | Some a => AttrValue a
  | None => cty.NilVal
  end.

(** Modelled from the spec: a [Block], as the record of what its accessor
    methods return: its kind ([Type]), labels and names, the data of the
    module call it is nested in, the evaluated attribute-value container
    ([Values]), its attributes and its child blocks. *)
Inductive Block := mkBlock {
  Type_ : string;
  TypeLabel : string;
  NameLabel : string;
  FullName : string;
  LocalName : string;
  ModuleAddress : string;
  ModuleName : string;
  ModuleSource : string;
  Provider : string;
  HasModuleBlock : bool;
  Values : cty.Value;
  GetAttributes : list Attribute;
  Children : list Block;
}.

(** Modelled from the spec: [Block.GetAttribute], the attribute of that
    name among [GetAttributes], nil if there is none. *)
Definition GetAttribute (b : Block) (name : string) : option Attribute :=
  snd <$> list_find (λ a, Name a = name) (GetAttributes b).

(** Modelled from the spec: a [Module] is an ordered sequence of blocks. *)
Record Module := mkModule { Blocks : list Block }.

End hcl.

(** ** The schema document *)

(** The dynamically typed entries of a marshalled value map: the raw JSON of
    an attribute or the list of the value maps of the child blocks of one
    kind. *)
Inductive jval :=
| JRaw (raw : option string)                       (* json.RawMessage *)
| JArr (elems : list (option (gmap string jval))). (* []interface{} of maps *)

(** The entries of an expressions map: a [refs] struct or the list of the
    expression maps of the child blocks of one kind. *)
Inductive expr :=
| ERefs (References : list string)
| EList (elems : list (gmap string expr)).

Module ResourceJSON.
Record t := mk {
  Address : string;
  Mode : string;
  Type_ : string;
  Name : string;
  SchemaVersion : Z;
  Values : option (gmap string jval);
}.
End ResourceJSON.

Module ResourceChange.
Record t := mk {
  Actions : list string;
  Before : option jval;
  After : option (gmap string jval);
}.
End ResourceChange.

Module ResourceChangesJSON.
Record t := mk {
  Address : string;
  ModuleAddress : string;
  Mode : string;
  Type_ : string;
  Name : string;
  Change : ResourceChange.t;
}.
End ResourceChangesJSON.

Module ProviderConfig.
Record t := mk {
  Name : string;
  Expressions : gmap string (gmap string string);
}.
End ProviderConfig.

Module ResourceData.
Record t := mk {
  Address : string;
  Mode : string;
  Type_ : string;
  Name : string;
  ProviderConfigKey : string;
  Expressions : gmap string expr;
}.
End ResourceData.

Module ModuleCallModule.
Record t := mk { Resources : list ResourceData.t }.
End ModuleCallModule.

Module ModuleCall.
Record t := mk {
  Source : string;
  Module_ : ModuleCallModule.t;
}.
End ModuleCall.

Module ChildModule.
Record t := mk { Resources : list ResourceJSON.t }.
End ChildModule.

Module PlanRootModule.
Record t := mk {
  Resources : list ResourceJSON.t;
  ChildModules : list ChildModule.t;
}.
End PlanRootModule.

Module ConfigRootModule.
Record t := mk {
  Resources : list ResourceData.t;
  ModuleCalls : gmap string ModuleCall.t;
}.
End ConfigRootModule.

Module Configuration.
Record t := mk {
  ProviderConfig : gmap string ProviderConfig.t;
  RootModule : ConfigRootModule.t;
}.
End Configuration.

Module PlannedValues.
Record t := mk { RootModule : PlanRootModule.t }.
End PlannedValues.

Module PlanSchema.
Record t := mk {
  FormatVersion : string;
  TerraformVersion : string;
  Variables : option jval;
  PlannedValues : PlannedValues.t;
  ResourceChanges : list ResourceChangesJSON.t;
  Configuration : Configuration.t;
}.
End PlanSchema.

(** [json.Marshal] and [ctyJson.Marshal] return their bytes with an error
    that is nil on success; a Go error is modelled by its message and the
    error it wraps. *)
Inductive error :=
| ErrorString (msg : string)
| WrapError (prefix : string) (inner : error). (* fmt.Errorf("prefix %w", inner) *)

(** ** The converter *)

(** What the converter takes from its environment. *)

(** [ctyJson.Marshal v v.Type()] of the go-cty library: the encoded bytes
    (nil when there are none) and the error. *)
Class CtyJson :=
  ctyJsonMarshal : cty.Value → option string * option error.

(** [json.Marshal] on the assembled document. *)
Class EncodingJson :=
  jsonMarshal : PlanSchema.t → option string * option error.

(** The order in which a [for name, v := range m] statement visits the
    entries of a Go map; the language leaves it unspecified. *)
Class MapRange :=
  rangeOrder : gmap string (list (gmap string expr)) →
               list (string * list (gmap string expr)).

(** Whatever the order, the statement visits every entry once. *)
Class MapRangeSpec `{MapRange} :=
  rangeOrder_perm : ∀ m, rangeOrder m ≡ₚ map_to_list m.

(** [hcl.Parser] and its method [ParseDirectory], which yields the modules
    and an error that is nil on success. *)
Class HclParser := {
  Parser : Type;
  ParseDirectory : Parser → list hcl.Module * option error;
}.

Section converter.

Context `{!CtyJson, !EncodingJson, !MapRange, !HclParser}.

(** *** Attribute value marshaller *)

Definition marshalAttributeValues (blockType : string) (value : cty.Value)
  : res (option (gmap string jval)) :=
  if cty.isNilVal value || cty.IsNull value then Ok None
  else
    it ←! cty.ElementIterator value;
    ret ←! foldM (λ (ret : gmap string jval) '(k, v),
              let '(vJSON, _) := ctyJsonMarshal v in
              key ←! cty.AsString k;
              if bool_decide (blockType = "resource" ∨ blockType = "module")
                 && bool_decide (key = "count")
              then Ok ret
              else Ok (<[key := JRaw vJSON]> ret))
           ∅ it;
    Ok (Some ret).

(** *** Block marshaller

    The Go function updates the map [jsonValues] in place; here the map is
    passed in and the updated map returned. *)
Fixpoint marshalBlock (block : hcl.Block)
    (jsonValues : option (gmap string jval)) {struct block}
  : res (option (gmap string jval)) :=
  match block with
  | hcl.mkBlock _ _ _ _ _ _ _ _ _ _ _ _ children =>
    foldM (λ (jsonValues : option (gmap string jval)) (b : hcl.Block),
        childValues ←! marshalAttributeValues (hcl.Type_ b) (hcl.Values b);
        childValues ←! (if bool_decide (0 < length (hcl.Children b))
                        then marshalBlock b childValues
                        else Ok childValues);
        match jsonValues with
        | None => Panic PanicNilMapWrite
        | Some m =>
          match m !! hcl.Type_ b with
          | Some (JArr v) =>
              Ok (Some (<[hcl.Type_ b := JArr (v ++ [childValues])]> m))
          | Some (JRaw _) => Panic PanicTypeAssertion
          | None => Ok (Some (<[hcl.Type_ b := JArr [childValues]]> m))
          end
        end)
      jsonValues children
  end.

(** *** Reference extractor *)

Fixpoint blockToReferences (block : hcl.Block) : gmap string expr :=
  match block with
  | hcl.mkBlock _ _ _ _ _ _ _ _ _ _ _ attributes children =>
    foldl (λ (expressionValues : gmap string expr) (attribute : hcl.Attribute),
        let references := hcl.AllReferences attribute in
        let expressionValues :=
          if bool_decide (0 < length references)
          then <[hcl.Name attribute := ERefs (hcl.String <$> references)]>
                 expressionValues
          else expressionValues in
        let childExpressions :=
          foldl (λ (childExpressions : gmap string (list (gmap string expr)))
                   (child : hcl.Block),
              let vals := default [] (childExpressions !! hcl.Type_ child) in
              let childReferences := blockToReferences child in
              if bool_decide (0 < size childReferences)
              then <[hcl.Type_ child := vals ++ [childReferences]]>
                     childExpressions
              else childExpressions)
            ∅ children in
        if bool_decide (0 < size childExpressions)
        then foldl (λ (expressionValues : gmap string expr) '(name, v),
                      <[name := EList v]> expressionValues)
               expressionValues (rangeOrder childExpressions)
        else expressionValues)
      ∅ attributes
  end.

(** *** Plan assembler *)

(** The schema document at the start of [modulesToPlanJSON]. *)
Definition initialSchema : PlanSchema.t :=
  {| PlanSchema.FormatVersion := "1.0";
     PlanSchema.TerraformVersion := "1.1.0";
     PlanSchema.Variables := None;
     PlanSchema.PlannedValues :=
       {| PlannedValues.RootModule :=
            {| PlanRootModule.Resources := [];
               PlanRootModule.ChildModules :=
                 [ {| ChildModule.Resources := [] |} ] |} |};
     PlanSchema.ResourceChanges := [];
     PlanSchema.Configuration :=
       {| Configuration.ProviderConfig := ∅;
          Configuration.RootModule :=
            {| ConfigRootModule.Resources := [];
               ConfigRootModule.ModuleCalls := ∅ |} |} |}.

(** The assignments of the loop bodies to the fields of [sch]. *)

Definition updConfiguration (f : Configuration.t → Configuration.t)
    (sch : PlanSchema.t) : PlanSchema.t :=
  {| PlanSchema.FormatVersion := PlanSchema.FormatVersion sch;
     PlanSchema.TerraformVersion := PlanSchema.TerraformVersion sch;
     PlanSchema.Variables := PlanSchema.Variables sch;
     PlanSchema.PlannedValues := PlanSchema.PlannedValues sch;
     PlanSchema.ResourceChanges := PlanSchema.ResourceChanges sch;
     PlanSchema.Configuration := f (PlanSchema.Configuration sch) |}.

Definition updPlanRootModule (f : PlanRootModule.t → PlanRootModule.t)
    (sch : PlanSchema.t) : PlanSchema.t :=
  {| PlanSchema.FormatVersion := PlanSchema.FormatVersion sch;
     PlanSchema.TerraformVersion := PlanSchema.TerraformVersion sch;
     PlanSchema.Variables := PlanSchema.Variables sch;
     PlanSchema.PlannedValues :=
       {| PlannedValues.RootModule :=
            f (PlannedValues.RootModule (PlanSchema.PlannedValues sch)) |};
     PlanSchema.ResourceChanges := PlanSchema.ResourceChanges sch;
     PlanSchema.Configuration := PlanSchema.Configuration sch |}.

Definition updConfigRootModule (f : ConfigRootModule.t → ConfigRootModule.t)
    (sch : PlanSchema.t) : PlanSchema.t :=
  updConfiguration (λ c,
    {| Configuration.ProviderConfig := Configuration.ProviderConfig c;
       Configuration.RootModule := f (Configuration.RootModule c) |}) sch.

(** [sch.Configuration.ProviderConfig[name] = pc] *)
Definition setProviderConfig (name : string) (pc : ProviderConfig.t)
    (sch : PlanSchema.t) : PlanSchema.t :=
  updConfiguration (λ c,
    {| Configuration.ProviderConfig :=
         <[name := pc]> (Configuration.ProviderConfig c);
       Configuration.RootModule := Configuration.RootModule c |}) sch.

(** [sch.Configuration.RootModule.ModuleCalls[name] = modCall] *)
Definition setModuleCall (name : string) (modCall : ModuleCall.t)
    (sch : PlanSchema.t) : PlanSchema.t :=
  updConfigRootModule (λ r,
    {| ConfigRootModule.Resources := ConfigRootModule.Resources r;
       ConfigRootModule.ModuleCalls :=
         <[name := modCall]> (ConfigRootModule.ModuleCalls r) |}) sch.

(** [sch.Configuration.RootModule.Resources = append(..., d)] *)
Definition appendConfigResource (d : ResourceData.t)
    (sch : PlanSchema.t) : PlanSchema.t :=
  updConfigRootModule (λ r,
    {| ConfigRootModule.Resources := ConfigRootModule.Resources r ++ [d];
       ConfigRootModule.ModuleCalls := ConfigRootModule.ModuleCalls r |}) sch.

(** [sch.PlannedValues.RootModule.Resources = append(..., r)] *)
Definition appendPlannedResource (r : ResourceJSON.t)
    (sch : PlanSchema.t) : PlanSchema.t :=
  updPlanRootModule (λ m,
    {| PlanRootModule.Resources := PlanRootModule.Resources m ++ [r];
       PlanRootModule.ChildModules := PlanRootModule.ChildModules m |}) sch.

(** [sch.PlannedValues.RootModule.ChildModules[0].Resources = append(..., r)];
    indexing an empty slice panics. *)
Definition appendChildModuleResource (r : ResourceJSON.t)
    (sch : PlanSchema.t) : res PlanSchema.t :=
  let childModules :=
    PlanRootModule.ChildModules
      (PlannedValues.RootModule (PlanSchema.PlannedValues sch)) in
  match childModules !! 0%nat with
  | None => Panic PanicIndexOutOfRange
  | Some cm =>
    Ok (updPlanRootModule (λ m,
      {| PlanRootModule.Resources := PlanRootModule.Resources m;
         PlanRootModule.ChildModules :=
           <[0%nat := {| ChildModule.Resources :=
                           ChildModule.Resources cm ++ [r] |}]>
             (PlanRootModule.ChildModules m) |}) sch)
  end.

(** [sch.ResourceChanges = append(sch.ResourceChanges, c)] *)
Definition appendResourceChange (c : ResourceChangesJSON.t)
    (sch : PlanSchema.t) : PlanSchema.t :=
  {| PlanSchema.FormatVersion := PlanSchema.FormatVersion sch;
     PlanSchema.TerraformVersion := PlanSchema.TerraformVersion sch;
     PlanSchema.Variables := PlanSchema.Variables sch;
     PlanSchema.PlannedValues := PlanSchema.PlannedValues sch;
     PlanSchema.ResourceChanges := PlanSchema.ResourceChanges sch ++ [c];
     PlanSchema.Configuration := PlanSchema.Configuration sch |}.

(** The body of the first loop over the blocks of a module (lines
    145-172); the state is the variable [providerKey] and the document. *)
Definition providerBlock (st : string * PlanSchema.t) (block : hcl.Block)
  : res (string * PlanSchema.t) :=
  let '(providerKey, sch) := st in
  if bool_decide (hcl.Type_ block = "provider") then
    name ←! match hcl.GetAttribute block "alias" with
            | Some a => cty.AsString (hcl.Value (Some a))
            | None => Ok (hcl.TypeLabel block)
            end;
    (* set the default provider key *)
    let providerKey :=
      if bool_decide (providerKey = "") then name else providerKey in
    let value := hcl.Value (hcl.GetAttribute block "region") in
    region ←! (if negb (cty.isNilVal value) then cty.AsString value
               else Ok "");
    Ok (providerKey,
        setProviderConfig name
          {| ProviderConfig.Name := name;
             ProviderConfig.Expressions :=
               {[ "region" := {[ "constant_value" := region ]} ]} |}
          sch)
  else Ok st.

(** The body of the second loop (lines 174-247). *)
Definition resourceBlock (providerKey : string) (sch : PlanSchema.t)
    (block : hcl.Block) : res PlanSchema.t :=
  if bool_decide (hcl.Type_ block = "resource") then
    jsonValues ←! marshalAttributeValues (hcl.Type_ block) (hcl.Values block);
    jsonValues ←! marshalBlock block jsonValues;
    let r :=
      {| ResourceJSON.Address := hcl.FullName block;
         ResourceJSON.Mode := "managed";
         ResourceJSON.Type_ := hcl.TypeLabel block;
         ResourceJSON.Name := hcl.NameLabel block;
         ResourceJSON.SchemaVersion := 1;
         ResourceJSON.Values := jsonValues |} in
    let c :=
      {| ResourceChangesJSON.Address := hcl.FullName block;
         ResourceChangesJSON.ModuleAddress := hcl.ModuleAddress block;
         ResourceChangesJSON.Mode := "managed";
         ResourceChangesJSON.Type_ := hcl.TypeLabel block;
         ResourceChangesJSON.Name := hcl.NameLabel block;
         ResourceChangesJSON.Change :=
           {| ResourceChange.Actions := ["create"];
              ResourceChange.Before := None;
              ResourceChange.After := jsonValues |} |} in
    providerConfigKey ←!
      match hcl.GetAttribute block "provider" with
      | Some providerAttr =>
        let value := hcl.Value (Some providerAttr) in
        if bool_decide (cty.TypeOf value = cty.String)
        then cty.AsString value
        else Ok providerKey
      | None => Ok providerKey
      end;
    sch ←!
      (if hcl.HasModuleBlock block then
         let modCall :=
           match ConfigRootModule.ModuleCalls
                   (Configuration.RootModule (PlanSchema.Configuration sch))
                 !! hcl.ModuleName block with
           | Some modCall => modCall
           | None =>
             {| ModuleCall.Source := hcl.ModuleSource block;
                ModuleCall.Module_ := {| ModuleCallModule.Resources := [] |} |}
           end in
         let modCall :=
           {| ModuleCall.Source := ModuleCall.Source modCall;
              ModuleCall.Module_ :=
                {| ModuleCallModule.Resources :=
                     ModuleCallModule.Resources (ModuleCall.Module_ modCall) ++
                     [ {| ResourceData.Address := hcl.LocalName block;
                          ResourceData.Mode := "managed";
                          ResourceData.Type_ := hcl.TypeLabel block;
                          ResourceData.Name := hcl.NameLabel block;
                          ResourceData.ProviderConfigKey :=
                            hcl.ModuleName block +:+ ":" +:+ hcl.Provider block;
                          ResourceData.Expressions :=
                            blockToReferences block |} ] |} |} in
         appendChildModuleResource r
           (setModuleCall (hcl.ModuleName block) modCall sch)
       else
         Ok (appendPlannedResource r
               (appendConfigResource
                  {| ResourceData.Address := hcl.FullName block;
                     ResourceData.Mode := "managed";
                     ResourceData.Type_ := hcl.TypeLabel block;
                     ResourceData.Name := hcl.LocalName block;
                     ResourceData.ProviderConfigKey := providerConfigKey;
                     ResourceData.Expressions := blockToReferences block |}
                  sch)));
    Ok (appendResourceChange c sch)
  else Ok sch.

Definition modulesToPlanJSON (modules : list hcl.Module) : res PlanSchema.t :=
  foldM (λ (sch : PlanSchema.t) (module : hcl.Module),
      '(providerKey, sch) ←!
        foldM providerBlock ("", sch) (hcl.Blocks module);
      foldM (resourceBlock providerKey) sch (hcl.Blocks module))
    initialSchema modules.

(** *** Loading the plan JSON *)

(** The bytes and the error that [loadPlanJSON] returns, unless the
    assembler panics. *)
Definition loadPlanJSON (p : Parser) : res (option string * option error) :=
  let '(modules, err) := ParseDirectory p in
  match err with
  | Some err => Ok (None, Some err)
  | None =>
    sch ←! modulesToPlanJSON modules;
    let '(b, err) := jsonMarshal sch in
    match err with
    | Some err =>
      Ok (None, Some (WrapError "error handling built plan json from hcl " err))
    | None => Ok (b, None)
    end
  end.

End converter.


(** * Specification vocabulary *)

(** ** Induction over the block tree *)

Section Block_induction.
Variable P : hcl.Block → Prop.
Hypothesis step : ∀ b, Forall P (hcl.Children b) → P b.

Fixpoint Block_induction (b : hcl.Block) : P b :=
  step b
    (match b return Forall P (hcl.Children b) with
     | hcl.mkBlock _ _ _ _ _ _ _ _ _ _ _ _ children =>
       (fix go (l : list hcl.Block) : Forall P l :=
          match l with
          | [] => List.Forall_nil P
          | c :: l' => List.Forall_cons P c l' (Block_induction c) (go l')
          end) children
     end).
End Block_induction.

(** ** Reading the document *)

(** A read [m[key]] of a Go map that may be nil. *)
Definition jsonLookup (m : option (gmap string jval)) (key : string)
  : option jval :=
  m ≫= λ m, m !! key.

(** The entry holds the raw JSON of an attribute value. *)
Definition isRaw (v : option jval) : Prop :=
  match v with
  | Some (JRaw _) => True
  | _ => False
  end.

(** [sch.PlannedValues.RootModule.Resources] *)
Definition plannedResources (sch : PlanSchema.t) : list ResourceJSON.t :=
  PlanRootModule.Resources
    (PlannedValues.RootModule (PlanSchema.PlannedValues sch)).

(** [sch.PlannedValues.RootModule.ChildModules] *)
Definition childModules (sch : PlanSchema.t) : list ChildModule.t :=
  PlanRootModule.ChildModules
    (PlannedValues.RootModule (PlanSchema.PlannedValues sch)).

(** [sch.Configuration.RootModule.Resources] *)
Definition configResources (sch : PlanSchema.t) : list ResourceData.t :=
  ConfigRootModule.Resources
    (Configuration.RootModule (PlanSchema.Configuration sch)).

(** [sch.Configuration.RootModule.ModuleCalls] *)
Definition moduleCalls (sch : PlanSchema.t) : gmap string ModuleCall.t :=
  ConfigRootModule.ModuleCalls
    (Configuration.RootModule (PlanSchema.Configuration sch)).

(** [sch.Configuration.ProviderConfig] *)
Definition providerConfigs (sch : PlanSchema.t) : gmap string ProviderConfig.t :=
  Configuration.ProviderConfig (PlanSchema.Configuration sch).

(** ** Blocks of the input *)

(** All blocks of the modules, in the order the assembler visits them. *)
Definition allBlocks (modules : list hcl.Module) : list hcl.Block :=
  mjoin (hcl.Blocks <$> modules).

Definition resourceBlocks (blocks : list hcl.Block) : list hcl.Block :=
  filter (λ b, hcl.Type_ b = "resource") blocks.

Definition providerBlocks (blocks : list hcl.Block) : list hcl.Block :=
  filter (λ b, hcl.Type_ b = "provider") blocks.

(** The resource blocks that are flagged as nested in a module call, and
    the others. *)
Definition nestedBlocks (blocks : list hcl.Block) : list hcl.Block :=
  filter (λ b, hcl.HasModuleBlock b = true) blocks.

Definition rootBlocks (blocks : list hcl.Block) : list hcl.Block :=
  filter (λ b, hcl.HasModuleBlock b = false) blocks.

(** ** What the loop bodies compute for one block *)

(** The attribute names that [marshalAttributeValues] leaves out. *)
Definition skipped (blockType key : string) : bool :=
  bool_decide (blockType = "resource" ∨ blockType = "module")
  && bool_decide (key = "count").

(** The effective name of a provider block (lines 147-150). *)
Definition providerName (block : hcl.Block) : res string :=
  match hcl.GetAttribute block "alias" with
  | Some a => cty.AsString (hcl.Value (Some a))
  | None => Ok (hcl.TypeLabel block)
  end.

(** The region of a provider block (lines 157-161). *)
Definition providerRegion (block : hcl.Block) : res string :=
  let value := hcl.Value (hcl.GetAttribute block "region") in
  if negb (cty.isNilVal value) then cty.AsString value else Ok "".

(** The entry that a provider block of that name and region records
    (lines 163-170). *)
Definition providerConfigOf (entry : string * string) : ProviderConfig.t :=
  {| ProviderConfig.Name := entry.1;
     ProviderConfig.Expressions :=
       {[ "region" := {[ "constant_value" := entry.2 ]} ]} |}.

Definition providerEntry (block : hcl.Block) : res (string * string) :=
  name ←! providerName block;
  region ←! providerRegion block;
  Ok (name, region).

(** The assignment at lines 153-155. *)
Definition pickProviderKey (providerKey name : string) : string :=
  if bool_decide (providerKey = "") then name else providerKey.

(** The first name that is not empty, the empty string if there is none. *)
Definition firstNonEmpty (names : list string) : string :=
  default "" (head (filter (λ n, n ≠ "") names)).

(** The provider-config key of a root-level resource (lines 201-208). *)
Definition resourceProviderKey (providerKey : string) (block : hcl.Block)
  : res string :=
  match hcl.GetAttribute block "provider" with
  | Some providerAttr =>
    let value := hcl.Value (Some providerAttr) in
    if bool_decide (cty.TypeOf value = cty.String)
    then cty.AsString value
    else Ok providerKey
  | None => Ok providerKey
  end.

(** The block has no [provider] attribute, or one whose value is not of
    type string. *)
Definition lacksProviderString (block : hcl.Block) : Prop :=
  match hcl.GetAttribute block "provider" with
  | Some providerAttr => cty.TypeOf (hcl.Value (Some providerAttr)) ≠ cty.String
  | None => True
  end.

(** The planned-resource record of a block with that value snapshot. *)
Definition plannedRecord (block : hcl.Block)
    (jsonValues : option (gmap string jval)) : ResourceJSON.t :=
  {| ResourceJSON.Address := hcl.FullName block;
     ResourceJSON.Mode := "managed";
     ResourceJSON.Type_ := hcl.TypeLabel block;
     ResourceJSON.Name := hcl.NameLabel block;
     ResourceJSON.SchemaVersion := 1;
     ResourceJSON.Values := jsonValues |}.

(** The resource-change record of a block with that value snapshot. *)
Definition changeRecord (block : hcl.Block)
    (jsonValues : option (gmap string jval)) : ResourceChangesJSON.t :=
  {| ResourceChangesJSON.Address := hcl.FullName block;
     ResourceChangesJSON.ModuleAddress := hcl.ModuleAddress block;
     ResourceChangesJSON.Mode := "managed";
     ResourceChangesJSON.Type_ := hcl.TypeLabel block;
     ResourceChangesJSON.Name := hcl.NameLabel block;
     ResourceChangesJSON.Change :=
       {| ResourceChange.Actions := ["create"];
          ResourceChange.Before := None;
          ResourceChange.After := jsonValues |} |}.

(** [key] is the default provider key of the module: the first name that
    is not empty among the effective names of its provider blocks, in block
    order. *)
Definition isDefaultProviderKey (module : hcl.Module) (key : string) : Prop :=
  ∃ names,
    Forall2 (λ b name, providerName b = Ok name)
      (providerBlocks (hcl.Blocks module)) names
    ∧ key = firstNonEmpty names.

(** The provider configurations after the provider blocks with these
    (name, region) entries, in block order (line 163). *)
Definition recordProviders (cfg : gmap string ProviderConfig.t)
    (entries : list (string * string)) : gmap string ProviderConfig.t :=
  foldl (λ cfg entry, <[entry.1 := providerConfigOf entry]> cfg) cfg entries.

Section vocabulary.

Context `{!CtyJson, !MapRange}.

(** One iteration of the loop of [marshalAttributeValues] over the
    attributes of an object. *)
Definition recordAttribute (blockType : string) (ret : gmap string jval)
    (kv : string * cty.Value) : gmap string jval :=
  if skipped blockType kv.1 then ret
  else <[kv.1 := JRaw (ctyJsonMarshal kv.2).1]> ret.

(** One iteration of the loop of [marshalBlock] over the child blocks. *)
Definition marshalChild (jsonValues : option (gmap string jval))
    (b : hcl.Block) : res (option (gmap string jval)) :=
  childValues ←! marshalAttributeValues (hcl.Type_ b) (hcl.Values b);
  childValues ←! (if bool_decide (0 < length (hcl.Children b))
                  then marshalBlock b childValues
                  else Ok childValues);
  match jsonValues with
  | None => Panic PanicNilMapWrite
  | Some m =>
    match m !! hcl.Type_ b with
    | Some (JArr v) =>
        Ok (Some (<[hcl.Type_ b := JArr (v ++ [childValues])]> m))
    | Some (JRaw _) => Panic PanicTypeAssertion
    | None => Ok (Some (<[hcl.Type_ b := JArr [childValues]]> m))
    end
  end.

(** The value snapshot of a resource block (lines 195-196). *)
Definition blockValues (block : hcl.Block) : res (option (gmap string jval)) :=
  jsonValues ←! marshalAttributeValues (hcl.Type_ block) (hcl.Values block);
  marshalBlock block jsonValues.

(** The map [childExpressions] that [blockToReferences] builds from the
    child blocks (lines 267-275). *)
Definition childExpressionsOf (children : list hcl.Block)
  : gmap string (list (gmap string expr)) :=
  foldl (λ (childExpressions : gmap string (list (gmap string expr)))
           (child : hcl.Block),
      let vals := default [] (childExpressions !! hcl.Type_ child) in
      let childReferences := blockToReferences child in
      if bool_decide (0 < size childReferences)
      then <[hcl.Type_ child := vals ++ [childReferences]]> childExpressions
      else childExpressions)
    ∅ children.

(** The loop at lines 278-280 over the entries in a given order. *)
Definition mergeChildExpressions (expressionValues : gmap string expr)
    (entries : list (string * list (gmap string expr))) : gmap string expr :=
  foldl (λ (expressionValues : gmap string expr) '(name, v),
           <[name := EList v]> expressionValues)
    expressionValues entries.

(** One iteration of the loop of [blockToReferences] over the attributes. *)
Definition attributeReferences (children : list hcl.Block)
    (expressionValues : gmap string expr) (attribute : hcl.Attribute)
  : gmap string expr :=
  let references := hcl.AllReferences attribute in
  let expressionValues :=
    if bool_decide (0 < length references)
    then <[hcl.Name attribute := ERefs (hcl.String <$> references)]>
           expressionValues
    else expressionValues in
  let childExpressions := childExpressionsOf children in
  if bool_decide (0 < size childExpressions)
  then mergeChildExpressions expressionValues (rangeOrder childExpressions)
  else expressionValues.

(** The declaration of a root-level resource (lines 233-240). *)
Definition rootDeclaration (block : hcl.Block) (providerConfigKey : string)
  : ResourceData.t :=
  {| ResourceData.Address := hcl.FullName block;
     ResourceData.Mode := "managed";
     ResourceData.Type_ := hcl.TypeLabel block;
     ResourceData.Name := hcl.LocalName block;
     ResourceData.ProviderConfigKey := providerConfigKey;
     ResourceData.Expressions := blockToReferences block |}.

(** The declaration of a resource nested in a module call (lines 221-228). *)
Definition moduleDeclaration (block : hcl.Block) : ResourceData.t :=
  {| ResourceData.Address := hcl.LocalName block;
     ResourceData.Mode := "managed";
     ResourceData.Type_ := hcl.TypeLabel block;
     ResourceData.Name := hcl.NameLabel block;
     ResourceData.ProviderConfigKey :=
       hcl.ModuleName block +:+ ":" +:+ hcl.Provider block;
     ResourceData.Expressions := blockToReferences block |}.

(** The module call under the module name of a nested resource block after
    the block is processed, given the entry that was there (lines 211-229). *)
Definition extendModuleCall (existing : option ModuleCall.t)
    (block : hcl.Block) : ModuleCall.t :=
  let modCall :=
    default {| ModuleCall.Source := hcl.ModuleSource block;
               ModuleCall.Module_ := {| ModuleCallModule.Resources := [] |} |}
      existing in
  {| ModuleCall.Source := ModuleCall.Source modCall;
     ModuleCall.Module_ :=
       {| ModuleCallModule.Resources :=
            ModuleCallModule.Resources (ModuleCall.Module_ modCall) ++
            [moduleDeclaration block] |} |}.

(** The module call that the nested resource blocks [nested] (in order)
    leave under [name]: none if no block carries that module name, else the
    source of the first such block and the declarations of all of them. *)
Definition moduleCallOf (name : string) (nested : list hcl.Block)
  : option ModuleCall.t :=
  match filter (λ b, hcl.ModuleName b = name) nested with
  | [] => None
  | first :: rest =>
    Some {| ModuleCall.Source := hcl.ModuleSource first;
            ModuleCall.Module_ :=
              {| ModuleCallModule.Resources :=
                   moduleDeclaration <$> first :: rest |} |}
  end.

(** [c] is the resource-change record of the block, [r] its planned-resource
    record: the record with the value snapshot of the block. *)
Definition hasChangeRecord (block : hcl.Block) (c : ResourceChangesJSON.t)
  : Prop :=
  ∃ v, blockValues block = Ok v ∧ c = changeRecord block v.

Definition hasPlannedRecord (block : hcl.Block) (r : ResourceJSON.t) : Prop :=
  ∃ v, blockValues block = Ok v ∧ r = plannedRecord block v.

(** The document holds the records of the resource blocks [done], each
    paired with the default provider key of its module: a change record per
    block, a planned record and a declaration at the root for each block that
    is not nested, a planned record in the one child-module bucket and a
    declaration under its module call for each nested block. *)
Definition assembled (done : list (string * hcl.Block)) (sch : PlanSchema.t)
  : Prop :=
  Forall2 (λ pb c, hasChangeRecord pb.2 c)
    done (PlanSchema.ResourceChanges sch)
  ∧ Forall2 (λ pb r, hasPlannedRecord pb.2 r)
      (filter (λ pb, hcl.HasModuleBlock pb.2 = false) done)
      (plannedResources sch)
  ∧ (∃ bucket, childModules sch = [bucket] ∧
       Forall2 (λ pb r, hasPlannedRecord pb.2 r)
         (filter (λ pb, hcl.HasModuleBlock pb.2 = true) done)
         (ChildModule.Resources bucket))
  ∧ Forall2 (λ pb d, ∃ key, resourceProviderKey pb.1 pb.2 = Ok key ∧
                            d = rootDeclaration pb.2 key)
      (filter (λ pb, hcl.HasModuleBlock pb.2 = false) done)
      (configResources sch)
  ∧ ∀ name, moduleCalls sch !! name =
            moduleCallOf name
              (filter (λ pb, hcl.HasModuleBlock pb.2 = true) done).*2.

(** The resource blocks of the modules, each paired with the default
    provider key of its module. *)
Definition keyedResources (modules : list hcl.Module) (keys : list string)
  : list (string * hcl.Block) :=
  mjoin (zip_with (λ m key, (key,.) <$> resourceBlocks (hcl.Blocks m))
           modules keys).

End vocabulary.

(** ** Inputs that the converter accepts *)

(** The value container of a block of that kind can be marshalled and then
    extended with child blocks of these kinds: it is an object or a map
    none of whose marshalled attributes bears the kind of a child, or it is
    absent and there is no child. *)
Definition valuesMarshallable (blockType : string) (value : cty.Value)
    (childKinds : list string) : bool :=
  match value with
  | cty.NilVal | cty.NullVal _ => bool_decide (childKinds = [])
  | cty.ObjectVal kvs | cty.MapVal kvs =>
      forallb (λ kind, negb (bool_decide (kind ∈ kvs.*1))
                       || skipped blockType kind) childKinds
  | _ => false
  end.

(** The block and all its descendants can be marshalled. *)
Fixpoint marshallable (block : hcl.Block) : bool :=
  match block with
  | hcl.mkBlock blockType _ _ _ _ _ _ _ _ _ values _ children =>
    valuesMarshallable blockType values (hcl.Type_ <$> children)
    && forallb marshallable children
  end.

(** The value is a known string. *)
Definition isStringVal (value : cty.Value) : bool :=
  match value with
  | cty.StringVal _ => true
  | _ => false
  end.

(** A provider block whose alias, if it has one, is a string and whose
    region is missing or a string; a resource block that can be marshalled
    and whose [provider] attribute, if it is of type string, is a known
    string; any block of another kind. *)
Definition convertible (block : hcl.Block) : bool :=
  (if bool_decide (hcl.Type_ block = "provider") then
     match hcl.GetAttribute block "alias" with
     | Some a => isStringVal (hcl.AttrValue a)
     | None => true
     end
     && (cty.isNilVal (hcl.Value (hcl.GetAttribute block "region"))
         || isStringVal (hcl.Value (hcl.GetAttribute block "region")))
   else true)
  && (if bool_decide (hcl.Type_ block = "resource") then
        marshallable block
        && match hcl.GetAttribute block "provider" with
           | Some providerAttr =>
               negb (bool_decide (cty.TypeOf (hcl.AttrValue providerAttr)
                                  = cty.String))
               || isStringVal (hcl.AttrValue providerAttr)
           | None => true
           end
      else true).

(** * Sample inputs *)

(** An encoder in the manner of [ctyJson.Marshal]: it fails on unknown
    values and on the zero value. *)
Definition sampleEncoder : CtyJson := λ v,
  match v with
  | cty.StringVal s => (let q := Ascii.ascii_of_nat 34 in Some (String q (s +:+ String q "")), None)
  | cty.NumberIntVal n => (Some (pretty n), None)
  | cty.BoolVal b => (Some (if b then "true" else "false"), None)
  | cty.NullVal _ => (Some "null", None)
  | cty.ObjectVal _ | cty.MapVal _ => (Some "{}", None)
  | cty.ListVal _ => (Some "[]", None)
  | cty.UnknownVal _ | cty.NilVal =>
      (None, Some (ErrorString "value is not known"))
  end.

(** The same encoder with its errors dropped. *)
Definition silentEncoder : CtyJson := λ v, ((sampleEncoder v).1, None).

(** A document encoder that succeeds and one that fails. *)
Definition sampleJson : EncodingJson := λ sch,
  (Some ("{format_version:" +:+ PlanSchema.FormatVersion sch +:+ "}"), None).

Definition failingJson : EncodingJson := λ sch,
  (None, Some (ErrorString "json: error calling MarshalJSON")).

(** Two orders of the range statement. *)
Definition sampleOrder : MapRange := λ m, map_to_list m.

Definition reverseOrder : MapRange := λ m, reverse (map_to_list m).

(** A parser that hands out the result it was built with. *)
Definition sampleParser : HclParser :=
  {| Parser := list hcl.Module * option error; ParseDirectory := id |}.

(** [provider "aws" { region = "us-east-1" }] *)
Definition awsProvider : hcl.Block :=
  {| hcl.Type_ := "provider"; hcl.TypeLabel := "aws"; hcl.NameLabel := "";
     hcl.FullName := "provider.aws"; hcl.LocalName := "provider.aws";
     hcl.ModuleAddress := ""; hcl.ModuleName := ""; hcl.ModuleSource := "";
     hcl.Provider := ""; hcl.HasModuleBlock := false;
     hcl.Values := cty.ObjectVal [("region", cty.StringVal "us-east-1")];
     hcl.GetAttributes :=
       [hcl.mkAttribute "region" (cty.StringVal "us-east-1") []];
     hcl.Children := [] |}.

(** [ebs_block_device { volume_id = aws_ebs_volume.data.id }] *)
Definition ebsDevice : hcl.Block :=
  {| hcl.Type_ := "ebs_block_device"; hcl.TypeLabel := ""; hcl.NameLabel := "";
     hcl.FullName := "aws_instance.web.ebs_block_device";
     hcl.LocalName := "ebs_block_device";
     hcl.ModuleAddress := ""; hcl.ModuleName := ""; hcl.ModuleSource := "";
     hcl.Provider := "aws"; hcl.HasModuleBlock := false;
     hcl.Values := cty.ObjectVal [("volume_id", cty.StringVal "vol-1")];
     hcl.GetAttributes :=
       [hcl.mkAttribute "volume_id" (cty.StringVal "vol-1")
          [hcl.mkReference "aws_ebs_volume.data.id"]];
     hcl.Children := [] |}.

(** [network_interface { device_index = 0 network_interface_id =
    aws_network_interface.main.id }] *)
Definition networkInterface : hcl.Block :=
  {| hcl.Type_ := "network_interface"; hcl.TypeLabel := ""; hcl.NameLabel := "";
     hcl.FullName := "aws_instance.web.network_interface";
     hcl.LocalName := "network_interface";
     hcl.ModuleAddress := ""; hcl.ModuleName := ""; hcl.ModuleSource := "";
     hcl.Provider := "aws"; hcl.HasModuleBlock := false;
     hcl.Values :=
       cty.ObjectVal [("device_index", cty.NumberIntVal 0);
                      ("network_interface_id", cty.StringVal "eni-1")];
     hcl.GetAttributes :=
       [hcl.mkAttribute "device_index" (cty.NumberIntVal 0) [];
        hcl.mkAttribute "network_interface_id" (cty.StringVal "eni-1")
          [hcl.mkReference "aws_network_interface.main.id"]];
     hcl.Children := [] |}.

(** [resource "aws_instance" "web"] with [count = 3], an [ami] that refers
    to two variables, a [size] of unknown value and two child blocks. *)
Definition webInstance : hcl.Block :=
  {| hcl.Type_ := "resource"; hcl.TypeLabel := "aws_instance";
     hcl.NameLabel := "web";
     hcl.FullName := "aws_instance.web"; hcl.LocalName := "aws_instance.web";
     hcl.ModuleAddress := ""; hcl.ModuleName := ""; hcl.ModuleSource := "";
     hcl.Provider := "aws"; hcl.HasModuleBlock := false;
     hcl.Values :=
       cty.ObjectVal [("ami", cty.StringVal "ami-1");
                      ("count", cty.NumberIntVal 3);
                      ("size", cty.UnknownVal cty.Number)];
     hcl.GetAttributes :=
       [hcl.mkAttribute "ami" (cty.StringVal "ami-1")
          [hcl.mkReference "var.ami"; hcl.mkReference "var.suffix"];
        hcl.mkAttribute "count" (cty.NumberIntVal 3) [];
        hcl.mkAttribute "size" cty.NilVal []];
     hcl.Children := [ebsDevice; networkInterface] |}.

(** A subnet declared in the module that a call named ["net"] with that
    source instantiates; [parent] is the address of the calling module. *)
Definition netSubnet (parent source : string) : hcl.Block :=
  {| hcl.Type_ := "resource"; hcl.TypeLabel := "aws_subnet";
     hcl.NameLabel := "main";
     hcl.FullName := parent +:+ "module.net.aws_subnet.main";
     hcl.LocalName := "aws_subnet.main";
     hcl.ModuleAddress := parent +:+ "module.net"; hcl.ModuleName := "net";
     hcl.ModuleSource := source;
     hcl.Provider := "aws"; hcl.HasModuleBlock := true;
     hcl.Values := cty.ObjectVal [("cidr_block", cty.StringVal "10.0.0.0/24")];
     hcl.GetAttributes :=
       [hcl.mkAttribute "cidr_block" (cty.StringVal "10.0.0.0/24") []];
     hcl.Children := [] |}.

Definition sampleModules : list hcl.Module :=
  [ {| hcl.Blocks :=
         [awsProvider; webInstance; netSubnet "" "./modules/net"] |} ].

(** Two module calls of the same name with different sources, under two
    different parent modules. *)
Definition sameNameModules : list hcl.Module :=
  [ {| hcl.Blocks := [netSubnet "module.a." "./a/net";
                      netSubnet "module.b." "./b/net"] |} ].

(** [resource "aws_instance" "web"] with nothing but the
    [ebs_block_device] block. *)
Definition blocksOnlyInstance : hcl.Block :=
  {| hcl.Type_ := "resource"; hcl.TypeLabel := "aws_instance";
     hcl.NameLabel := "web";
     hcl.FullName := "aws_instance.web"; hcl.LocalName := "aws_instance.web";
     hcl.ModuleAddress := ""; hcl.ModuleName := ""; hcl.ModuleSource := "";
     hcl.Provider := "aws"; hcl.HasModuleBlock := false;
     hcl.Values := cty.ObjectVal [];
     hcl.GetAttributes := [];
     hcl.Children := [ebsDevice] |}.

(** A provider block whose effective name is empty ([alias = ""]). *)
Definition unnamedProvider : hcl.Block :=
  {| hcl.Type_ := "provider"; hcl.TypeLabel := "google"; hcl.NameLabel := "";
     hcl.FullName := "provider.google"; hcl.LocalName := "provider.google";
     hcl.ModuleAddress := ""; hcl.ModuleName := ""; hcl.ModuleSource := "";
     hcl.Provider := ""; hcl.HasModuleBlock := false;
     hcl.Values := cty.ObjectVal [("alias", cty.StringVal "")];
     hcl.GetAttributes := [hcl.mkAttribute "alias" (cty.StringVal "") []];
     hcl.Children := [] |}.

Definition unnamedFirstModules : list hcl.Module :=
  [ {| hcl.Blocks := [unnamedProvider; awsProvider; webInstance] |} ].

(** [provider "aws" { region = 5 }] *)
Definition numericRegionProvider : hcl.Block :=
  {| hcl.Type_ := "provider"; hcl.TypeLabel := "aws"; hcl.NameLabel := "";
     hcl.FullName := "provider.aws"; hcl.LocalName := "provider.aws";
     hcl.ModuleAddress := ""; hcl.ModuleName := ""; hcl.ModuleSource := "";
     hcl.Provider := ""; hcl.HasModuleBlock := false;
     hcl.Values := cty.ObjectVal [("region", cty.NumberIntVal 5)];
     hcl.GetAttributes := [hcl.mkAttribute "region" (cty.NumberIntVal 5) []];
     hcl.Children := [] |}.

(** A provider block without a [region] attribute. *)
Definition regionlessProvider : hcl.Block :=
  {| hcl.Type_ := "provider"; hcl.TypeLabel := "aws"; hcl.NameLabel := "";
     hcl.FullName := "provider.aws"; hcl.LocalName := "provider.aws";
     hcl.ModuleAddress := ""; hcl.ModuleName := ""; hcl.ModuleSource := "";
     hcl.Provider := ""; hcl.HasModuleBlock := false;
     hcl.Values := cty.ObjectVal [];
     hcl.GetAttributes := [];
     hcl.Children := [] |}.

(** A resource block whose value container is the zero value and which has
    a child block. *)
Definition valuelessInstance : hcl.Block :=
  {| hcl.Type_ := "resource"; hcl.TypeLabel := "aws_instance";
     hcl.NameLabel := "web";
     hcl.FullName := "aws_instance.web"; hcl.LocalName := "aws_instance.web";
     hcl.ModuleAddress := ""; hcl.ModuleName := ""; hcl.ModuleSource := "";
     hcl.Provider := "aws"; hcl.HasModuleBlock := false;
     hcl.Values := cty.NilVal;
     hcl.GetAttributes := [];
     hcl.Children := [ebsDevice] |}.

(** * Variables from the plan flags *)

(** ** The [regexp] and [flag] packages of the Go library

    The library is not part of the repository; [regexp.Split] and
    [flag.FlagSet.Parse] are modelled after its source, for the one pattern
    and the two flags that the provider uses. *)

(** The class [\s] of Go regular expressions: tab, line feed, form feed,
    carriage return and space. *)
Definition isSpace (c : Ascii.ascii) : bool :=
  bool_decide (Ascii.nat_of_ascii c ∈ [9; 10; 12; 13; 32]%nat).

(** [spaceReg.Split(s, -1)] for [spaceReg = `\s+`], scanning [s] from the
    left: [piece] is the text since the last match, [inMatch] tells whether
    the last byte belonged to a match.  The pieces before and after a match
    at either end of [s] are empty strings, and the empty string has the one
    piece [""]. *)
Fixpoint splitSpaces (inMatch : bool) (piece : string) (s : string)
  : list string :=
  match s with
  | EmptyString => [piece]
  | String c s' =>
    if isSpace c then
      if inMatch then splitSpaces true EmptyString s'
      else piece :: splitSpaces true EmptyString s'
    else splitSpaces false (piece +:+ String c EmptyString) s'
  end.

Definition spaceReg_Split (s : string) : list string :=
  splitSpaces false EmptyString s.

(** The text before and after the first [=] of a string. *)
Fixpoint cutAtEquals (s : string) : option (string * string) :=
  match s with
  | EmptyString => None
  | String c s' =>
    if bool_decide (c = "="%char) then Some (EmptyString, s')
    else match cutAtEquals s' with
         | Some (name, value) => Some (String c name, value)
         | None => None
         end
  end.

(** The name and the value of a flag written [name=value]; the search for
    [=] starts at the second byte of the name. *)
Definition flagNameValue (name : string) : string * option string :=
  match name with
  | EmptyString => (EmptyString, None)
  | String c rest =>
    match cutAtEquals rest with
    | Some (name', value) => (String c name', Some value)
    | None => (name, None)
    end
  end.

(** [type vars struct] *)
Record vars := mkVars {
  files : list string;
  vars_ : list string;
}.

(** The flags that [varsFromPlanFlags] defines, each bound to a
    [flagStringSlice] of its own. *)
Inductive planFlag := FlagVar | FlagVarFile.

#[global] Instance planFlag_eq_dec : EqDecision planFlag.
Proof. solve_decision. Defined.

(** [f.formal[name]] *)
Definition lookupFlag (name : string) : option planFlag :=
  if bool_decide (name = "var") then Some FlagVar
  else if bool_decide (name = "var-file") then Some FlagVarFile
  else None.

(** [flagStringSlice.Set] on the slice of the flag: the value is appended,
    the error is nil. *)
Definition flagStringSlice_Set (flag : planFlag) (raw : string) (v : vars)
  : vars :=
  match flag with
  | FlagVar => {| files := files v; vars_ := vars_ v ++ [raw] |}
  | FlagVarFile => {| files := files v ++ [raw]; vars_ := vars_ v |}
  end.

(** [flag.FlagSet.Parse] with [ContinueOnError], as the loop over
    [parseOne]: the state is the two slices; the result is the state at the
    end and the error.  (The usage text that the library prints on an error
    is left out.) *)
Fixpoint flagParse (args : list string) (v : vars) {struct args}
  : vars * option error :=
  match args with
  | [] => (v, None)
  | s :: rest =>
    match s with
    | String c0 (String c1 s2) =>
      if negb (bool_decide (c0 = "-"%char)) then (v, None)
      else if bool_decide (c1 = "-"%char) && bool_decide (s2 = EmptyString)
      then (v, None) (* "--" terminates the flags *)
      else
        let name := if bool_decide (c1 = "-"%char) then s2 else String c1 s2 in
        match name with
        | EmptyString => (v, Some (ErrorString ("bad flag syntax: " +:+ s)))
        | String n0 _ =>
          if bool_decide (n0 = "-"%char) || bool_decide (n0 = "="%char)
          then (v, Some (ErrorString ("bad flag syntax: " +:+ s)))
          else
            let '(name, value) := flagNameValue name in
            match lookupFlag name with
            | None =>
              if bool_decide (name = "help") || bool_decide (name = "h")
              then (v, Some (ErrorString "flag: help requested"))
              else (v, Some (ErrorString
                               ("flag provided but not defined: -" +:+ name)))
            | Some flag =>
              match value with
              | Some value => flagParse rest (flagStringSlice_Set flag value v)
              | None =>
                match rest with
                | value :: rest' =>
                    flagParse rest' (flagStringSlice_Set flag value v)
                | [] => (v, Some (ErrorString
                                    ("flag needs an argument: -" +:+ name)))
                end
              end
            end
        end
    | _ => (v, None) (* len(s) < 2 *)
    end
  end.

(** ** [varsFromPlanFlags] *)

Definition varsFromPlanFlags (planFlags : string) : vars * option error :=
  let '(v, err) := flagParse (spaceReg_Split planFlags)
                     {| files := []; vars_ := [] |} in
  match err with
  | Some err => ({| files := []; vars_ := [] |}, Some err)
  | None => ({| files := files v; vars_ := vars_ v |}, None)
  end.

(** ** [NewHCLProvider] and [LoadResources] *)

(** The fields of [config.ProjectConfig] that [NewHCLProvider] reads. *)
Record ProjectConfig := mkProjectConfig {
  Path : string;
  TerraformPlanFlags : string;
  TerraformVarFiles : list string;
  TerraformVars : list string;
}.

(** [hcl.Option], the two options that [NewHCLProvider] builds and
    [hcl.New], which makes the parser of a directory. *)
Class HclNew `{!HclParser} := {
  Option : Type;
  OptionWithTFVarsPaths : list string → Option;
  OptionWithInputVars : list string → Option;
  New : string → list Option → Parser;
}.

(** [PlanJSONProvider] and its method [LoadResourcesFromSrc], which is
    called with the usage data and the bytes of the plan JSON (its last
    argument is nil). *)
Class PlanJSON := {
  PlanJSONProvider : Type;
  UsageData : Type;
  Project : Type;
  LoadResourcesFromSrc :
    PlanJSONProvider → gmap string UsageData → option string →
    list Project * option error;
}.

Section provider.

Context `{!CtyJson, !EncodingJson, !MapRange, !HclParser, !HclNew, !PlanJSON}.

(** [type HCLProvider struct] *)
Record HCLProvider := mkHCLProvider {
  HCLProvider_Parser : Parser;
  HCLProvider_Provider : PlanJSONProvider;
}.

(** The options that [NewHCLProvider] passes to [hcl.New] for these
    variable files and variables (lines 65-76). *)
Definition parserOptions (v : vars) : list Option :=
  (if bool_decide (0 < length (files v))
   then [OptionWithTFVarsPaths (files v)] else [])
  ++ (if bool_decide (0 < length (vars_ v))
      then [OptionWithInputVars (vars_ v)] else []).

(** [NewHCLProvider]; [None] is the zero value [HCLProvider{}] that comes
    with an error. *)
Definition NewHCLProvider (ctx : ProjectConfig) (provider : PlanJSONProvider)
  : option HCLProvider * option error :=
  let '(v, err) := varsFromPlanFlags (TerraformPlanFlags ctx) in
  match err with
  | Some err =>
    (None, Some (WrapError "could not parse vars from plan flags " err))
  | None =>
    let options : list Option := [] in
    let v := {| files := files v ++ TerraformVarFiles ctx;
                vars_ := vars_ v |} in
    let options :=
      if bool_decide (0 < length (files v))
      then options ++ [OptionWithTFVarsPaths (files v)] else options in
    let v := {| files := files v;
                vars_ := vars_ v ++ TerraformVars ctx |} in
    let options :=
      if bool_decide (0 < length (vars_ v))
      then options ++ [OptionWithInputVars (vars_ v)] else options in
    let p := New (Path ctx) options in
    (Some {| HCLProvider_Parser := p; HCLProvider_Provider := provider |},
     None)
  end.

(** [HCLProvider.LoadResources]: the projects and the error, unless the
    assembler panics. *)
Definition LoadResources (p : HCLProvider) (usage : gmap string UsageData)
  : res (list Project * option error) :=
  '(b, err) ←! loadPlanJSON (HCLProvider_Parser p);
  match err with
  | Some err => Ok ([], Some err)
  | None => Ok (LoadResourcesFromSrc (HCLProvider_Provider p) usage b)
  end.

End provider.

(** ** Plan flags as text *)

(** The name of a flag. *)
Definition flagName (flag : planFlag) : string :=
  match flag with
  | FlagVar => "var"
  | FlagVarFile => "var-file"
  end.

(** A word that [spaceReg] leaves whole: it is not empty and has no
    white space. *)
Fixpoint spaceFree (s : string) : bool :=
  match s with
  | EmptyString => true
  | String c s' => negb (isSpace c) && spaceFree s'
  end.

Definition isWord (s : string) : bool :=
  negb (bool_decide (s = EmptyString)) && spaceFree s.

(** The flags [-name value], separated by single spaces. *)
Definition renderFlag (entry : planFlag * string) : string :=
  "-" +:+ flagName entry.1 +:+ " " +:+ entry.2.

Fixpoint renderFlags (entries : list (planFlag * string)) : string :=
  match entries with
  | [] => EmptyString
  | [entry] => renderFlag entry
  | entry :: entries' => renderFlag entry +:+ " " +:+ renderFlags entries'
  end.

(** The text of the entries when more text follows. *)
Definition renderPrefix (entries : list (planFlag * string)) : string :=
  match entries with
  | [] => EmptyString
  | _ => renderFlags entries +:+ " "
  end.

(** Words separated by single spaces, and the arguments that the entries
    stand for. *)
Fixpoint joinWords (words : list string) : string :=
  match words with
  | [] => EmptyString
  | [word] => word
  | word :: words' => word +:+ " " +:+ joinWords words'
  end.

Definition flagTokens (entries : list (planFlag * string)) : list string :=
  entries ≫= λ entry, ["-" +:+ flagName entry.1; entry.2].

(** The pieces of the text after a word. *)
Definition restTokens (tail : string) : list string :=
  match tail with
  | EmptyString => []
  | String _ tail' => splitSpaces true EmptyString tail'
  end.

(** The values given for a flag, in order. *)
Definition flagValues (flag : planFlag) (entries : list (planFlag * string))
  : list string :=
  snd <$> filter (λ entry, entry.1 = flag) entries.

(** The text ends here or goes on after white space. *)
Definition endsWord (tail : string) : bool :=
  match tail with
  | EmptyString => true
  | String c _ => isSpace c
  end.

(** A word at which [flag] stops without an error: it has fewer than two
    bytes, does not start with [-], or is [--]. *)
Definition stopsFlags (word : string) : bool :=
  match word with
  | String c0 (String c1 s2) =>
    negb (bool_decide (c0 = "-"%char))
    || (bool_decide (c1 = "-"%char) && bool_decide (s2 = EmptyString))
  | _ => true
  end.

(** A flag name that the syntax of [flag] accepts and that has no value
    attached: it does not start with [-] or [=] and has no [=]. *)
Definition plainFlagName (name : string) : bool :=
  match name with
  | EmptyString => false
  | String c _ =>
    negb (bool_decide (c = "-"%char)) && negb (bool_decide (c = "="%char))
    && bool_decide (cutAtEquals name = None)
  end.

(** ** Blocks that the assembler reads *)

(** The blocks of the kinds [provider] and [resource]. *)
Definition assemblerBlocks (blocks : list hcl.Block) : list hcl.Block :=
  filter (λ b, hcl.Type_ b = "provider" ∨ hcl.Type_ b = "resource") blocks.

(** ** Entries of a value map *)

(** The list under a key of a value map, empty if the key is absent or
    holds raw JSON. *)
Definition arrayAt (m : gmap string jval) (key : string)
  : list (option (gmap string jval)) :=
  match m !! key with
  | Some (JArr elems) => elems
  | _ => []
  end.

(** ** The head of the document *)

(** [format_version], [terraform_version] and [variables]. *)
Definition documentHeader (sch : PlanSchema.t)
  : string * string * option jval :=
  (PlanSchema.FormatVersion sch, PlanSchema.TerraformVersion sch,
   PlanSchema.Variables sch).

(** The planned resources of the document: those of the root module and
    those of its child modules. *)
Definition allPlannedResources (sch : PlanSchema.t) : list ResourceJSON.t :=
  plannedResources sch ++ (childModules sch ≫= ChildModule.Resources).

(** ** References of the child blocks *)

(** The expression maps of the child blocks of one kind that are not
    empty, in block order (lines 268-275). *)
Definition childReferences `{!MapRange} (kind : string)
    (children : list hcl.Block) : list (gmap string expr) :=
  filter (λ childReferences : gmap string expr, 0 < size childReferences)
    (blockToReferences <$> filter (λ child, hcl.Type_ child = kind) children).

(** The [refs] entry of an attribute with references (lines 259-264). *)
Definition attributeRefs (attribute : hcl.Attribute) : expr :=
  ERefs (hcl.String <$> hcl.AllReferences attribute).

(** The attributes of that name that have references. *)
Definition referringAttributes (name : string)
    (attributes : list hcl.Attribute) : list hcl.Attribute :=
  filter (λ attribute, hcl.Name attribute = name
                       ∧ 0 < length (hcl.AllReferences attribute)) attributes.

(** ** Documents of several runs *)

(** The body of the loop over the modules (lines 142-248). *)
Definition moduleBlocks `{!CtyJson, !MapRange} (sch : PlanSchema.t)
    (module : hcl.Module) : res PlanSchema.t :=
  '(providerKey, sch) ←! foldM providerBlock ("", sch) (hcl.Blocks module);
  foldM (resourceBlock providerKey) sch (hcl.Blocks module).

(** A module call followed by the declarations of another one. *)
Definition appendModuleCall (first second : ModuleCall.t) : ModuleCall.t :=
  {| ModuleCall.Source := ModuleCall.Source first;
     ModuleCall.Module_ :=
       {| ModuleCallModule.Resources :=
            ModuleCallModule.Resources (ModuleCall.Module_ first) ++
            ModuleCallModule.Resources (ModuleCall.Module_ second) |} |}.

(** ** Sample inputs of the provider *)

(** A parser that records the directory and the options it was made with,
    and finds no module. *)
Definition recordingParser : HclParser :=
  {| Parser := string * list (string * list string);
     ParseDirectory := λ _, ([], None) |}.

Definition recordingNew : @HclNew recordingParser :=
  @Build_HclNew recordingParser (string * list string)
    (λ paths, ("tfvars-paths", paths))
    (λ inputVars, ("input-vars", inputVars))
    (λ path options, (path, options)).

(** A consumer of the plan JSON that makes one project of the bytes. *)
Definition sampleConsumer : PlanJSON :=
  {| PlanJSONProvider := unit; UsageData := unit; Project := option string;
     LoadResourcesFromSrc := λ _ _ b, ([b], None) |}.

(** [resource "aws_instance" "web"] with an attribute that bears the name
    of its child block. *)
Definition clashingInstance : hcl.Block :=
  {| hcl.Type_ := "resource"; hcl.TypeLabel := "aws_instance";
     hcl.NameLabel := "web";
     hcl.FullName := "aws_instance.web"; hcl.LocalName := "aws_instance.web";
     hcl.ModuleAddress := ""; hcl.ModuleName := ""; hcl.ModuleSource := "";
     hcl.Provider := "aws"; hcl.HasModuleBlock := false;
     hcl.Values := cty.ObjectVal [("ebs_block_device", cty.StringVal "none")];
     hcl.GetAttributes :=
       [hcl.mkAttribute "ebs_block_device" (cty.StringVal "none") []];
     hcl.Children := [ebsDevice] |}.

(** A second list of modules: another provider block of the name [aws] and
    a subnet of the module call [net]. *)
Definition moreModules : list hcl.Module :=
  [ {| hcl.Blocks := [regionlessProvider; netSubnet "" "./modules/net"] |} ].

(** [resource "aws_instance" "web"] with [provider = "aws.west"]. *)
Definition westInstance : hcl.Block :=
  {| hcl.Type_ := "resource"; hcl.TypeLabel := "aws_instance";
     hcl.NameLabel := "web";
     hcl.FullName := "aws_instance.web"; hcl.LocalName := "aws_instance.web";
     hcl.ModuleAddress := ""; hcl.ModuleName := ""; hcl.ModuleSource := "";
     hcl.Provider := "aws"; hcl.HasModuleBlock := false;
     hcl.Values := cty.ObjectVal [("provider", cty.StringVal "aws.west")];
     hcl.GetAttributes :=
       [hcl.mkAttribute "provider" (cty.StringVal "aws.west") []];
     hcl.Children := [] |}.

(** The same resource with a [provider] that is not known yet. *)
Definition pendingInstance : hcl.Block :=
  {| hcl.Type_ := "resource"; hcl.TypeLabel := "aws_instance";
     hcl.NameLabel := "web";
     hcl.FullName := "aws_instance.web"; hcl.LocalName := "aws_instance.web";
     hcl.ModuleAddress := ""; hcl.ModuleName := ""; hcl.ModuleSource := "";
     hcl.Provider := "aws"; hcl.HasModuleBlock := false;
     hcl.Values := cty.ObjectVal [("provider", cty.UnknownVal cty.String)];
     hcl.GetAttributes :=
       [hcl.mkAttribute "provider" (cty.UnknownVal cty.String) []];
     hcl.Children := [] |}.

(** * Properties *)

(** ** Loops in the [res] monad *)

Lemma res_bind_Ok {A B} (x : res A) (f : A → res B) (b : B) :
  res_bind x f = Ok b ↔ ∃ a, x = Ok a ∧ f a = Ok b.
Proof.
  destruct x as [a|p]; simpl; split.
  - eauto.
  - by intros (a' & [= ->] & ?).
  - done.
  - by intros (a' & ? & ?).
Qed.

Lemma foldM_cons {S B} (body : S → B → res S) (s : S) (x : B) (l : list B) :
  foldM body s (x :: l) = res_bind (body s x) (λ s', foldM body s' l).
Proof. done. Qed.

Lemma foldM_app {S B} (body : S → B → res S) (s : S) (l1 l2 : list B) :
  foldM body s (l1 ++ l2) = res_bind (foldM body s l1) (λ s', foldM body s' l2).
Proof.
  revert s. induction l1 as [|x l1 IH]; intros s; simpl; [done|].
  destruct (body s x) as [s'|p]; simpl; [apply IH|done].
Qed.

Lemma foldM_ext {S B} (f g : S → B → res S) (s : S) (l : list B) :
  (∀ s x, x ∈ l → f s x = g s x) → foldM f s l = foldM g s l.
Proof.
  revert s. induction l as [|x l IH]; intros s Hfg; simpl; [done|].
  rewrite Hfg by left. destruct (g s x) as [s'|p]; simpl; [|done].
  apply IH. intros s'' y Hy. apply Hfg. by right.
Qed.

(** An invariant of the loop state that every iteration preserves holds
    when the loop ends normally. *)
Lemma foldM_invariant {S B} (I : S → Prop) (body : S → B → res S) s l s' :
  (∀ s x s', x ∈ l → I s → body s x = Ok s' → I s') →
  I s → foldM body s l = Ok s' → I s'.
Proof.
  revert s. induction l as [|x l IH]; intros s Hbody Hs; simpl.
  - by intros [= <-].
  - intros (s1 & Hx & Hl)%res_bind_Ok.
    eapply IH; [|by eapply (Hbody s x); [left|..]|done].
    intros s2 y s3 Hy. apply Hbody. by right.
Qed.

(** A loop whose body never panics is a plain fold. *)
Lemma foldM_total {S B} (body : S → B → res S) (f : S → B → S) s l :
  (∀ s x, x ∈ l → body s x = Ok (f s x)) → foldM body s l = Ok (foldl f s l).
Proof.
  revert s. induction l as [|x l IH]; intros s Hbody; simpl; [done|].
  rewrite Hbody by left. simpl. apply IH. intros s' y Hy. apply Hbody. by right.
Qed.

Lemma foldl_ext_in {S B} (f g : S → B → S) (s : S) (l : list B) :
  (∀ s x, x ∈ l → f s x = g s x) → foldl f s l = foldl g s l.
Proof.
  revert s. induction l as [|x l IH]; intros s Hfg; simpl; [done|].
  rewrite Hfg by left. apply IH. intros s' y Hy. apply Hfg. by right.
Qed.

(** ** The attribute value marshaller *)

Section marshalling.

Context `{!CtyJson}.

Lemma marshalAttributeValues_absent blockType value :
  cty.isNilVal value || cty.IsNull value = true →
  marshalAttributeValues blockType value = Ok None.
Proof. unfold marshalAttributeValues. by intros ->. Qed.

Lemma marshalAttributeValues_object blockType kvs :
  marshalAttributeValues blockType (cty.ObjectVal kvs)
  = Ok (Some (foldl (recordAttribute blockType) ∅ kvs)).
Proof.
  unfold marshalAttributeValues. simpl.
  rewrite (foldM_total _
    (λ ret kv, recordAttribute blockType ret (match kv.1 with
                                              | cty.StringVal s => s
                                              | _ => ""
                                              end, kv.2))).
  - simpl. do 2 f_equal. generalize (∅ : gmap string jval).
    induction kvs as [|[k v] kvs IH]; intros ret; simpl; [done|]. apply IH.
  - intros ret [k v] ([k' v'] & [= -> ->] & _)%list_elem_of_fmap. simpl.
    unfold recordAttribute, skipped. simpl.
    destruct (ctyJsonMarshal v') as [vJSON e]. simpl.
    by destruct (_ && _).
Qed.

Lemma marshalAttributeValues_map blockType kvs :
  marshalAttributeValues blockType (cty.MapVal kvs)
  = marshalAttributeValues blockType (cty.ObjectVal kvs).
Proof. done. Qed.

(** An entry of the marshalled attributes is the raw JSON of the last
    attribute of that name, and there is none for a skipped name. *)
Lemma recordAttribute_lookup blockType kvs ret key :
  foldl (recordAttribute blockType) ret kvs !! key =
  if skipped blockType key then ret !! key
  else match last (filter (λ kv, kv.1 = key) kvs) with
       | Some kv => Some (JRaw (ctyJsonMarshal kv.2).1)
       | None => ret !! key
       end.
Proof.
  revert ret. induction kvs as [|[k v] kvs IH] using rev_ind; intros ret.
  { simpl. by destruct (skipped _ _). }
  rewrite foldl_app, filter_app. simpl. unfold recordAttribute at 1. simpl.
  rewrite filter_cons, filter_nil. simpl.
  destruct (decide (k = key)) as [->|Hne].
  - rewrite last_snoc. simpl. destruct (skipped blockType key) eqn:Hskip.
    + by rewrite IH.
    + by rewrite lookup_insert_eq.
  - rewrite app_nil_r. destruct (skipped blockType k).
    + apply IH.
    + rewrite lookup_insert_ne by done. apply IH.
Qed.

(** Whatever the input value, a map that the attribute marshaller returns
    for a resource or module block has no key [count]. *)
Lemma marshalAttributeValues_count blockType value vals :
  blockType = "resource" ∨ blockType = "module" →
  marshalAttributeValues blockType value = Ok vals →
  jsonLookup vals "count" = None.
Proof.
  intros Hkind. unfold marshalAttributeValues.
  destruct (_ || _); [by intros [= <-]|].
  intros (it & _ & (ret & Hloop & [= <-])%res_bind_Ok)%res_bind_Ok. simpl.
  revert Hloop. apply (foldM_invariant (λ ret, ret !! "count" = None));
    [|done].
  intros ret1 [k v] ret2 _ Hret1.
  destruct (ctyJsonMarshal v) as [vJSON e].
  intros (key & _ & Hstep)%res_bind_Ok. revert Hstep.
  rewrite (bool_decide_eq_true_2 _ Hkind). simpl. case_bool_decide.
  - by intros [= <-].
  - intros [= <-]. by rewrite lookup_insert_ne.
Qed.

(** Every entry of a map that the attribute marshaller returns is raw
    JSON. *)
Lemma marshalAttributeValues_raw blockType value vals key :
  marshalAttributeValues blockType value = Ok vals →
  jsonLookup vals key = None ∨ isRaw (jsonLookup vals key).
Proof.
  unfold marshalAttributeValues.
  destruct (_ || _); [intros [= <-]; by left|].
  intros (it & _ & (ret & Hloop & [= <-])%res_bind_Ok)%res_bind_Ok. simpl.
  revert Hloop.
  apply (foldM_invariant (λ ret, ret !! key = None ∨ isRaw (ret !! key)));
    [|by left].
  intros ret1 [k v] ret2 _ Hret1.
  destruct (ctyJsonMarshal v) as [vJSON e].
  intros (k' & _ & Hstep)%res_bind_Ok. revert Hstep.
  destruct (_ && _); intros [= <-]; [done|].
  destruct (decide (k' = key)) as [->|Hne].
  - right. by rewrite lookup_insert_eq.
  - by rewrite lookup_insert_ne.
Qed.

(** ** The block marshaller *)

Lemma marshalBlock_unfold block jsonValues :
  marshalBlock block jsonValues
  = foldM marshalChild jsonValues (hcl.Children block).
Proof. by destruct block. Qed.

Lemma marshalBlock_leaf block jsonValues :
  hcl.Children block = [] → marshalBlock block jsonValues = Ok jsonValues.
Proof. intros Hleaf. by rewrite marshalBlock_unfold, Hleaf. Qed.

(** The write of a child's kind into a nil map never succeeds: a block with
    a child cannot be marshalled into the nil map. *)
Lemma marshalChild_nil_map b : ∃ p, marshalChild None b = Panic p.
Proof.
  unfold marshalChild.
  destruct (marshalAttributeValues (hcl.Type_ b) (hcl.Values b))
    as [childValues|p]; simpl; [|by eauto].
  destruct (if bool_decide _ then _ else _) as [childValues'|p]; simpl; eauto.
Qed.

Lemma marshalBlock_nil_map block :
  hcl.Children block ≠ [] → ∃ p, marshalBlock block None = Panic p.
Proof.
  rewrite marshalBlock_unfold.
  destruct (hcl.Children block) as [|b children]; [done|]. intros _.
  rewrite foldM_cons. destruct (marshalChild_nil_map b) as [p ->]. by exists p.
Qed.

(** The block marshaller keeps a proper map proper, and an entry of the
    result is either the entry it found or the list of the value maps of the
    children of that kind. *)
Lemma marshalBlock_lookup block (m : gmap string jval) vals key :
  marshalBlock block (Some m) = Ok vals →
  ∃ m', vals = Some m' ∧
    (m' !! key = m !! key ∨
     (∃ elems, m' !! key = Some (JArr elems)) ∧
     key ∈ hcl.Type_ <$> hcl.Children block).
Proof.
  rewrite marshalBlock_unfold.
  generalize (hcl.Children block) as children. intros children.
  revert m vals.
  induction children as [|b children IH] using rev_ind; intros m vals.
  { simpl. intros [= <-]. eauto. }
  rewrite foldM_app. intros (vals1 & Hchildren & Hb)%res_bind_Ok.
  destruct (IH _ _ Hchildren) as (m1 & -> & Hm1). simpl in Hb.
  apply res_bind_Ok in Hb as (vals2 & Hb & [= <-]).
  unfold marshalChild in Hb.
  apply res_bind_Ok in Hb as (cv0 & _ & Hb).
  apply res_bind_Ok in Hb as (cv & _ & Hb).
  assert (∀ elems, ∃ m', Some (<[hcl.Type_ b := JArr elems]> m1) = Some m' ∧
            (m' !! key = m !! key ∨
             (∃ elems, m' !! key = Some (JArr elems)) ∧
             key ∈ hcl.Type_ <$> children ++ [b])) as Hins.
  { intros elems. eexists; split; [done|].
    rewrite fmap_app. setoid_rewrite elem_of_app.
    destruct (decide (hcl.Type_ b = key)) as [<-|Hne].
    - right. rewrite lookup_insert_eq. split; [by eauto|]. right. by left.
    - rewrite lookup_insert_ne by done.
      destruct Hm1 as [->|[? ?]]; [by left|right; split; [done|by left]]. }
  destruct (m1 !! hcl.Type_ b) as [[raw|elems]|]; [done|..];
    injection Hb as <-; apply Hins.
Qed.

End marshalling.

(** ** The reference extractor *)

Lemma blockToReferences_unfold `{!MapRange} block :
  blockToReferences block
  = foldl (attributeReferences (hcl.Children block)) ∅
      (hcl.GetAttributes block).
Proof. by destruct block. Qed.

(** The child blocks are only visited from inside the loop over the
    attributes: a block without attributes yields the empty map. *)
Lemma blockToReferences_no_attributes `{!MapRange} block :
  hcl.GetAttributes block = [] → blockToReferences block = ∅.
Proof. intros Hattrs. by rewrite blockToReferences_unfold, Hattrs. Qed.

(** Writing the entries of a map one by one yields the same map in every
    order: the keys are distinct. *)
Lemma mergeChildExpressions_list_to_map
    (entries : list (string * list (gmap string expr)))
    (expressionValues : gmap string expr) :
  NoDup entries.*1 →
  mergeChildExpressions expressionValues entries
  = (EList <$> (list_to_map entries : gmap string (list (gmap string expr))))
      ∪ expressionValues.
Proof.
  unfold mergeChildExpressions. revert expressionValues.
  induction entries as [|[name v] entries IH]; intros ev Hnodup.
  { simpl. by rewrite fmap_empty, (left_id_L ∅ (∪)). }
  rewrite fmap_cons in Hnodup. apply NoDup_cons in Hnodup as [Hname Hnodup].
  simpl. rewrite IH by done. rewrite fmap_insert, <-insert_union_l.
  symmetry. apply insert_union_r. rewrite lookup_fmap.
  by rewrite (not_elem_of_list_to_map_1 _ _ Hname).
Qed.

Lemma mergeChildExpressions_range `{!MapRange, !MapRangeSpec}
    (childExpressions : gmap string (list (gmap string expr)))
    (expressionValues : gmap string expr) :
  mergeChildExpressions expressionValues (rangeOrder childExpressions)
  = (EList <$> childExpressions) ∪ expressionValues.
Proof.
  pose proof (rangeOrder_perm childExpressions) as Hperm.
  assert (NoDup (rangeOrder childExpressions).*1) as Hnodup.
  { rewrite Hperm. apply NoDup_fst_map_to_list. }
  rewrite mergeChildExpressions_list_to_map by done.
  by rewrite (list_to_map_proper _ _ Hnodup Hperm), list_to_map_to_list.
Qed.

(** One iteration of the attribute loop, whatever the order of the range
    statement. *)
Lemma attributeReferences_range `{!MapRange, !MapRangeSpec} children
    (expressionValues : gmap string expr) attribute :
  attributeReferences children expressionValues attribute
  = (EList <$> childExpressionsOf children) ∪
    (if bool_decide (0 < length (hcl.AllReferences attribute))
     then <[hcl.Name attribute :=
              ERefs (hcl.String <$> hcl.AllReferences attribute)]>
            expressionValues
     else expressionValues).
Proof.
  unfold attributeReferences. simpl. case_bool_decide as Hsize.
  - apply mergeChildExpressions_range.
  - assert (childExpressionsOf children = ∅) as ->.
    { apply map_size_empty_iff. lia. }
    by rewrite fmap_empty, (left_id_L ∅ (∪)).
Qed.

(** The extracted references do not depend on the order in which the
    range statement visits [childExpressions]. *)
Lemma blockToReferences_order (o1 o2 : MapRange) :
  @MapRangeSpec o1 → @MapRangeSpec o2 →
  ∀ block, @blockToReferences o1 block = @blockToReferences o2 block.
Proof.
  intros Ho1 Ho2 block. induction block as [block IH] using Block_induction.
  rewrite !blockToReferences_unfold.
  assert (@childExpressionsOf o1 (hcl.Children block)
          = @childExpressionsOf o2 (hcl.Children block)) as Hchildren.
  { unfold childExpressionsOf. apply foldl_ext_in. intros ce child Hchild.
    rewrite Forall_forall in IH. by rewrite (IH child Hchild). }
  apply foldl_ext_in. intros ev attribute _.
  by rewrite !attributeReferences_range, Hchildren.
Qed.

(** ** The plan assembler: the provider pass *)

Lemma providerBlock_other st block :
  hcl.Type_ block ≠ "provider" → providerBlock st block = Ok st.
Proof.
  intros Hkind. unfold providerBlock. destruct st as [providerKey sch].
  by rewrite bool_decide_eq_false_2.
Qed.

Lemma providerBlock_provider providerKey sch block :
  hcl.Type_ block = "provider" →
  providerBlock (providerKey, sch) block
  = (entry ←! providerEntry block;
     Ok (pickProviderKey providerKey entry.1,
         setProviderConfig entry.1 (providerConfigOf entry) sch)).
Proof.
  intros Hkind. unfold providerBlock, providerEntry, providerName.
  rewrite bool_decide_eq_true_2 by done.
  destruct (hcl.GetAttribute block "alias") as [a|]; simpl.
  - destruct (cty.AsString (hcl.AttrValue a)) as [name|p]; simpl; [|done].
    unfold providerRegion. by destruct (if negb _ then _ else _).
  - unfold providerRegion. by destruct (if negb _ then _ else _).
Qed.

(** The first loop over the blocks of a module: the provider blocks are
    read in order, each sets the default key if it is still empty and
    records its configuration under its name. *)
Lemma providers_loop blocks providerKey sch providerKey' sch' :
  foldM providerBlock (providerKey, sch) blocks = Ok (providerKey', sch') →
  ∃ entries,
    Forall2 (λ b entry, providerEntry b = Ok entry)
      (providerBlocks blocks) entries
    ∧ providerKey' = foldl pickProviderKey providerKey entries.*1
    ∧ sch' = foldl (λ sch entry,
                      setProviderConfig entry.1 (providerConfigOf entry) sch)
               sch entries.
Proof.
  revert providerKey sch.
  induction blocks as [|block blocks IH]; intros providerKey sch.
  { simpl. intros [= <- <-]. exists []. by split; [constructor|]. }
  rewrite foldM_cons. intros ([pk1 sch1] & Hblock & Hblocks)%res_bind_Ok.
  destruct (IH _ _ Hblocks) as (entries & Hentries & -> & ->).
  unfold providerBlocks. rewrite filter_cons.
  destruct (decide (hcl.Type_ block = "provider")) as [Hkind|Hkind].
  - rewrite providerBlock_provider in Hblock by done.
    apply res_bind_Ok in Hblock as (entry & Hentry & [= <- <-]).
    exists (entry :: entries). by split; [constructor|].
  - rewrite providerBlock_other in Hblock by done.
    injection Hblock as <- <-. by exists entries.
Qed.

(** The default provider key after the provider pass is the first name
    that is not empty. *)
Lemma pickProviderKey_first names providerKey :
  foldl pickProviderKey providerKey names
  = if bool_decide (providerKey = "") then firstNonEmpty names else providerKey.
Proof.
  revert providerKey. unfold firstNonEmpty.
  induction names as [|name names IH]; intros providerKey; simpl.
  { by case_bool_decide. }
  rewrite IH, filter_cons. unfold pickProviderKey.
  destruct (decide (providerKey = "")) as [->|Hkey].
  - rewrite (bool_decide_eq_true_2 ("" = "")) by done.
    destruct (decide (name ≠ "")) as [Hname|Hname%dec_stable].
    + by rewrite bool_decide_eq_false_2.
    + by rewrite bool_decide_eq_true_2.
  - by rewrite !(bool_decide_eq_false_2 (providerKey = "")).
Qed.

(** The provider pass leaves all of the document but the provider
    configurations as it found it. *)
Lemma setProviderConfigs_spec sch (entries : list (string * string)) :
  let sch' := foldl (λ sch entry,
                       setProviderConfig entry.1 (providerConfigOf entry) sch)
                sch entries in
  providerConfigs sch' = recordProviders (providerConfigs sch) entries
  ∧ PlanSchema.ResourceChanges sch' = PlanSchema.ResourceChanges sch
  ∧ plannedResources sch' = plannedResources sch
  ∧ childModules sch' = childModules sch
  ∧ configResources sch' = configResources sch
  ∧ moduleCalls sch' = moduleCalls sch.
Proof.
  revert sch. induction entries as [|entry entries IH]; intros sch; [done|].
  simpl. destruct (IH (setProviderConfig entry.1 (providerConfigOf entry) sch))
    as (-> & -> & -> & -> & -> & ->). done.
Qed.

(** A provider-config entry is that of the last provider block of its name. *)
Lemma recordProviders_lookup cfg (entries : list (string * string)) name :
  recordProviders cfg entries !! name
  = match last (filter (λ entry, entry.1 = name) entries) with
    | Some entry => Some (providerConfigOf entry)
    | None => cfg !! name
    end.
Proof.
  unfold recordProviders. revert cfg.
  induction entries as [|entry entries IH] using rev_ind; intros cfg; [done|].
  rewrite foldl_app, filter_app, filter_cons, filter_nil. simpl.
  destruct (decide (entry.1 = name)) as [<-|Hne].
  - by rewrite last_snoc, lookup_insert_eq.
  - rewrite app_nil_r, lookup_insert_ne by done. apply IH.
Qed.

(** ** The plan assembler: the resource pass *)

Section assembler.

Context `{!CtyJson, !MapRange}.

Lemma resourceBlock_other providerKey sch block :
  hcl.Type_ block ≠ "resource" → resourceBlock providerKey sch block = Ok sch.
Proof. intros Hkind. unfold resourceBlock. by rewrite bool_decide_eq_false_2. Qed.

Lemma appendChildModuleResource_Ok r sch sch' :
  appendChildModuleResource r sch = Ok sch' →
  PlanSchema.ResourceChanges sch' = PlanSchema.ResourceChanges sch
  ∧ PlanSchema.Configuration sch' = PlanSchema.Configuration sch
  ∧ plannedResources sch' = plannedResources sch
  ∧ ∃ bucket rest,
      childModules sch = bucket :: rest
      ∧ childModules sch'
        = {| ChildModule.Resources := ChildModule.Resources bucket ++ [r] |}
          :: rest.
Proof.
  destruct sch as [? ? ? [[? buckets]] ? ?].
  unfold appendChildModuleResource, childModules. simpl.
  destruct buckets as [|bucket rest]; simpl; [done|].
  intros [= <-]. simpl. by eauto 10.
Qed.

(** What the second loop does with a resource block when it does not
    panic. *)
Lemma resourceBlock_Ok providerKey sch block sch' :
  hcl.Type_ block = "resource" →
  resourceBlock providerKey sch block = Ok sch' →
  ∃ v key,
    blockValues block = Ok v
    ∧ resourceProviderKey providerKey block = Ok key
    ∧ PlanSchema.ResourceChanges sch'
      = PlanSchema.ResourceChanges sch ++ [changeRecord block v]
    ∧ providerConfigs sch' = providerConfigs sch
    ∧ if hcl.HasModuleBlock block then
        plannedResources sch' = plannedResources sch
        ∧ configResources sch' = configResources sch
        ∧ moduleCalls sch'
          = <[hcl.ModuleName block :=
                extendModuleCall (moduleCalls sch !! hcl.ModuleName block)
                  block]> (moduleCalls sch)
        ∧ ∃ bucket rest,
            childModules sch = bucket :: rest
            ∧ childModules sch'
              = {| ChildModule.Resources :=
                     ChildModule.Resources bucket ++ [plannedRecord block v] |}
                :: rest
      else
        plannedResources sch' = plannedResources sch ++ [plannedRecord block v]
        ∧ configResources sch'
          = configResources sch ++ [rootDeclaration block key]
        ∧ moduleCalls sch' = moduleCalls sch
        ∧ childModules sch' = childModules sch.
Proof.
  intros Hkind. unfold resourceBlock. rewrite bool_decide_eq_true_2 by done.
  intros (v0 & Hv0 & (v & Hv & (key & Hkey & Hplace)%res_bind_Ok)%res_bind_Ok)
    %res_bind_Ok.
  apply res_bind_Ok in Hplace as (sch1 & Hplace & [= <-]).
  exists v, key. split; [|split; [done|]].
  { unfold blockValues. by rewrite Hv0. }
  destruct (hcl.HasModuleBlock block).
  - change (appendChildModuleResource (plannedRecord block v)
              (setModuleCall (hcl.ModuleName block)
                 (extendModuleCall (moduleCalls sch !! hcl.ModuleName block)
                    block) sch) = Ok sch1) in Hplace.
    apply appendChildModuleResource_Ok in Hplace
      as (Hchanges & Hconfig & Hplanned & bucket & rest & Hsch & Hsch1).
    split.
    { change (PlanSchema.ResourceChanges sch1 ++ [changeRecord block v]
              = PlanSchema.ResourceChanges sch ++ [changeRecord block v]).
      by rewrite Hchanges. }
    split.
    { change (Configuration.ProviderConfig (PlanSchema.Configuration sch1)
              = providerConfigs sch).
      by rewrite Hconfig. }
    split.
    { change (plannedResources sch1 = plannedResources sch).
      by rewrite Hplanned. }
    split.
    { change (ConfigRootModule.Resources
                (Configuration.RootModule (PlanSchema.Configuration sch1))
              = configResources sch).
      by rewrite Hconfig. }
    split.
    { change (ConfigRootModule.ModuleCalls
                (Configuration.RootModule (PlanSchema.Configuration sch1))
              = <[hcl.ModuleName block :=
                    extendModuleCall (moduleCalls sch !! hcl.ModuleName block)
                      block]> (moduleCalls sch)).
      by rewrite Hconfig. }
    exists bucket, rest. split; [exact Hsch|exact Hsch1].
  - by injection Hplace as <-.
Qed.

Lemma moduleCallOf_snoc name nested block :
  moduleCallOf name (nested ++ [block])
  = if decide (hcl.ModuleName block = name)
    then Some (extendModuleCall (moduleCallOf name nested) block)
    else moduleCallOf name nested.
Proof.
  unfold moduleCallOf. rewrite filter_app, filter_cons, filter_nil.
  destruct (decide (hcl.ModuleName block = name)) as [Hname|Hname].
  - destruct (filter _ nested) as [|first rest]; simpl; [done|].
    unfold extendModuleCall. simpl. by rewrite fmap_app.
  - by rewrite app_nil_r.
Qed.

(** The records of the blocks done so far stay in the document, and a
    resource block adds its own. *)
Lemma resourceBlock_assembled providerKey done sch block sch' :
  assembled done sch →
  resourceBlock providerKey sch block = Ok sch' →
  assembled (done ++ ((providerKey,.) <$> resourceBlocks [block])) sch'
  ∧ providerConfigs sch' = providerConfigs sch.
Proof.
  intros Hdone.
  pose proof Hdone
    as (Hchanges & Hplanned & (bucket & Hbucket & Hchild) & Hconfig & Hcalls).
  unfold resourceBlocks. rewrite filter_cons, filter_nil.
  destruct (decide (hcl.Type_ block = "resource")) as [Hkind|Hkind]; last first.
  { rewrite resourceBlock_other by done. intros [= <-]. simpl.
    by rewrite app_nil_r. }
  clear Hdone.
  intros (v & key & Hv & Hkey & Hchanges' & Hproviders & Hplace)
    %resourceBlock_Ok; [|done].
  split; [|done]. unfold assembled. simpl.
  rewrite !filter_app, !filter_cons, !filter_nil. simpl. rewrite Hchanges'.
  split; [apply Forall2_app; [done|]; constructor; [by exists v|constructor]|].
  destruct (hcl.HasModuleBlock block) eqn:Hnested.
  - destruct Hplace as (-> & -> & -> & bucket' & rest & Hsch & ->).
    rewrite Hbucket in Hsch. injection Hsch as <- <-.
    rewrite decide_False, decide_True, !app_nil_r by done.
    split; [done|]. split; [|split; [done|]].
    + eexists; split; [done|]. simpl.
      apply Forall2_app; [done|]. constructor; [by exists v|constructor].
    + intros name. rewrite fmap_app. simpl. rewrite moduleCallOf_snoc.
      destruct (decide (hcl.ModuleName block = name)) as [<-|Hname].
      * by rewrite lookup_insert_eq, Hcalls.
      * by rewrite lookup_insert_ne.
  - destruct Hplace as (-> & -> & -> & ->).
    rewrite decide_True, decide_False, !app_nil_r by done.
    split; [|split; [by exists bucket|split; [|done]]].
    + apply Forall2_app; [done|]. constructor; [by exists v|constructor].
    + apply Forall2_app; [done|]. constructor; [by exists key|constructor].
Qed.

(** The second loop over the blocks of a module. *)
Lemma resources_loop providerKey blocks done sch sch' :
  assembled done sch →
  foldM (resourceBlock providerKey) sch blocks = Ok sch' →
  assembled (done ++ ((providerKey,.) <$> resourceBlocks blocks)) sch'
  ∧ providerConfigs sch' = providerConfigs sch.
Proof.
  revert done sch. induction blocks as [|block blocks IH]; intros done sch Hdone.
  { simpl. intros [= <-]. by rewrite app_nil_r. }
  rewrite foldM_cons. intros (sch1 & Hblock & Hblocks)%res_bind_Ok.
  destruct (resourceBlock_assembled _ _ _ _ _ Hdone Hblock) as [Hdone1 Hcfg1].
  destruct (IH _ _ Hdone1 Hblocks) as [Hdone' Hcfg'].
  split; [|congruence].
  replace (resourceBlocks (block :: blocks))
    with (resourceBlocks [block] ++ resourceBlocks blocks)
    by (unfold resourceBlocks; by rewrite <-filter_app).
  by rewrite fmap_app, (assoc_L (++)).
Qed.

End assembler.

(** ** The plan assembler: all modules *)

Section assembled_document.

Context `{!CtyJson, !MapRange}.

Lemma assembled_observed done sch sch' :
  PlanSchema.ResourceChanges sch' = PlanSchema.ResourceChanges sch →
  plannedResources sch' = plannedResources sch →
  childModules sch' = childModules sch →
  configResources sch' = configResources sch →
  moduleCalls sch' = moduleCalls sch →
  assembled done sch → assembled done sch'.
Proof. unfold assembled. by intros -> -> -> -> ->. Qed.

Lemma assembled_initial : assembled [] initialSchema.
Proof.
  unfold assembled. repeat split; try by constructor.
  exists {| ChildModule.Resources := [] |}. by split; [|constructor].
Qed.

Lemma providerEntry_name block entry :
  providerEntry block = Ok entry → providerName block = Ok entry.1.
Proof.
  unfold providerEntry.
  by intros (name & ? & (region & ? & [= <-])%res_bind_Ok)%res_bind_Ok.
Qed.

Lemma keyedResources_cons module modules key keys :
  keyedResources (module :: modules) (key :: keys)
  = ((key,.) <$> resourceBlocks (hcl.Blocks module))
    ++ keyedResources modules keys.
Proof. done. Qed.

Lemma keyedResources_blocks modules keys :
  length modules = length keys →
  (keyedResources modules keys).*2 = resourceBlocks (allBlocks modules).
Proof.
  revert keys. induction modules as [|module modules IH]; intros [|key keys];
    try done.
  intros [= Hlen]. rewrite keyedResources_cons, fmap_app, IH by done.
  unfold allBlocks, resourceBlocks. simpl. rewrite filter_app. f_equal.
  rewrite <-list_fmap_compose. apply list_fmap_id.
Qed.

(** The loop over the modules. *)
Lemma modules_loop modules done sch sch' :
  assembled done sch →
  foldM (λ (sch : PlanSchema.t) (module : hcl.Module),
      '(providerKey, sch) ←!
        foldM providerBlock ("", sch) (hcl.Blocks module);
      foldM (resourceBlock providerKey) sch (hcl.Blocks module))
    sch modules = Ok sch' →
  ∃ keys entries,
    Forall2 isDefaultProviderKey modules keys
    ∧ Forall2 (λ b entry, providerEntry b = Ok entry)
        (providerBlocks (allBlocks modules)) entries
    ∧ providerConfigs sch' = recordProviders (providerConfigs sch) entries
    ∧ assembled (done ++ keyedResources modules keys) sch'.
Proof.
  revert done sch.
  induction modules as [|module modules IH]; intros done sch Hdone.
  { simpl. intros [= <-]. exists [], [].
    rewrite app_nil_r. by split; [apply Forall2_nil|split; [apply Forall2_nil|]]. }
  rewrite foldM_cons.
  intros (sch2 & ([key sch1] & Hproviders & Hresources)%res_bind_Ok & Hmodules)
    %res_bind_Ok.
  apply providers_loop in Hproviders as (entries1 & Hentries1 & -> & ->).
  destruct (setProviderConfigs_spec sch entries1)
    as (Hcfg1 & Hobs1 & Hobs2 & Hobs3 & Hobs4 & Hobs5).
  apply (assembled_observed _ _ _ Hobs1 Hobs2 Hobs3 Hobs4 Hobs5) in Hdone.
  destruct (resources_loop _ _ _ _ _ Hdone Hresources) as [Hdone2 Hcfg2].
  destruct (IH _ _ Hdone2 Hmodules) as (keys & entries & Hkeys & Hentries
    & Hcfg & Hdone').
  exists (foldl pickProviderKey "" entries1.*1 :: keys), (entries1 ++ entries).
  split; [|split; [|split]].
  - constructor; [|done]. exists entries1.*1. split.
    + apply Forall2_fmap_r. eapply Forall2_impl; [done|].
      intros b entry. apply providerEntry_name.
    + by rewrite pickProviderKey_first.
  - unfold allBlocks, providerBlocks. simpl. rewrite filter_app.
    by apply Forall2_app.
  - rewrite Hcfg, Hcfg2, Hcfg1. unfold recordProviders. by rewrite foldl_app.
  - by rewrite keyedResources_cons, (assoc_L (++)).
Qed.

(** The document that the assembler returns, in terms of its input. *)
Lemma modulesToPlanJSON_Ok modules sch :
  modulesToPlanJSON modules = Ok sch →
  ∃ keys entries,
    Forall2 isDefaultProviderKey modules keys
    ∧ Forall2 (λ b entry, providerEntry b = Ok entry)
        (providerBlocks (allBlocks modules)) entries
    ∧ providerConfigs sch = recordProviders ∅ entries
    ∧ assembled (keyedResources modules keys) sch.
Proof.
  intros Hsch. by apply (modules_loop _ [] _ _ assembled_initial) in Hsch.
Qed.

End assembled_document.

(** * The converter against its specification *)

(** ** Records of the resource blocks *)

Lemma filter_snd_fmap {A B} (P : B → Prop) `{!∀ x, Decision (P x)}
    (l : list (A * B)) :
  (filter (λ ab, P ab.2) l).*2 = filter P l.*2.
Proof.
  induction l as [|[a b] l IH]; [done|].
  rewrite fmap_cons, !filter_cons. simpl.
  destruct (decide (P b)); by rewrite ?fmap_cons, IH.
Qed.

Lemma root_nested_length (blocks : list hcl.Block) :
  length (rootBlocks blocks) + length (nestedBlocks blocks) = length blocks.
Proof.
  unfold rootBlocks, nestedBlocks.
  induction blocks as [|block blocks IH]; [done|]. rewrite !filter_cons.
  destruct (hcl.HasModuleBlock block); simpl; lia.
Qed.

Section document.

Context `{!CtyJson, !MapRange}.

(** The lists of the returned document, block by block: change records
    for the resource blocks, planned records at the root and in the one
    child-module bucket, declarations at the root and under the module
    calls. *)
Lemma modulesToPlanJSON_records modules sch :
  modulesToPlanJSON modules = Ok sch →
  let resources := resourceBlocks (allBlocks modules) in
  Forall2 hasChangeRecord resources (PlanSchema.ResourceChanges sch)
  ∧ Forall2 hasPlannedRecord (rootBlocks resources) (plannedResources sch)
  ∧ (∃ bucket, childModules sch = [bucket] ∧
       Forall2 hasPlannedRecord (nestedBlocks resources)
         (ChildModule.Resources bucket))
  ∧ Forall2 (λ b d, ∃ key, d = rootDeclaration b key)
      (rootBlocks resources) (configResources sch)
  ∧ ∀ name, moduleCalls sch !! name
            = moduleCallOf name (nestedBlocks resources).
Proof.
  intros (keys & entries & Hkeys & _ & _ & Hdone)%modulesToPlanJSON_Ok. simpl.
  destruct Hdone as (Hchanges & Hplanned & (bucket & Hbucket & Hchild)
    & Hconfig & Hcalls).
  rewrite <-(keyedResources_blocks modules keys)
    by (by eapply Forall2_length).
  unfold rootBlocks, nestedBlocks. rewrite <-!filter_snd_fmap.
  split; [by apply Forall2_fmap_l|]. split; [by apply Forall2_fmap_l|].
  split; [exists bucket; split; [done|by apply Forall2_fmap_l]|].
  split; [|done]. apply Forall2_fmap_l.
  eapply Forall2_impl; [exact Hconfig|]. intros pb d (key & _ & ->).
  by exists key.
Qed.

(** Claim C1.  When the assembler returns a document, its flat list of
    resource changes holds the change records of the resource blocks of all
    modules, one per block and in block order; the planned records of the
    blocks that are not nested in a module call make up the root-module list
    and those of the nested blocks the one child-module bucket.  So each
    resource block has exactly one planned record and one change record, and
    both counts equal the number of resource blocks. *)
Theorem resource_records_counted modules sch :
  modulesToPlanJSON modules = Ok sch →
  let resources := resourceBlocks (allBlocks modules) in
  ∃ bucket,
    childModules sch = [bucket]
    ∧ Forall2 hasChangeRecord resources (PlanSchema.ResourceChanges sch)
    ∧ Forall2 hasPlannedRecord (rootBlocks resources) (plannedResources sch)
    ∧ Forall2 hasPlannedRecord (nestedBlocks resources)
        (ChildModule.Resources bucket)
    ∧ length (plannedResources sch) + length (ChildModule.Resources bucket)
      = length resources
    ∧ length (PlanSchema.ResourceChanges sch) = length resources.
Proof.
  intros (Hchanges & Hplanned & (bucket & Hbucket & Hchild) & _)
    %modulesToPlanJSON_records. simpl.
  exists bucket. repeat split; try done.
  - rewrite <-(Forall2_length _ _ _ Hplanned), <-(Forall2_length _ _ _ Hchild).
    apply root_nested_length.
  - symmetry. by eapply Forall2_length.
Qed.

(** Claim C2, as the code has it.  The declarations of the resource blocks
    nested in a module call are kept under the module calls and nowhere
    else: the entry under a module name holds the declarations of the nested
    blocks that carry this name, in block order, with the source that the
    first of them declares; the root-level declarations and the root-level
    planned records are those of the blocks that are not nested, and the
    planned records of the nested blocks make up the one child-module
    bucket. *)
Theorem nested_resources_under_module_calls modules sch :
  modulesToPlanJSON modules = Ok sch →
  let resources := resourceBlocks (allBlocks modules) in
  (∀ name, moduleCalls sch !! name = moduleCallOf name (nestedBlocks resources))
  ∧ (∀ block, block ∈ nestedBlocks resources →
       ∃ modCall first,
         moduleCalls sch !! hcl.ModuleName block = Some modCall
         ∧ moduleDeclaration block
             ∈ ModuleCallModule.Resources (ModuleCall.Module_ modCall)
         ∧ head (filter (λ b, hcl.ModuleName b = hcl.ModuleName block)
                   (nestedBlocks resources)) = Some first
         ∧ ModuleCall.Source modCall = hcl.ModuleSource first)
  ∧ Forall2 (λ b d, ∃ key, d = rootDeclaration b key)
      (rootBlocks resources) (configResources sch)
  ∧ Forall2 hasPlannedRecord (rootBlocks resources) (plannedResources sch)
  ∧ ∃ bucket, childModules sch = [bucket] ∧
      Forall2 hasPlannedRecord (nestedBlocks resources)
        (ChildModule.Resources bucket).
Proof.
  intros (_ & Hplanned & Hchild & Hconfig & Hcalls)%modulesToPlanJSON_records.
  simpl. repeat split; try done.
  intros block Hblock. rewrite Hcalls. unfold moduleCallOf.
  assert (block ∈ filter (λ b, hcl.ModuleName b = hcl.ModuleName block)
                    (nestedBlocks (resourceBlocks (allBlocks modules))))
    as Hin by (by apply list_elem_of_filter).
  destruct (filter _ _) as [|first rest]; [by apply elem_of_nil in Hin|].
  eexists _, first. repeat split.
  by apply (list_elem_of_fmap_2 moduleDeclaration (first :: rest)).
Qed.

End document.

(** ** Provider keys *)

Lemma resourceProviderKey_default providerKey block key :
  lacksProviderString block →
  resourceProviderKey providerKey block = Ok key → key = providerKey.
Proof.
  unfold lacksProviderString, resourceProviderKey.
  destruct (hcl.GetAttribute block "provider") as [providerAttr|].
  - intros Hty. rewrite bool_decide_eq_false_2 by done. by intros [= <-].
  - by intros _ [= <-].
Qed.

(** Claim C4, as the code has it.  Each module has a default provider key,
    the first effective name that is not empty among its provider blocks in
    block order (the alias if the block has one, else the type label); a
    root-level resource of the module whose own [provider] attribute is
    absent or not of type string is declared with this default as its
    provider-config key; and the provider configurations map each name to
    the entry of the last provider block of that name. *)
Theorem default_provider_key `{!CtyJson, !MapRange} modules sch :
  modulesToPlanJSON modules = Ok sch →
  ∃ keys entries,
    Forall2 isDefaultProviderKey modules keys
    ∧ Forall2 (λ pb d,
        ∃ key, resourceProviderKey pb.1 pb.2 = Ok key
               ∧ d = rootDeclaration pb.2 key
               ∧ (lacksProviderString pb.2 →
                  ResourceData.ProviderConfigKey d = pb.1))
        (filter (λ pb, hcl.HasModuleBlock pb.2 = false)
           (keyedResources modules keys))
        (configResources sch)
    ∧ Forall2 (λ b entry, providerEntry b = Ok entry)
        (providerBlocks (allBlocks modules)) entries
    ∧ ∀ name, providerConfigs sch !! name
              = providerConfigOf
                  <$> last (filter (λ entry, entry.1 = name) entries).
Proof.
  intros (keys & entries & Hkeys & Hentries & Hcfg & Hdone)
    %modulesToPlanJSON_Ok.
  exists keys, entries. split; [done|]. split; [|split; [done|]].
  - destruct Hdone as (_ & _ & _ & Hconfig & _).
    eapply Forall2_impl; [exact Hconfig|]. intros pb d (key & Hkey & ->).
    exists key. repeat split; [done|]. intros Hlacks. simpl.
    by eapply resourceProviderKey_default.
  - intros name. rewrite Hcfg, recordProviders_lookup.
    by destruct (last _).
Qed.

(** ** The [count] attribute *)

Section count.

Context `{!CtyJson}.

(** The [count] entry of the value snapshot of a resource or module block,
    if there is one, lists the value maps of child blocks of kind
    [count]. *)
Lemma blockValues_count block vals :
  hcl.Type_ block = "resource" ∨ hcl.Type_ block = "module" →
  blockValues block = Ok vals →
  jsonLookup vals "count" = None
  ∨ (∃ elems, jsonLookup vals "count" = Some (JArr elems))
    ∧ "count" ∈ hcl.Type_ <$> hcl.Children block.
Proof.
  intros Hkind (vals0 & Hvals0 & Hvals)%res_bind_Ok.
  pose proof (marshalAttributeValues_count _ _ _ Hkind Hvals0) as Hcount.
  destruct vals0 as [m|].
  - destruct (marshalBlock_lookup _ _ _ "count" Hvals) as (m' & -> & Hm').
    simpl in *. destruct Hm' as [->|Hm']; [by left|by right].
  - destruct (decide (hcl.Children block = [])) as [Hleaf|Hchildren].
    + rewrite marshalBlock_leaf in Hvals by done. injection Hvals as <-.
      by left.
    + destruct (marshalBlock_nil_map _ Hchildren) as [p Hp]. congruence.
Qed.

Lemma blockValues_no_count_attribute block vals :
  hcl.Type_ block = "resource" ∨ hcl.Type_ block = "module" →
  blockValues block = Ok vals → ¬ isRaw (jsonLookup vals "count").
Proof.
  intros Hkind Hvals.
  destruct (blockValues_count _ _ Hkind Hvals) as [->|[[elems ->] _]];
    by intros [].
Qed.

End count.

(** Claim C5.  The map that the attribute marshaller returns for a block of
    kind [resource] or [module] has no key [count], whatever the input
    attribute set; and in a document that the assembler returns no value
    snapshot, neither that of a planned resource nor the [after] of a
    resource change, holds an attribute value under [count] (the only
    entries that the block marshaller adds are lists of child blocks). *)
Theorem count_attribute_not_marshalled `{!CtyJson, !MapRange} :
  (∀ blockType value vals,
     blockType = "resource" ∨ blockType = "module" →
     marshalAttributeValues blockType value = Ok vals →
     jsonLookup vals "count" = None)
  ∧ (∀ block vals,
       hcl.Type_ block = "resource" ∨ hcl.Type_ block = "module" →
       blockValues block = Ok vals →
       ¬ isRaw (jsonLookup vals "count"))
  ∧ (∀ modules sch,
       modulesToPlanJSON modules = Ok sch →
       (∀ r, r ∈ plannedResources sch
                 ++ (childModules sch ≫= ChildModule.Resources) →
             ¬ isRaw (jsonLookup (ResourceJSON.Values r) "count"))
       ∧ (∀ c, c ∈ PlanSchema.ResourceChanges sch →
               ¬ isRaw (jsonLookup
                          (ResourceChange.After (ResourceChangesJSON.Change c))
                          "count"))).
Proof.
  split; [apply marshalAttributeValues_count|].
  split; [apply blockValues_no_count_attribute|].
  intros modules sch (Hchanges & Hplanned & (bucket & Hbucket & Hchild) & _)
    %modulesToPlanJSON_records. simpl in *.
  assert (∀ block, block ∈ resourceBlocks (allBlocks modules) →
            hcl.Type_ block = "resource" ∨ hcl.Type_ block = "module")
    as Hkind.
  { intros block [Hkind _]%list_elem_of_filter. by left. }
  assert (∀ (blocks : list hcl.Block) rs r,
            (∀ block, block ∈ blocks → block ∈ resourceBlocks (allBlocks modules)) →
            Forall2 hasPlannedRecord blocks rs → r ∈ rs →
            ¬ isRaw (jsonLookup (ResourceJSON.Values r) "count")) as Hrecord.
  { intros blocks rs r Hblocks Hrs (i & Hi)%list_elem_of_lookup.
    destruct (Forall2_lookup_r _ _ _ _ _ Hrs Hi)
      as (block & Hblock & v & Hv & ->).
    simpl. eapply blockValues_no_count_attribute; [|done].
    apply Hkind, Hblocks. by eapply list_elem_of_lookup_2. }
  split.
  - intros r. rewrite Hbucket. simpl. rewrite app_nil_r.
    intros [Hr|Hr]%elem_of_app.
    + eapply Hrecord; [|exact Hplanned|done].
      by intros block [_ ?]%list_elem_of_filter.
    + eapply Hrecord; [|exact Hchild|done].
      by intros block [_ ?]%list_elem_of_filter.
  - intros c (i & Hi)%list_elem_of_lookup.
    destruct (Forall2_lookup_r _ _ _ _ _ Hchanges Hi)
      as (block & Hblock & v & Hv & ->).
    simpl. eapply blockValues_no_count_attribute; [|done].
    apply Hkind. by eapply list_elem_of_lookup_2.
Qed.

(** ** Loading the plan JSON *)

(** An error returned after a successful parse is that of [json.Marshal]
    on the assembled document, wrapped with the prefix. *)
Lemma loadPlanJSON_error `{!CtyJson, !EncodingJson, !MapRange, !HclParser}
    (p : Parser) modules bytes err :
  ParseDirectory p = (modules, None) →
  loadPlanJSON p = Ok (bytes, Some err) →
  ∃ sch inner,
    modulesToPlanJSON modules = Ok sch
    ∧ (jsonMarshal sch).2 = Some inner
    ∧ err = WrapError "error handling built plan json from hcl " inner.
Proof.
  unfold loadPlanJSON. intros ->.
  intros (sch & Hsch & Hreturn)%res_bind_Ok. exists sch.
  destruct (jsonMarshal sch) as [b [inner|]]; [|done].
  injection Hreturn as <- <-. by exists inner.
Qed.

(** ** Determinism *)

Lemma resourceBlock_order `{!CtyJson} (order1 order2 : MapRange) :
  @MapRangeSpec order1 → @MapRangeSpec order2 →
  ∀ providerKey sch block,
    @resourceBlock _ order1 providerKey sch block
    = @resourceBlock _ order2 providerKey sch block.
Proof.
  intros Horder1 Horder2 providerKey sch block. unfold resourceBlock.
  by rewrite (blockToReferences_order order1 order2).
Qed.

Lemma modulesToPlanJSON_order `{!CtyJson} (order1 order2 : MapRange) :
  @MapRangeSpec order1 → @MapRangeSpec order2 →
  ∀ modules,
    @modulesToPlanJSON _ order1 modules = @modulesToPlanJSON _ order2 modules.
Proof.
  intros Horder1 Horder2 modules. unfold modulesToPlanJSON.
  apply foldM_ext. intros sch module _.
  destruct (foldM providerBlock ("", sch) (hcl.Blocks module))
    as [[providerKey sch1]|panic]; simpl; [|done].
  apply foldM_ext. intros sch2 block _. by apply resourceBlock_order.
Qed.

(** Claim C7.  The conversion is a function of the module tree: whatever
    the order in which the range statements of two runs visit the map of
    child expressions, the assembler returns the same document (or the same
    panic), and [loadPlanJSON] the same bytes and error. *)
Theorem conversion_deterministic `{!CtyJson, !EncodingJson, !HclParser}
    (order1 order2 : MapRange) :
  @MapRangeSpec order1 → @MapRangeSpec order2 →
  (∀ modules,
     @modulesToPlanJSON _ order1 modules = @modulesToPlanJSON _ order2 modules)
  ∧ (∀ p : Parser,
       @loadPlanJSON _ _ order1 _ p = @loadPlanJSON _ _ order2 _ p).
Proof.
  intros Horder1 Horder2. split; [by apply modulesToPlanJSON_order|].
  intros p. unfold loadPlanJSON.
  destruct (ParseDirectory p) as [modules [parseError|]]; [done|].
  by rewrite (modulesToPlanJSON_order order1 order2).
Qed.

(** ** Errors of the attribute encoder *)

Lemma marshalAttributeValues_bytes (encoder1 encoder2 : CtyJson) :
  (∀ v, (encoder1 v).1 = (encoder2 v).1) →
  ∀ blockType value,
    @marshalAttributeValues encoder1 blockType value
    = @marshalAttributeValues encoder2 blockType value.
Proof.
  intros Hbytes blockType value. unfold marshalAttributeValues.
  destruct (_ || _); [done|].
  destruct (cty.ElementIterator value) as [it|panic]; simpl; [|done].
  f_equal. apply foldM_ext. intros ret [k v] _. unfold ctyJsonMarshal.
  specialize (Hbytes v).
  destruct (encoder1 v) as [vJSON1 e1], (encoder2 v) as [vJSON2 e2].
  simpl in Hbytes. by subst.
Qed.

Lemma marshalBlock_bytes (encoder1 encoder2 : CtyJson) :
  (∀ v, (encoder1 v).1 = (encoder2 v).1) →
  ∀ block jsonValues,
    @marshalBlock encoder1 block jsonValues
    = @marshalBlock encoder2 block jsonValues.
Proof.
  intros Hbytes block.
  induction block as [block IH] using Block_induction. intros jsonValues.
  rewrite !marshalBlock_unfold. apply foldM_ext. intros jv b Hb.
  unfold marshalChild. rewrite (marshalAttributeValues_bytes _ _ Hbytes).
  rewrite Forall_forall in IH.
  destruct (marshalAttributeValues _ _) as [childValues|panic]; simpl; [|done].
  case_bool_decide; [|done]. by rewrite IH.
Qed.

Lemma modulesToPlanJSON_bytes `{!MapRange} (encoder1 encoder2 : CtyJson) :
  (∀ v, (encoder1 v).1 = (encoder2 v).1) →
  ∀ modules,
    @modulesToPlanJSON encoder1 _ modules = @modulesToPlanJSON encoder2 _ modules.
Proof.
  intros Hbytes modules. unfold modulesToPlanJSON.
  apply foldM_ext. intros sch module _.
  destruct (foldM providerBlock ("", sch) (hcl.Blocks module))
    as [[providerKey sch1]|panic]; simpl; [|done].
  apply foldM_ext. intros sch2 block _. unfold resourceBlock.
  case_bool_decide; [|done].
  rewrite (marshalAttributeValues_bytes _ _ Hbytes).
  destruct (marshalAttributeValues _ _) as [jsonValues|panic]; simpl; [|done].
  by rewrite (marshalBlock_bytes _ _ Hbytes).
Qed.

Lemma marshalAttributeValues_recorded `{!CtyJson} blockType kvs kv :
  last (filter (λ kv', kv'.1 = kv.1) kvs) = Some kv →
  skipped blockType kv.1 = false →
  ∃ m, marshalAttributeValues blockType (cty.ObjectVal kvs) = Ok (Some m)
       ∧ m !! kv.1 = Some (JRaw (ctyJsonMarshal kv.2).1).
Proof.
  intros Hlast Hskip. eexists. split; [apply marshalAttributeValues_object|].
  by rewrite recordAttribute_lookup, Hskip, Hlast.
Qed.

(** Claim C9.  The error of encoding an attribute value is dropped: the
    attribute marshaller and the whole assembler return the same for two
    encoders that yield the same bytes, whatever errors they report; an
    attribute of an object that is not skipped is recorded with the bytes
    that came with the error; and an error that [loadPlanJSON] returns after
    a successful parse is that of [json.Marshal] on the assembled
    document. *)
Theorem encoding_errors_discarded :
  (∀ (encoder1 encoder2 : CtyJson) (order : MapRange),
     (∀ v, (encoder1 v).1 = (encoder2 v).1) →
     (∀ blockType value,
        @marshalAttributeValues encoder1 blockType value
        = @marshalAttributeValues encoder2 blockType value)
     ∧ (∀ modules,
          @modulesToPlanJSON encoder1 order modules
          = @modulesToPlanJSON encoder2 order modules))
  ∧ (∀ (encoder : CtyJson) blockType kvs kv,
       last (filter (λ kv', kv'.1 = kv.1) kvs) = Some kv →
       skipped blockType kv.1 = false →
       ∃ m, marshalAttributeValues blockType (cty.ObjectVal kvs) = Ok (Some m)
            ∧ m !! kv.1 = Some (JRaw (ctyJsonMarshal kv.2).1))
  ∧ (∀ (encoder : CtyJson) (json : EncodingJson) (order : MapRange)
       (parser : HclParser) (p : Parser) modules bytes err,
       ParseDirectory p = (modules, None) →
       loadPlanJSON p = Ok (bytes, Some err) →
       ∃ sch inner,
         modulesToPlanJSON modules = Ok sch
         ∧ (jsonMarshal sch).2 = Some inner
         ∧ err = WrapError "error handling built plan json from hcl " inner).
Proof.
  split; [|split].
  - intros encoder1 encoder2 order Hbytes.
    split; [by apply marshalAttributeValues_bytes|].
    by apply modulesToPlanJSON_bytes.
  - intros encoder. apply marshalAttributeValues_recorded.
  - intros encoder json order parser p modules bytes err.
    apply loadPlanJSON_error.
Qed.

(** ** Panics *)

(** A loop with an iteration that panics from every state panics, there or
    before. *)
Lemma foldM_panics {S B} (body : S → B → res S) (l : list B) (x : B) :
  x ∈ l → (∀ s, ∃ p, body s x = Panic p) →
  ∀ s, ∃ p, foldM body s l = Panic p.
Proof.
  intros Hx Hbody. induction l as [|y l IH]; intros s.
  { by apply elem_of_nil in Hx. }
  rewrite foldM_cons. apply elem_of_cons in Hx as [<-|Hx].
  - destruct (Hbody s) as [p ->]. by exists p.
  - destruct (body s y) as [s'|p]; simpl; [by apply IH|by exists p].
Qed.

(** The assembler panics when the loop over the blocks of one of the
    modules does. *)
Lemma modulesToPlanJSON_panics `{!CtyJson, !MapRange} modules module :
  module ∈ modules →
  (∀ sch,
     (∃ p, foldM providerBlock ("", sch) (hcl.Blocks module) = Panic p)
     ∨ ∀ providerKey sch',
         ∃ p, foldM (resourceBlock providerKey) sch' (hcl.Blocks module)
              = Panic p) →
  ∃ p, modulesToPlanJSON modules = Panic p.
Proof.
  intros Hmodule Hpanics. unfold modulesToPlanJSON.
  eapply foldM_panics; [exact Hmodule|]. intros sch.
  destruct (Hpanics sch) as [[p ->]|Hresources]; [by exists p|].
  destruct (foldM providerBlock _ _) as [[providerKey sch']|p]; simpl;
    [apply Hresources|by exists p].
Qed.

(** The region of a provider block: empty when the attribute is missing or
    evaluates to the zero value, the string when it is one, and a panic on
    every other value. *)
Lemma providerRegion_cases block :
  providerRegion block
  = match hcl.Value (hcl.GetAttribute block "region") with
    | cty.NilVal => Ok ""
    | cty.StringVal region => Ok region
    | _ => Panic PanicNotAString
    end.
Proof.
  unfold providerRegion. by destruct (hcl.Value _).
Qed.

Lemma providerRegion_missing block :
  hcl.GetAttribute block "region" = None → providerRegion block = Ok "".
Proof. intros Hregion. by rewrite providerRegion_cases, Hregion. Qed.

(** A provider block whose region is neither missing nor a string makes the
    whole conversion panic. *)
Lemma provider_region_panics `{!CtyJson, !MapRange} modules module block p :
  module ∈ modules → block ∈ hcl.Blocks module →
  hcl.Type_ block = "provider" →
  providerRegion block = Panic p →
  ∃ p', modulesToPlanJSON modules = Panic p'.
Proof.
  intros Hmodule Hblock Hkind Hregion.
  eapply modulesToPlanJSON_panics; [exact Hmodule|]. intros sch. left.
  eapply foldM_panics; [exact Hblock|]. intros [providerKey sch'].
  rewrite providerBlock_provider by done. unfold providerEntry.
  rewrite Hregion. destruct (providerName block) as [name|p']; simpl; eauto.
Qed.

(** A resource block whose value container is the zero value or null and
    which has a child block makes the whole conversion panic: the block
    marshaller writes the kind of the child into the nil map. *)
Lemma resource_without_values_panics `{!CtyJson, !MapRange}
    modules module block :
  module ∈ modules → block ∈ hcl.Blocks module →
  hcl.Type_ block = "resource" →
  cty.isNilVal (hcl.Values block) || cty.IsNull (hcl.Values block) = true →
  hcl.Children block ≠ [] →
  ∃ p, modulesToPlanJSON modules = Panic p.
Proof.
  intros Hmodule Hblock Hkind Hnil Hchildren.
  eapply modulesToPlanJSON_panics; [exact Hmodule|]. intros sch. right.
  intros providerKey sch'. eapply foldM_panics; [exact Hblock|]. intros sch''.
  unfold resourceBlock. rewrite bool_decide_eq_true_2 by done.
  rewrite marshalAttributeValues_absent by done. simpl.
  destruct (marshalBlock_nil_map _ Hchildren) as [p ->]. by exists p.
Qed.

(** ** References of blocks with attributes *)

Section references.

Context `{!MapRange, !MapRangeSpec}.

Lemma union_insert_union (m1 m2 : gmap string expr) key value :
  m1 ∪ <[key := value]> (m1 ∪ m2) = m1 ∪ <[key := value]> m2.
Proof.
  apply map_eq. intros k. rewrite !lookup_union.
  destruct (decide (key = k)) as [->|Hne].
  - by rewrite !lookup_insert_eq.
  - rewrite !lookup_insert_ne, lookup_union by done.
    by destruct (m1 !! k), (m2 !! k).
Qed.

(** For a block with at least one attribute, the extracted map is the map
    of the child expressions, completed by the references of the attributes
    whose name is not the kind of a child that contributed. *)
Lemma blockToReferences_with_attributes block :
  hcl.GetAttributes block ≠ [] →
  blockToReferences block
  = (EList <$> childExpressionsOf (hcl.Children block))
    ∪ foldl (λ (expressionValues : gmap string expr) attribute,
         if bool_decide (0 < length (hcl.AllReferences attribute))
         then <[hcl.Name attribute :=
                  ERefs (hcl.String <$> hcl.AllReferences attribute)]>
                expressionValues
         else expressionValues) ∅ (hcl.GetAttributes block).
Proof.
  rewrite blockToReferences_unfold.
  generalize (hcl.GetAttributes block) as attributes.
  induction attributes as [|attribute attributes IH] using rev_ind; [done|].
  intros _. rewrite !foldl_app. simpl. rewrite attributeReferences_range.
  destruct attributes as [|attribute' attributes']; [done|].
  rewrite IH by done. case_bool_decide.
  - apply union_insert_union.
  - by rewrite (assoc_L (∪)), (idemp_L (∪)).
Qed.

End references.

(** ** Inputs that the converter accepts *)

(** A loop returns when every iteration returns from the states that an
    invariant describes and keeps the invariant. *)
Lemma foldM_returns {S B} (I : S → Prop) (body : S → B → res S) l s :
  I s →
  (∀ s x, x ∈ l → I s → ∃ s', body s x = Ok s' ∧ I s') →
  ∃ s', foldM body s l = Ok s' ∧ I s'.
Proof.
  revert s. induction l as [|x l IH]; intros s Hs Hbody; [by exists s|].
  destruct (Hbody s x) as (s1 & Hx & Hs1); [by left|done|].
  rewrite foldM_cons, Hx. simpl. apply IH; [done|].
  intros s2 y Hy. apply Hbody. by right.
Qed.

Lemma marshallable_unfold block :
  marshallable block
  = valuesMarshallable (hcl.Type_ block) (hcl.Values block)
      (hcl.Type_ <$> hcl.Children block)
    && forallb marshallable (hcl.Children block).
Proof. by destruct block. Qed.

Section accepted.

Context `{!CtyJson, !MapRange}.

(** A marshallable value container yields a map, a proper one if there are
    children, in which no kind of a child is taken by an attribute. *)
Lemma marshalAttributeValues_returns blockType value childKinds :
  valuesMarshallable blockType value childKinds →
  ∃ vals,
    marshalAttributeValues blockType value = Ok vals
    ∧ (childKinds = [] ∨ ∃ m, vals = Some m)
    ∧ ∀ kind, kind ∈ childKinds → ¬ isRaw (jsonLookup vals kind).
Proof.
  assert (∀ kvs,
    forallb (λ kind, negb (bool_decide (kind ∈ kvs.*1))
                     || skipped blockType kind) childKinds →
    ∃ vals,
      marshalAttributeValues blockType (cty.ObjectVal kvs) = Ok vals
      ∧ (childKinds = [] ∨ ∃ m, vals = Some m)
      ∧ ∀ kind, kind ∈ childKinds → ¬ isRaw (jsonLookup vals kind)) as Hobject.
  { intros kvs Hkinds%forallb_True. rewrite Forall_forall in Hkinds.
    eexists. split; [apply marshalAttributeValues_object|].
    split; [by eauto|]. intros kind Hkind%Hkinds. simpl.
    rewrite recordAttribute_lookup.
    apply orb_True in Hkind as [Hfresh%negb_True|Hskip%Is_true_true].
    - destruct (skipped blockType kind);
        [rewrite lookup_empty; by intros []|].
      destruct (last _) as [kv|] eqn:Hlast;
        [|rewrite lookup_empty; by intros []].
      apply last_Some_elem_of, list_elem_of_filter in Hlast as [<- Hkv].
      contradict Hfresh. apply bool_decide_pack.
      by apply (list_elem_of_fmap_2 fst).
    - rewrite Hskip, lookup_empty. by intros []. }
  destruct value; simpl; try done.
  - intros ->%bool_decide_unpack. exists None.
    split; [done|]. split; [by left|]. by intros kind ?%elem_of_nil.
  - intros ->%bool_decide_unpack. exists None.
    split; [done|]. split; [by left|]. by intros kind ?%elem_of_nil.
  - apply Hobject.
  - rewrite marshalAttributeValues_map. apply Hobject.
Qed.

(** The value snapshot of a marshallable block exists. *)
Lemma blockValues_returns block :
  marshallable block → ∃ vals, blockValues block = Ok vals.
Proof.
  induction block as [block IH] using Block_induction.
  rewrite marshallable_unfold.
  intros [Hvalues Hchildren%forallb_True]%andb_True.
  destruct (marshalAttributeValues_returns _ _ _ Hvalues)
    as (vals0 & Hvals0 & Hproper & Hfree).
  unfold blockValues. rewrite Hvals0. simpl. rewrite marshalBlock_unfold.
  destruct Hproper as [Hleaf%fmap_nil_inv|[m ->]].
  { rewrite Hleaf. by exists vals0. }
  destruct (foldM_returns
    (λ jsonValues, ∃ m, jsonValues = Some m ∧
       ∀ kind, kind ∈ hcl.Type_ <$> hcl.Children block → ¬ isRaw (m !! kind))
    marshalChild (hcl.Children block) (Some m)) as (vals & Hvals & _);
    [by exists m| |by exists vals].
  intros jsonValues b Hb (m1 & -> & Hm1). unfold marshalChild.
  rewrite Forall_forall in IH, Hchildren.
  destruct (IH b Hb (Hchildren b Hb))
    as (childValues & (childValues0 & -> & HchildValues)%res_bind_Ok).
  simpl.
  assert ((if bool_decide (0 < length (hcl.Children b))
           then marshalBlock b childValues0 else Ok childValues0)
          = Ok childValues) as ->.
  { case_bool_decide as Hlen; [done|]. rewrite <-HchildValues.
    symmetry. apply marshalBlock_leaf.
    destruct (hcl.Children b); [done|simpl in Hlen; lia]. }
  simpl.
  assert (∀ elems, ∃ s',
    Ok (Some (<[hcl.Type_ b := JArr elems]> m1)) = Ok s' ∧
    ∃ m', s' = Some m' ∧
      ∀ kind, kind ∈ hcl.Type_ <$> hcl.Children block → ¬ isRaw (m' !! kind))
    as Hinsert.
  { intros elems. eexists. split; [done|]. eexists. split; [done|].
    intros kind Hkind. destruct (decide (hcl.Type_ b = kind)) as [<-|Hne].
    - rewrite lookup_insert_eq. by intros [].
    - rewrite lookup_insert_ne by done. by apply Hm1. }
  pose proof (Hm1 (hcl.Type_ b) (list_elem_of_fmap_2 _ _ _ Hb)) as Hraw.
  destruct (m1 !! hcl.Type_ b) as [[raw|elems]|]; [by destruct Hraw|..];
    apply Hinsert.
Qed.

Lemma providerBlock_returns st block :
  convertible block →
  ∃ st', providerBlock st block = Ok st'
         ∧ childModules st'.2 = childModules st.2.
Proof.
  intros [Hprovider _]%andb_True. destruct st as [providerKey sch].
  destruct (decide (hcl.Type_ block = "provider")) as [Hkind|Hkind];
    [|rewrite providerBlock_other by done; by eexists].
  rewrite bool_decide_eq_true_2 in Hprovider by done.
  apply andb_True in Hprovider as [Halias Hregion].
  rewrite providerBlock_provider by done.
  assert (∃ entry, providerEntry block = Ok entry) as [entry ->];
    [|by eexists].
  unfold providerEntry, providerName. rewrite providerRegion_cases.
  assert (∃ name, match hcl.GetAttribute block "alias" with
                  | Some a => cty.AsString (hcl.Value (Some a))
                  | None => Ok (hcl.TypeLabel block)
                  end = Ok name) as [name ->].
  { destruct (hcl.GetAttribute block "alias") as [a|]; [|by eexists].
    simpl. destruct (hcl.AttrValue a); try done. by eexists. }
  simpl. destruct (hcl.Value (hcl.GetAttribute block "region"));
    try done; by eexists.
Qed.

Lemma resourceBlock_returns providerKey sch block :
  convertible block → childModules sch ≠ [] →
  ∃ sch', resourceBlock providerKey sch block = Ok sch'
          ∧ childModules sch' ≠ [].
Proof.
  intros [_ Hresource]%andb_True Hbucket.
  destruct (decide (hcl.Type_ block = "resource")) as [Hkind|Hkind];
    [|rewrite resourceBlock_other by done; by eexists].
  rewrite bool_decide_eq_true_2 in Hresource by done.
  apply andb_True in Hresource as [Hmarshal Hprovider].
  destruct (blockValues_returns _ Hmarshal)
    as (vals & (vals0 & Hvals0 & Hvals)%res_bind_Ok).
  unfold resourceBlock. rewrite bool_decide_eq_true_2 by done.
  rewrite Hvals0. simpl. rewrite Hvals. simpl.
  assert (∃ key, resourceProviderKey providerKey block = Ok key)
    as [key Hkey].
  { unfold resourceProviderKey.
    destruct (hcl.GetAttribute block "provider") as [providerAttr|];
      [|by eexists].
    simpl. case_bool_decide; [|by eexists].
    simpl in Hprovider. destruct (hcl.AttrValue providerAttr); try done.
    by eexists. }
  unfold resourceProviderKey in Hkey. simpl in Hkey. rewrite Hkey.
  simpl. destruct (hcl.HasModuleBlock block).
  - unfold appendChildModuleResource, childModules in *.
    destruct sch as [? ? ? [[? buckets]] ? ?]. simpl in *.
    destruct buckets as [|bucket rest]; [done|]. simpl. by eexists.
  - simpl. by eexists.
Qed.

(** Property X9.
    The assembler returns a document for every input whose blocks are
    convertible. *)
Lemma modulesToPlanJSON_returns modules :
  Forall (λ module, Forall (λ b, convertible b) (hcl.Blocks module)) modules →
  ∃ sch, modulesToPlanJSON modules = Ok sch.
Proof.
  intros Hmodules. rewrite Forall_forall in Hmodules.
  destruct (foldM_returns (λ sch, childModules sch ≠ [])
    (λ (sch : PlanSchema.t) (module : hcl.Module),
       '(providerKey, sch) ←!
         foldM providerBlock ("", sch) (hcl.Blocks module);
       foldM (resourceBlock providerKey) sch (hcl.Blocks module))
    modules initialSchema) as (sch & Hsch & _); [done| |by exists sch].
  intros sch module Hblocks%Hmodules Hbucket. rewrite Forall_forall in Hblocks.
  destruct (foldM_returns (λ st, childModules st.2 ≠ []) providerBlock
              (hcl.Blocks module) ("", sch))
    as ([providerKey sch1] & -> & Hbucket1); [done| |].
  { intros st block Hblock%Hblocks Hst.
    destruct (providerBlock_returns st _ Hblock) as (st' & Hst' & Heq).
    exists st'. split; [done|]. by rewrite Heq. }
  simpl. apply foldM_returns; [done|].
  intros sch2 block Hblock%Hblocks Hsch2. by apply resourceBlock_returns.
Qed.

End accepted.

(** * The converter on the sample inputs *)

(** Both sample orders visit every entry once. *)
Lemma sampleOrder_spec : @MapRangeSpec sampleOrder.
Proof. by intros m. Qed.

Lemma reverseOrder_spec : @MapRangeSpec reverseOrder.
Proof. intros m. apply reverse_Permutation. Qed.

(** The scenario of the specification: the provider block records its
    region, the resource at the root takes the provider as its key and the
    subnet of the module call is declared under the call. *)
Example sampleModules_document :
  ∃ sch,
    @modulesToPlanJSON sampleEncoder sampleOrder sampleModules = Ok sch
    ∧ providerConfigs sch !! "aws"
      = Some (providerConfigOf ("aws", "us-east-1"))
    ∧ (ResourceData.ProviderConfigKey <$> configResources sch) = ["aws"]
    ∧ ((λ c, ResourceChange.Actions (ResourceChangesJSON.Change c))
         <$> PlanSchema.ResourceChanges sch) = [["create"]; ["create"]]
    ∧ (ModuleCall.Source <$> (moduleCalls sch !! "net"))
      = Some "./modules/net"
    ∧ (ResourceJSON.Address <$> plannedResources sch) = ["aws_instance.web"]
    ∧ (ResourceJSON.Address
         <$> (childModules sch ≫= ChildModule.Resources))
      = ["module.net.aws_subnet.main"].
Proof. eexists. split; [vm_compute; reflexivity|]. by vm_compute. Qed.

(** The sample input is convertible; the provider block with the numeric
    region and the resource block without values are not. *)
Example sample_blocks_convertible :
  forallb (λ module, forallb convertible (hcl.Blocks module)) sampleModules
  = true
  ∧ convertible numericRegionProvider = false
  ∧ convertible valuelessInstance = false.
Proof. by vm_compute. Qed.

(** The records of the sample modules: one resource at the root, one in the
    module call. *)
Lemma resource_records_counted_witness :
  ∃ sch,
    @modulesToPlanJSON sampleEncoder sampleOrder sampleModules = Ok sch
    ∧ ∃ bucket,
        childModules sch = [bucket]
        ∧ Forall2 (@hasChangeRecord sampleEncoder)
            (resourceBlocks (allBlocks sampleModules))
            (PlanSchema.ResourceChanges sch)
        ∧ Forall2 (@hasPlannedRecord sampleEncoder)
            (rootBlocks (resourceBlocks (allBlocks sampleModules)))
            (plannedResources sch)
        ∧ Forall2 (@hasPlannedRecord sampleEncoder)
            (nestedBlocks (resourceBlocks (allBlocks sampleModules)))
            (ChildModule.Resources bucket)
        ∧ length (plannedResources sch) + length (ChildModule.Resources bucket)
          = length (resourceBlocks (allBlocks sampleModules))
        ∧ length (PlanSchema.ResourceChanges sch)
          = length (resourceBlocks (allBlocks sampleModules)).
Proof.
  eexists. split; [vm_compute; reflexivity|].
  apply (@resource_records_counted sampleEncoder sampleOrder sampleModules).
  vm_compute; reflexivity.
Defined.

(** The module call of the sample modules. *)
Lemma nested_resources_under_module_calls_witness :
  ∃ sch,
    @modulesToPlanJSON sampleEncoder sampleOrder sampleModules = Ok sch
    ∧ let resources := resourceBlocks (allBlocks sampleModules) in
      (∀ name, moduleCalls sch !! name
               = @moduleCallOf sampleOrder name (nestedBlocks resources))
      ∧ (∀ block, block ∈ nestedBlocks resources →
           ∃ modCall first,
             moduleCalls sch !! hcl.ModuleName block = Some modCall
             ∧ @moduleDeclaration sampleOrder block
                 ∈ ModuleCallModule.Resources (ModuleCall.Module_ modCall)
             ∧ head (filter (λ b, hcl.ModuleName b = hcl.ModuleName block)
                       (nestedBlocks resources)) = Some first
             ∧ ModuleCall.Source modCall = hcl.ModuleSource first)
      ∧ Forall2 (λ b d, ∃ key, d = @rootDeclaration sampleOrder b key)
          (rootBlocks resources) (configResources sch)
      ∧ Forall2 (@hasPlannedRecord sampleEncoder) (rootBlocks resources)
          (plannedResources sch)
      ∧ ∃ bucket, childModules sch = [bucket] ∧
          Forall2 (@hasPlannedRecord sampleEncoder) (nestedBlocks resources)
            (ChildModule.Resources bucket).
Proof.
  eexists. split; [vm_compute; reflexivity|].
  apply (@nested_resources_under_module_calls sampleEncoder sampleOrder
           sampleModules).
  vm_compute; reflexivity.
Defined.

(** Claim C2 as stated fails where two module calls share a name: the second
    subnet sits in a module whose declared source is ["./b/net"], and its
    declaration is kept under the module call ["net"] whose source is that
    of the first, ["./a/net"]. *)
Lemma module_call_source_of_first_block :
  ∃ sch modCall,
    @modulesToPlanJSON sampleEncoder sampleOrder sameNameModules = Ok sch
    ∧ netSubnet "module.b." "./b/net"
        ∈ nestedBlocks (resourceBlocks (allBlocks sameNameModules))
    ∧ moduleCalls sch !! hcl.ModuleName (netSubnet "module.b." "./b/net")
      = Some modCall
    ∧ @moduleDeclaration sampleOrder (netSubnet "module.b." "./b/net")
        ∈ ModuleCallModule.Resources (ModuleCall.Module_ modCall)
    ∧ hcl.ModuleSource (netSubnet "module.b." "./b/net") = "./b/net"
    ∧ ModuleCall.Source modCall = "./a/net"
    ∧ ModuleCall.Source modCall
      ≠ hcl.ModuleSource (netSubnet "module.b." "./b/net").
Proof.
  eexists _, _. split; [vm_compute; reflexivity|].
  split; [vm_compute; right; left|].
  split; [vm_compute; reflexivity|].
  split; [vm_compute; right; left|]. by vm_compute.
Qed.

(** The default key of a module whose first provider block has an empty
    name. *)
Lemma default_provider_key_witness :
  ∃ sch,
    @modulesToPlanJSON sampleEncoder sampleOrder unnamedFirstModules = Ok sch
    ∧ ∃ keys entries,
        Forall2 isDefaultProviderKey unnamedFirstModules keys
        ∧ Forall2 (λ pb d,
            ∃ key, resourceProviderKey pb.1 pb.2 = Ok key
                   ∧ d = @rootDeclaration sampleOrder pb.2 key
                   ∧ (lacksProviderString pb.2 →
                      ResourceData.ProviderConfigKey d = pb.1))
            (filter (λ pb, hcl.HasModuleBlock pb.2 = false)
               (keyedResources unnamedFirstModules keys))
            (configResources sch)
        ∧ Forall2 (λ b entry, providerEntry b = Ok entry)
            (providerBlocks (allBlocks unnamedFirstModules)) entries
        ∧ ∀ name, providerConfigs sch !! name
                  = providerConfigOf
                      <$> last (filter (λ entry, entry.1 = name) entries).
Proof.
  eexists. split; [vm_compute; reflexivity|].
  apply (@default_provider_key sampleEncoder sampleOrder unnamedFirstModules).
  vm_compute; reflexivity.
Defined.

(** Claim C4 as stated fails where the first provider block has an empty
    effective name: the module starts with a provider block whose alias is
    the empty string, and the resource at the root, which has no [provider]
    attribute, is declared with the name of the second provider block as its
    key. *)
Lemma first_provider_not_default :
  ∃ sch,
    @modulesToPlanJSON sampleEncoder sampleOrder unnamedFirstModules = Ok sch
    ∧ head (providerBlocks (allBlocks unnamedFirstModules))
      = Some unnamedProvider
    ∧ providerName unnamedProvider = Ok ""
    ∧ providerName awsProvider = Ok "aws"
    ∧ rootBlocks (resourceBlocks (allBlocks unnamedFirstModules))
      = [webInstance]
    ∧ hcl.GetAttribute webInstance "provider" = None
    ∧ configResources sch = [@rootDeclaration sampleOrder webInstance "aws"]
    ∧ (ResourceData.ProviderConfigKey <$> configResources sch) ≠ [""].
Proof. eexists. split; [vm_compute; reflexivity|]. by vm_compute. Qed.

(** The sample resource has [count = 3] among its values; neither its
    marshalled attributes nor its snapshot nor the document shows it. *)
Lemma count_attribute_not_marshalled_witness :
  ∃ vals snapshot sch,
    @marshalAttributeValues sampleEncoder "resource" (hcl.Values webInstance)
    = Ok vals
    ∧ jsonLookup vals "count" = None
    ∧ @blockValues sampleEncoder webInstance = Ok snapshot
    ∧ ¬ isRaw (jsonLookup snapshot "count")
    ∧ @modulesToPlanJSON sampleEncoder sampleOrder sampleModules = Ok sch
    ∧ (∀ r, r ∈ plannedResources sch
                ++ (childModules sch ≫= ChildModule.Resources) →
            ¬ isRaw (jsonLookup (ResourceJSON.Values r) "count"))
    ∧ (∀ c, c ∈ PlanSchema.ResourceChanges sch →
            ¬ isRaw (jsonLookup
                       (ResourceChange.After (ResourceChangesJSON.Change c))
                       "count")).
Proof.
  destruct (@count_attribute_not_marshalled sampleEncoder sampleOrder)
    as (Hmarshal & Hsnapshot & Hdocument).
  eexists _, _, _. split; [vm_compute; reflexivity|].
  split.
  { apply (Hmarshal "resource" (hcl.Values webInstance));
      [by left|vm_compute; reflexivity]. }
  split; [vm_compute; reflexivity|].
  split.
  { apply (Hsnapshot webInstance); [by left|vm_compute; reflexivity]. }
  split; [vm_compute; reflexivity|].
  apply (Hdocument sampleModules). vm_compute; reflexivity.
Defined.

(** The three returns of [loadPlanJSON]: the bytes of the document, the
    wrapped error of the document encoder, the error of the parser. *)
Example loadPlanJSON_returns :
  @loadPlanJSON sampleEncoder sampleJson sampleOrder sampleParser
    (sampleModules, None)
  = Ok (Some "{format_version:1.0}", None)
  ∧ @loadPlanJSON sampleEncoder failingJson sampleOrder sampleParser
      (sampleModules, None)
    = Ok (None,
          Some (WrapError "error handling built plan json from hcl "
                  (ErrorString "json: error calling MarshalJSON")))
  ∧ @loadPlanJSON sampleEncoder sampleJson sampleOrder sampleParser
      ([], Some (ErrorString "no such directory"))
    = Ok (None, Some (ErrorString "no such directory")).
Proof. by vm_compute. Qed.

(** The conversion under the two sample orders. *)
Lemma conversion_deterministic_witness :
  @MapRangeSpec sampleOrder ∧ @MapRangeSpec reverseOrder
  ∧ (∀ modules,
       @modulesToPlanJSON sampleEncoder sampleOrder modules
       = @modulesToPlanJSON sampleEncoder reverseOrder modules)
  ∧ (∀ p : @Parser sampleParser,
       @loadPlanJSON sampleEncoder sampleJson sampleOrder sampleParser p
       = @loadPlanJSON sampleEncoder sampleJson reverseOrder sampleParser p).
Proof.
  split; [exact sampleOrder_spec|]. split; [exact reverseOrder_spec|].
  exact (@conversion_deterministic sampleEncoder sampleJson sampleParser
           sampleOrder reverseOrder sampleOrder_spec reverseOrder_spec).
Defined.

(** The two orders do differ on the child expressions of the sample
    resource, and the extracted references are the same. *)
Example sample_orders_differ :
  sampleOrder (@childExpressionsOf sampleOrder (hcl.Children webInstance))
  ≠ reverseOrder (@childExpressionsOf sampleOrder (hcl.Children webInstance))
  ∧ @blockToReferences sampleOrder webInstance
    = @blockToReferences reverseOrder webInstance.
Proof. split; [by vm_compute|by vm_compute]. Qed.

(** The sample encoder fails on the unknown [size] of the sample resource;
    the attribute is recorded with the nil bytes, and the document is that
    of the encoder without errors. *)
Lemma encoding_errors_discarded_witness :
  (∀ v, (sampleEncoder v).1 = (silentEncoder v).1)
  ∧ (sampleEncoder (cty.UnknownVal cty.Number)).2
    = Some (ErrorString "value is not known")
  ∧ @modulesToPlanJSON sampleEncoder sampleOrder sampleModules
    = @modulesToPlanJSON silentEncoder sampleOrder sampleModules
  ∧ (∃ m, @marshalAttributeValues sampleEncoder "resource"
            (hcl.Values webInstance) = Ok (Some m)
          ∧ m !! "size"
            = Some (JRaw (sampleEncoder (cty.UnknownVal cty.Number)).1))
  ∧ ∃ sch inner,
      @modulesToPlanJSON sampleEncoder sampleOrder sampleModules = Ok sch
      ∧ (failingJson sch).2 = Some inner
      ∧ ErrorString "json: error calling MarshalJSON" = inner.
Proof.
  destruct encoding_errors_discarded as (Hbytes & Hrecorded & Herror).
  assert (∀ v, (sampleEncoder v).1 = (silentEncoder v).1) as Hsame
    by reflexivity.
  split; [exact Hsame|]. split; [reflexivity|].
  split; [apply (Hbytes sampleEncoder silentEncoder sampleOrder Hsame)|].
  split.
  { apply (Hrecorded sampleEncoder "resource" _
             ("size", cty.UnknownVal cty.Number)); reflexivity. }
  destruct (Herror sampleEncoder failingJson sampleOrder sampleParser
              (sampleModules, None) sampleModules None
              (WrapError "error handling built plan json from hcl "
                 (ErrorString "json: error calling MarshalJSON")))
    as (sch & inner & Hsch & Hinner & Herr);
    [reflexivity|vm_compute; reflexivity|].
  exists sch, inner. split; [exact Hsch|]. split; [exact Hinner|].
  by injection Herr.
Defined.

(** Claim C3 (the code departs from it).  The child blocks are visited only
    inside the loop over the attributes, so a block without attributes of
    its own yields the empty map even when a child has references: the
    [ebs_block_device] block alone yields its [volume_id] references, the
    resource that has this block and no attribute yields nothing, where the
    claim has one entry for the kind [ebs_block_device]. *)
Theorem child_references_lost :
  @blockToReferences sampleOrder ebsDevice
  = {[ "volume_id" := ERefs ["aws_ebs_volume.data.id"] ]}
  ∧ hcl.GetAttributes blocksOnlyInstance = []
  ∧ hcl.Children blocksOnlyInstance = [ebsDevice]
  ∧ @blockToReferences sampleOrder blocksOnlyInstance = ∅
  ∧ @blockToReferences sampleOrder blocksOnlyInstance !! "ebs_block_device"
    ≠ Some (EList [@blockToReferences sampleOrder ebsDevice]).
Proof. by vm_compute. Qed.

(** With an attribute of its own, the same children are reported: the
    sample resource has the references of its [ami] and one entry per kind
    of child. *)
Example webInstance_references :
  @blockToReferences sampleOrder webInstance
  = {[ "ami" := ERefs ["var.ami"; "var.suffix"];
       "ebs_block_device" :=
         EList [ {[ "volume_id" := ERefs ["aws_ebs_volume.data.id"] ]} ];
       "network_interface" :=
         EList [ {[ "network_interface_id" :=
                      ERefs ["aws_network_interface.main.id"] ]} ] ]}.
Proof. by vm_compute. Qed.

(** Claim C8 (the code departs from it).  A missing region is recorded as
    the empty string, but a region that is not a string is read with
    [AsString] all the same: on [provider "aws" { region = 5 }] the
    conversion panics instead of recording the empty string. *)
Theorem numeric_region_panics :
  (∃ sch,
     @modulesToPlanJSON sampleEncoder sampleOrder
       [ {| hcl.Blocks := [regionlessProvider] |} ] = Ok sch
     ∧ providerConfigs sch !! "aws" = Some (providerConfigOf ("aws", "")))
  ∧ hcl.Value (hcl.GetAttribute numericRegionProvider "region")
    = cty.NumberIntVal 5
  ∧ providerRegion numericRegionProvider = Panic PanicNotAString
  ∧ @modulesToPlanJSON sampleEncoder sampleOrder
      [ {| hcl.Blocks := [numericRegionProvider] |} ]
    = Panic PanicNotAString.
Proof. split; [eexists; split; vm_compute; reflexivity|by vm_compute]. Qed.

(** Claim C10 (the code departs from it).  For a resource block whose value
    container is the zero value the attribute marshaller returns the nil
    map, and the block marshaller then writes the kind of the first child
    into it: the write to the nil map is reached and the conversion
    panics. *)
Theorem nil_map_write_reached :
  hcl.Values valuelessInstance = cty.NilVal
  ∧ hcl.Children valuelessInstance = [ebsDevice]
  ∧ @marshalAttributeValues sampleEncoder (hcl.Type_ valuelessInstance)
      (hcl.Values valuelessInstance) = Ok None
  ∧ @marshalBlock sampleEncoder valuelessInstance None
    = Panic PanicNilMapWrite
  ∧ @modulesToPlanJSON sampleEncoder sampleOrder
      [ {| hcl.Blocks := [valuelessInstance] |} ]
    = Panic PanicNilMapWrite.
Proof. by vm_compute. Qed.

(** * Variables from the plan flags: properties *)

Lemma string_app_cons c (s1 s2 : string) :
  String c s1 +:+ s2 = String c (s1 +:+ s2).
Proof. done. Qed.

Lemma string_app_nil_r (s : string) : s +:+ EmptyString = s.
Proof. induction s as [|c s IH]; [done|]. by rewrite string_app_cons, IH. Qed.

Lemma string_app_assoc (s1 s2 s3 : string) :
  (s1 +:+ s2) +:+ s3 = s1 +:+ s2 +:+ s3.
Proof.
  induction s1 as [|c s1 IH]; [done|]. by rewrite !string_app_cons, IH.
Qed.

Lemma splitSpaces_other (inMatch : bool) (piece : string) c s :
  isSpace c = false →
  splitSpaces inMatch piece (String c s)
  = splitSpaces false (piece +:+ String c EmptyString) s.
Proof. intros Hc. cbn [splitSpaces]. by rewrite Hc. Qed.

(** The split runs through a text without white space. *)
Lemma splitSpaces_spaceFree (inMatch : bool) (piece w rest : string) :
  spaceFree w → w ≠ EmptyString →
  splitSpaces inMatch piece (w +:+ rest) = splitSpaces false (piece +:+ w) rest.
Proof.
  revert inMatch piece. induction w as [|c w IH]; intros inMatch piece; [done|].
  cbn [spaceFree]. intros [Hc Hw]%andb_True _.
  apply negb_True, Is_true_false in Hc.
  change (String c w +:+ rest) with (String c (w +:+ rest)).
  rewrite splitSpaces_other by done. destruct w as [|c' w'].
  - done.
  - rewrite IH by done. by rewrite string_app_assoc.
Qed.

Lemma splitSpaces_end (piece tail : string) :
  endsWord tail →
  splitSpaces false piece tail = piece :: restTokens tail.
Proof.
  destruct tail as [|c tail]; [done|]. cbn. intros Hc%Is_true_true.
  by rewrite Hc.
Qed.

Lemma splitSpaces_space (piece s : string) :
  splitSpaces false piece (" " +:+ s) = piece :: splitSpaces true EmptyString s.
Proof. done. Qed.

Lemma joinWords_cons (w : string) (words : list string) :
  words ≠ [] → joinWords (w :: words) = w +:+ " " +:+ joinWords words.
Proof. by destruct words. Qed.

(** The pieces of words joined by single spaces are the words. *)
Lemma splitSpaces_joinWords (inMatch : bool) (words : list string) tail :
  words ≠ [] → Forall (λ w, isWord w) words → endsWord tail →
  splitSpaces inMatch EmptyString (joinWords words +:+ tail)
  = words ++ restTokens tail.
Proof.
  intros Hwords Hall Htail. revert inMatch.
  induction words as [|w words IH]; intros inMatch; [done|].
  apply Forall_cons in Hall as [[Hne%negb_True Hw]%andb_True Hall].
  rewrite bool_decide_spec in Hne.
  destruct (decide (words = [])) as [->|Hrest].
  - cbn [joinWords]. rewrite splitSpaces_spaceFree by done.
    by apply splitSpaces_end.
  - rewrite joinWords_cons, !string_app_assoc by done.
    rewrite splitSpaces_spaceFree, splitSpaces_space by done.
    by rewrite IH.
Qed.

Lemma joinWords_snoc (words : list string) (word : string) :
  joinWords (words ++ [word])
  = (match words with [] => EmptyString | _ => joinWords words +:+ " " end)
    +:+ word.
Proof.
  induction words as [|w words IH]; [done|].
  change ((w :: words) ++ [word]) with (w :: (words ++ [word])).
  rewrite joinWords_cons by (by destruct words). rewrite IH.
  destruct words as [|w' words'].
  - cbn [joinWords]. by rewrite string_app_assoc.
  - by rewrite (joinWords_cons w (w' :: words')), !string_app_assoc.
Qed.

Lemma flagTokens_cons entry (entries : list (planFlag * string)) :
  flagTokens (entry :: entries)
  = ("-" +:+ flagName entry.1) :: entry.2 :: flagTokens entries.
Proof. done. Qed.

Lemma renderFlags_joinWords (entries : list (planFlag * string)) :
  joinWords (flagTokens entries) = renderFlags entries.
Proof.
  induction entries as [|entry entries IH]; [done|].
  rewrite flagTokens_cons, joinWords_cons by done.
  destruct entries as [|entry' entries'].
  - unfold renderFlags, renderFlag. cbn [flagTokens mbind list_bind joinWords].
    by rewrite !string_app_assoc.
  - rewrite joinWords_cons, IH by done.
    change (renderFlags (entry :: entry' :: entries'))
      with (renderFlag entry +:+ " " +:+ renderFlags (entry' :: entries')).
    unfold renderFlag. by rewrite !string_app_assoc.
Qed.

Lemma flagTokens_words (entries : list (planFlag * string)) :
  Forall (λ entry, isWord entry.2) entries →
  Forall (λ w, isWord w) (flagTokens entries).
Proof.
  induction 1 as [|[flag value] entries Hvalue _ IH]; [constructor|].
  rewrite flagTokens_cons. constructor; [by destruct flag|].
  by constructor.
Qed.

(** The arguments of a text that starts with flags and their values. *)
Lemma spaceReg_Split_flags (entries : list (planFlag * string)) word tail :
  Forall (λ entry, isWord entry.2) entries → isWord word → endsWord tail →
  spaceReg_Split (renderPrefix entries +:+ word +:+ tail)
  = flagTokens entries ++ word :: restTokens tail.
Proof.
  intros Hentries Hword Htail.
  assert (renderPrefix entries +:+ word = joinWords (flagTokens entries ++ [word]))
    as Hjoin.
  { rewrite joinWords_snoc, renderFlags_joinWords.
    destruct entries as [|entry entries]; [done|].
    by rewrite flagTokens_cons. }
  rewrite <-string_app_assoc, Hjoin. unfold spaceReg_Split.
  rewrite splitSpaces_joinWords; [| | |done].
  - by rewrite <-(assoc_L (++)).
  - by destruct (flagTokens entries).
  - apply Forall_app. split; [by apply flagTokens_words|by constructor].
Qed.

(** The values that the flags collect. *)
Lemma flagStringSlice_Set_entries (entries : list (planFlag * string)) v :
  foldl (λ v entry, flagStringSlice_Set entry.1 entry.2 v) v entries
  = {| files := files v ++ flagValues FlagVarFile entries;
       vars_ := vars_ v ++ flagValues FlagVar entries |}.
Proof.
  revert v. induction entries as [|[flag value] entries IH]; intros v.
  { destruct v. unfold flagValues. simpl. by rewrite !app_nil_r. }
  simpl. rewrite IH. unfold flagValues. rewrite !filter_cons. simpl.
  destruct flag; simpl; by rewrite <-?(assoc_L (++)).
Qed.

Lemma flagParse_flags (entries : list (planFlag * string)) rest v :
  flagParse (flagTokens entries ++ rest) v
  = flagParse rest
      (foldl (λ v entry, flagStringSlice_Set entry.1 entry.2 v) v entries).
Proof.
  revert v. induction entries as [|[flag value] entries IH]; intros v; [done|].
  rewrite flagTokens_cons. simpl foldl. rewrite <-IH. by destruct flag.
Qed.

Lemma flagParse_stops word rest v :
  stopsFlags word → flagParse (word :: rest) v = (v, None).
Proof.
  destruct word as [|c0 [|c1 s2]]; [done..|]. cbn [stopsFlags flagParse].
  intros [Hc0%negb_True|[Hc1 Hs2]%andb_True]%orb_True.
  - apply Is_true_false in Hc0. by rewrite Hc0.
  - apply Is_true_true in Hc1, Hs2. rewrite Hc1, Hs2.
    by destruct (bool_decide (c0 = "-"%char)).
Qed.

Lemma cutAtEquals_tail c (name : string) :
  c ≠ "="%char → cutAtEquals (String c name) = None → cutAtEquals name = None.
Proof.
  intros Hc. cbn [cutAtEquals]. rewrite bool_decide_eq_false_2 by done.
  by destruct (cutAtEquals name) as [[]|].
Qed.

Lemma flagParse_undefined name rest v :
  plainFlagName name → lookupFlag name = None →
  name ≠ "help" → name ≠ "h" →
  flagParse (("-" +:+ name) :: rest) v
  = (v, Some (ErrorString ("flag provided but not defined: -" +:+ name))).
Proof.
  destruct name as [|c name]; [done|]. cbn [plainFlagName].
  intros [[Hminus%negb_True Hequals%negb_True]%andb_True Hcut]%andb_True.
  rewrite bool_decide_spec in Hminus, Hequals, Hcut.
  intros Hflag Hhelp Hh.
  change ("-" +:+ String c name) with (String "-" (String c name)).
  cbn [flagParse]. rewrite (bool_decide_eq_true_2 ("-"%char = "-"%char)) by done.
  rewrite !(bool_decide_eq_false_2 (c = "-"%char)) by done.
  rewrite (bool_decide_eq_false_2 (c = "="%char)) by done.
  cbn [negb andb orb]. unfold flagNameValue.
  rewrite (cutAtEquals_tail c name Hequals Hcut), Hflag.
  by rewrite !bool_decide_eq_false_2.
Qed.

(** Property X1.
    A text of flags with their values gives the values back: those of
    [-var-file] as the files and those of [-var] as the variables, each in
    the order of the text. *)
Theorem plan_flags_round_trip (entries : list (planFlag * string)) :
  Forall (λ entry, isWord entry.2) entries →
  varsFromPlanFlags (renderFlags entries)
  = ({| files := flagValues FlagVarFile entries;
        vars_ := flagValues FlagVar entries |}, None).
Proof.
  intros Hentries. unfold varsFromPlanFlags.
  destruct (decide (entries = [])) as [->|Hne]; [done|].
  rewrite <-renderFlags_joinWords, <-(string_app_nil_r (joinWords _)).
  unfold spaceReg_Split. rewrite splitSpaces_joinWords;
    [|by destruct entries|by apply flagTokens_words|done].
  rewrite flagParse_flags, flagStringSlice_Set_entries. done.
Qed.

(** Property X2.
    Parsing stops without an error at the first word that is not a flag:
    the flags before it are collected, and the word and all that follows it
    are dropped. *)
Theorem plan_flags_stop_at_word (entries : list (planFlag * string))
    (word tail : string) :
  Forall (λ entry, isWord entry.2) entries →
  isWord word → stopsFlags word → endsWord tail →
  varsFromPlanFlags (renderPrefix entries +:+ word +:+ tail)
  = ({| files := flagValues FlagVarFile entries;
        vars_ := flagValues FlagVar entries |}, None).
Proof.
  intros Hentries Hword Hstops Htail. unfold varsFromPlanFlags.
  rewrite spaceReg_Split_flags, flagParse_flags by done.
  rewrite flagParse_stops, flagStringSlice_Set_entries by done. done.
Qed.

(** Property X3.
    A text that starts with white space yields no variables and no error,
    whatever follows. *)
Theorem plan_flags_leading_space (c : Ascii.ascii) (s : string) :
  isSpace c →
  varsFromPlanFlags (String c s) = ({| files := []; vars_ := [] |}, None).
Proof.
  intros Hc%Is_true_true. unfold varsFromPlanFlags, spaceReg_Split.
  cbn [splitSpaces]. by rewrite Hc.
Qed.

(** Property X4.
    A flag that is not defined makes the parse fail with the error of the
    [flag] package, and the flags collected before it are dropped. *)
Theorem plan_flags_undefined_flag (entries : list (planFlag * string))
    (name tail : string) :
  Forall (λ entry, isWord entry.2) entries →
  spaceFree name → plainFlagName name → lookupFlag name = None →
  name ≠ "help" → name ≠ "h" → endsWord tail →
  varsFromPlanFlags (renderPrefix entries +:+ ("-" +:+ name) +:+ tail)
  = ({| files := []; vars_ := [] |},
     Some (ErrorString ("flag provided but not defined: -" +:+ name))).
Proof.
  intros Hentries Hname Hplain Hflag Hhelp Hh Htail. unfold varsFromPlanFlags.
  rewrite spaceReg_Split_flags, flagParse_flags by done.
  by rewrite flagParse_undefined.
Qed.

(** Property X5.
    A flag at the very end of the text has no value and is an error; when
    white space follows it, the flag takes the empty string as its value. *)
Theorem plan_flags_dangling_flag (entries : list (planFlag * string))
    (flag : planFlag) :
  Forall (λ entry, isWord entry.2) entries →
  varsFromPlanFlags (renderPrefix entries +:+ ("-" +:+ flagName flag))
  = ({| files := []; vars_ := [] |},
     Some (ErrorString ("flag needs an argument: -" +:+ flagName flag)))
  ∧ varsFromPlanFlags (renderPrefix entries +:+ ("-" +:+ flagName flag) +:+ " ")
    = ({| files := flagValues FlagVarFile (entries ++ [(flag, EmptyString)]);
          vars_ := flagValues FlagVar (entries ++ [(flag, EmptyString)]) |},
       None).
Proof.
  intros Hentries. unfold varsFromPlanFlags. split.
  - rewrite <-(string_app_nil_r ("-" +:+ flagName flag)).
    rewrite spaceReg_Split_flags, flagParse_flags by (by destruct flag).
    by destruct flag.
  - rewrite spaceReg_Split_flags, flagParse_flags by (by destruct flag).
    rewrite flagStringSlice_Set_entries. unfold flagValues.
    rewrite !filter_app, !fmap_app.
    destruct flag; cbn; by rewrite ?app_nil_r.
Qed.

(** * The provider: properties *)

Section provider_properties.

Context `{!CtyJson, !EncodingJson, !MapRange, !HclParser, !HclNew, !PlanJSON}.

(** Property X6.
    Variables and variable files given as plan flags are put before those
    of the project configuration, and give the same parser as if they had
    been configured there; an option is passed to [hcl.New] only for a list
    that is not empty, the files before the variables. *)
Theorem NewHCLProvider_flags_before_config
    flags path varFiles inputVars provider flagFiles flagVars :
  varsFromPlanFlags flags
  = ({| files := flagFiles; vars_ := flagVars |}, None) →
  let allFiles := flagFiles ++ varFiles in
  let allVars := flagVars ++ inputVars in
  NewHCLProvider
    {| Path := path; TerraformPlanFlags := flags;
       TerraformVarFiles := varFiles; TerraformVars := inputVars |} provider
  = (Some {| HCLProvider_Parser :=
               New path (parserOptions {| files := allFiles;
                                          vars_ := allVars |});
             HCLProvider_Provider := provider |}, None)
  ∧ NewHCLProvider
      {| Path := path; TerraformPlanFlags := EmptyString;
         TerraformVarFiles := allFiles; TerraformVars := allVars |} provider
    = NewHCLProvider
        {| Path := path; TerraformPlanFlags := flags;
           TerraformVarFiles := varFiles; TerraformVars := inputVars |}
        provider.
Proof.
  intros Hflags allFiles allVars.
  assert (∀ flags fs vs files0 vars0,
    varsFromPlanFlags flags = ({| files := files0; vars_ := vars0 |}, None) →
    NewHCLProvider
      {| Path := path; TerraformPlanFlags := flags;
         TerraformVarFiles := fs; TerraformVars := vs |} provider
    = (Some {| HCLProvider_Parser :=
                 New path (parserOptions {| files := files0 ++ fs;
                                            vars_ := vars0 ++ vs |});
               HCLProvider_Provider := provider |}, None)) as Hnew.
  { intros flags' fs vs files0 vars0 Hflags'. unfold NewHCLProvider.
    cbn [TerraformPlanFlags]. rewrite Hflags'. unfold parserOptions. cbn.
    by repeat case_bool_decide. }
  rewrite (Hnew _ _ _ _ _ Hflags).
  split; [done|]. by rewrite (Hnew EmptyString _ _ [] []).
Qed.

(** Property X7.
    A plan flag other than [-var] and [-var-file] makes [NewHCLProvider]
    fail: it returns the zero provider and the error of the [flag] package,
    wrapped, whatever variables the flags before it and the project
    configuration give. *)
Theorem NewHCLProvider_undefined_flag
    (entries : list (planFlag * string)) (name tail : string)
    path varFiles inputVars provider :
  Forall (λ entry, isWord entry.2) entries →
  spaceFree name → plainFlagName name → lookupFlag name = None →
  name ≠ "help" → name ≠ "h" → endsWord tail →
  NewHCLProvider
    {| Path := path;
       TerraformPlanFlags :=
         renderPrefix entries +:+ ("-" +:+ name) +:+ tail;
       TerraformVarFiles := varFiles; TerraformVars := inputVars |} provider
  = (None,
     Some (WrapError "could not parse vars from plan flags "
             (ErrorString ("flag provided but not defined: -" +:+ name)))).
Proof.
  intros Hentries Hname Hplain Hflag Hhelp Hh Htail.
  unfold NewHCLProvider, varsFromPlanFlags. cbn [TerraformPlanFlags].
  rewrite spaceReg_Split_flags, flagParse_flags by done.
  by rewrite flagParse_undefined.
Qed.

End provider_properties.

(** * The block marshaller: what a snapshot holds *)

Section snapshots.

Context `{!CtyJson}.

Lemma marshalChild_Ok (m : gmap string jval) b vals :
  marshalChild (Some m) b = Ok vals →
  ∃ childValues,
    blockValues b = Ok childValues
    ∧ ¬ isRaw (m !! hcl.Type_ b)
    ∧ vals = Some (<[hcl.Type_ b :=
                       JArr (arrayAt m (hcl.Type_ b) ++ [childValues])]> m).
Proof.
  unfold marshalChild, blockValues, arrayAt.
  intros (cv0 & Hcv0 & (cv & Hcv & Hwrite)%res_bind_Ok)%res_bind_Ok.
  exists cv. rewrite Hcv0. simpl. split.
  { case_bool_decide as Hlen; [done|]. injection Hcv as <-.
    apply marshalBlock_leaf. destruct (hcl.Children b); [done|simpl in Hlen; lia]. }
  destruct (m !! hcl.Type_ b) as [[raw|elems]|]; [done|..];
    injection Hwrite as <-; (split; [by intros []|done]).
Qed.

(** The loop of the block marshaller over child blocks [children], started
    on the map [m]: under each kind it appends the snapshots of the children
    of that kind, in order, and it leaves the other keys alone. *)
Lemma marshalChildren_lookup children (m : gmap string jval) vals kind :
  foldM marshalChild (Some m) children = Ok vals →
  ∃ m' elems,
    vals = Some m'
    ∧ Forall2 (λ c v, blockValues c = Ok v)
        (filter (λ c, hcl.Type_ c = kind) children) elems
    ∧ (elems = [] → m' !! kind = m !! kind)
    ∧ (elems ≠ [] →
       ¬ isRaw (m !! kind)
       ∧ m' !! kind = Some (JArr (arrayAt m kind ++ elems))).
Proof.
  revert vals. induction children as [|b children IH] using rev_ind;
    intros vals.
  { simpl. intros [= <-]. exists m, []. by repeat split; [constructor|..]. }
  rewrite foldM_app. intros (vals1 & Hchildren & Hb)%res_bind_Ok.
  destruct (IH _ Hchildren) as (m1 & elems & -> & Helems & Hnone & Hsome).
  simpl in Hb. apply res_bind_Ok in Hb as (vals2 & Hb & [= <-]).
  apply marshalChild_Ok in Hb as (cv & Hcv & Hraw & ->).
  rewrite filter_app, filter_cons, filter_nil.
  destruct (decide (hcl.Type_ b = kind)) as [<-|Hne].
  - exists (<[hcl.Type_ b := JArr (arrayAt m1 (hcl.Type_ b) ++ [cv])]> m1),
      (elems ++ [cv]).
    split; [done|]. split; [apply Forall2_app; [done|by repeat constructor]|].
    split; [intros [_ [=]]%app_eq_nil|]. intros _.
    rewrite lookup_insert_eq. destruct elems as [|v elems'].
    + unfold arrayAt in *. rewrite Hnone in * by done. done.
    + destruct Hsome as [Hraw' Hm1]; [done|]. split; [done|].
      unfold arrayAt at 1. by rewrite Hm1, (assoc_L (++)).
  - exists (<[hcl.Type_ b := JArr (arrayAt m1 (hcl.Type_ b) ++ [cv])]> m1),
      elems.
    rewrite app_nil_r, lookup_insert_ne by done. done.
Qed.

(** Property X23.
    The snapshot of a block lists, under the kind of each of its children,
    the snapshots of the children of that kind in the order of their
    declaration. *)
Theorem snapshot_groups_children block vals kind :
  blockValues block = Ok vals →
  kind ∈ hcl.Type_ <$> hcl.Children block →
  ∃ elems,
    jsonLookup vals kind = Some (JArr elems)
    ∧ Forall2 (λ c v, blockValues c = Ok v)
        (filter (λ c, hcl.Type_ c = kind) (hcl.Children block)) elems.
Proof.
  intros (vals0 & Hvals0 & Hvals)%res_bind_Ok Hkind.
  destruct vals0 as [m0|]; last first.
  { destruct (marshalBlock_nil_map block) as [p Hp]; [|congruence].
    intros Hleaf. rewrite Hleaf in Hkind. by apply elem_of_nil in Hkind. }
  rewrite marshalBlock_unfold in Hvals.
  destruct (marshalChildren_lookup _ _ _ kind Hvals)
    as (m' & elems & -> & Helems & _ & Hsome).
  exists elems. split; [|done]. simpl.
  apply list_elem_of_fmap in Hkind as (c & -> & Hc).
  assert (elems ≠ []) as Hne.
  { intros ->. apply Forall2_nil_inv_r in Helems.
    assert (c ∈ filter (λ c', hcl.Type_ c' = hcl.Type_ c) (hcl.Children block))
      as Hin by (by apply list_elem_of_filter).
    rewrite Helems in Hin. by apply elem_of_nil in Hin. }
  destruct (Hsome Hne) as [Hraw ->]. do 2 f_equal.
  unfold arrayAt.
  destruct (marshalAttributeValues_raw _ _ _ (hcl.Type_ c) Hvals0)
    as [Hnone|Hisraw]; simpl in *; [by rewrite Hnone|done].
Qed.

(** Property X24.
    The block marshaller leaves the marshalled attributes as they are:
    under a key that is not the kind of a child, the snapshot holds what the
    attribute marshaller returned. *)
Theorem snapshot_keeps_attributes block vals0 vals key :
  marshalAttributeValues (hcl.Type_ block) (hcl.Values block) = Ok vals0 →
  marshalBlock block vals0 = Ok vals →
  key ∉ hcl.Type_ <$> hcl.Children block →
  jsonLookup vals key = jsonLookup vals0 key.
Proof.
  intros Hvals0 Hvals Hkey. destruct vals0 as [m0|].
  - destruct (marshalBlock_lookup _ _ _ key Hvals)
      as (m' & -> & [Hsame|[_ ?]]); [exact Hsame|done].
  - destruct (decide (hcl.Children block = [])) as [Hleaf|Hchildren].
    + rewrite marshalBlock_leaf in Hvals by done. by injection Hvals as <-.
    + destruct (marshalBlock_nil_map _ Hchildren) as [p Hp]. congruence.
Qed.

(** Property X26.
    The attribute marshaller records the attributes of an object under
    their names and nothing else; it leaves out [count], and that only for
    the kinds [resource] and [module]. *)
Theorem marshalled_attribute_names blockType kvs :
  ∃ m,
    marshalAttributeValues blockType (cty.ObjectVal kvs) = Ok (Some m)
    ∧ ∀ key, is_Some (m !! key)
             ↔ key ∈ kvs.*1
               ∧ ¬ ((blockType = "resource" ∨ blockType = "module")
                    ∧ key = "count").
Proof.
  eexists. split; [apply marshalAttributeValues_object|]. intros key.
  rewrite recordAttribute_lookup. unfold skipped.
  assert (is_Some (last (filter (λ kv : string * cty.Value, kv.1 = key) kvs))
          ↔ key ∈ kvs.*1) as Hlast.
  { split.
    - intros [kv [<- Hkv]%last_Some_elem_of%list_elem_of_filter].
      by apply (list_elem_of_fmap_2 fst).
    - intros ([k v] & -> & Hkv)%list_elem_of_fmap.
      destruct (filter _ kvs) as [|kv' l] eqn:Hfilter using rev_ind.
      + assert ((k, v) ∈ filter (λ kv : string * cty.Value, kv.1 = k) kvs)
          as Hin by (by apply list_elem_of_filter).
        simpl in Hfilter. rewrite Hfilter in Hin. by apply elem_of_nil in Hin.
      + rewrite last_snoc. by eexists. }
  assert (is_Some
            match last (filter (λ kv : string * cty.Value, kv.1 = key) kvs) with
            | Some kv => Some (JRaw (ctyJsonMarshal kv.2).1)
            | None => (∅ : gmap string jval) !! key
            end ↔ key ∈ kvs.*1) as Hentry.
  { rewrite <-Hlast. destruct (last _); [by split; eauto|].
    rewrite lookup_empty. by split; intros [? ?]. }
  case_bool_decide as Hkind; simpl; [case_bool_decide as Hcount|].
  - rewrite lookup_empty. split; [by intros [? ?]|]. by intros [_ []].
  - rewrite Hentry. tauto.
  - rewrite Hentry. tauto.
Qed.

(** Property X25.
    An attribute and a child block may not share a name: when the object of
    a block has a marshalled attribute whose name is the kind of one of its
    children, marshalling the block panics. *)
Theorem attribute_named_like_child_panics block kvs key :
  hcl.Values block = cty.ObjectVal kvs →
  key ∈ kvs.*1 → skipped (hcl.Type_ block) key = false →
  key ∈ hcl.Type_ <$> hcl.Children block →
  ∃ p, blockValues block = Panic p.
Proof.
  intros Hvalues Hattr Hskip Hkind.
  destruct (blockValues block) as [vals|p] eqn:Hblock; [|by exists p].
  exfalso. apply res_bind_Ok in Hblock as (vals0 & Hvals0 & Hvals).
  rewrite Hvalues, marshalAttributeValues_object in Hvals0.
  injection Hvals0 as <-. rewrite marshalBlock_unfold in Hvals.
  destruct (marshalChildren_lookup _ _ _ key Hvals)
    as (m' & elems & _ & Helems & _ & Hsome).
  apply list_elem_of_fmap in Hkind as (c & -> & Hc).
  assert (elems ≠ []) as Hne.
  { intros ->. apply Forall2_nil_inv_r in Helems.
    assert (c ∈ filter (λ c', hcl.Type_ c' = hcl.Type_ c) (hcl.Children block))
      as Hin by (by apply list_elem_of_filter).
    rewrite Helems in Hin. by apply elem_of_nil in Hin. }
  destruct (Hsome Hne) as [Hraw _]. apply Hraw.
  rewrite recordAttribute_lookup, Hskip.
  apply list_elem_of_fmap in Hattr as ([k v] & Hk & Hkv). simpl in Hk.
  destruct (filter _ kvs) as [|kv' l] eqn:Hfilter using rev_ind.
  - assert ((k, v) ∈ filter (λ kv : string * cty.Value,
                               kv.1 = hcl.Type_ c) kvs)
      as Hin by (by apply list_elem_of_filter).
    simpl in Hfilter. rewrite Hfilter in Hin. by apply elem_of_nil in Hin.
  - by rewrite last_snoc.
Qed.

End snapshots.

(** * The plan assembler: further properties *)

Lemma foldM_filter {S B} (P : B → Prop) `{!∀ x, Decision (P x)}
    (body : S → B → res S) (s : S) (l : list B) :
  (∀ s x, x ∈ l → ¬ P x → body s x = Ok s) →
  foldM body s (filter P l) = foldM body s l.
Proof.
  revert s. induction l as [|x l IH]; intros s Hskip; [done|].
  rewrite filter_cons. destruct (decide (P x)) as [HP|HP].
  - rewrite !foldM_cons. destruct (body s x) as [s'|p]; simpl; [|done].
    apply IH. intros s'' y Hy. apply Hskip. by right.
  - rewrite foldM_cons, (Hskip s x) by (done || by left). simpl.
    apply IH. intros s'' y Hy. apply Hskip. by right.
Qed.

Lemma foldM_fmap {S A B} (f : A → B) (body : S → B → res S) (s : S)
    (l : list A) :
  foldM body s (f <$> l) = foldM (λ s x, body s (f x)) s l.
Proof.
  revert s. induction l as [|x l IH]; intros s; [done|].
  rewrite fmap_cons, !foldM_cons. destruct (body s (f x)); simpl; [apply IH|done].
Qed.

Lemma res_bind_Panic {A B} (x : res A) (f : A → res B) (p : panic) :
  res_bind x f = Panic p ↔ x = Panic p ∨ ∃ a, x = Ok a ∧ f a = Panic p.
Proof.
  destruct x as [a|p']; simpl; split.
  - by eauto.
  - by intros [|(a' & [= ->] & ?)].
  - intros [= ->]. by left.
  - by intros [[= ->]|(a' & ? & ?)].
Qed.

(** A loop does not end in the panic [p] when no iteration does, from the
    states that an invariant describes. *)
Lemma foldM_no_panic {S B} (I : S → Prop) (p : panic)
    (body : S → B → res S) l s :
  I s →
  (∀ s x, x ∈ l → I s →
     body s x ≠ Panic p ∧ ∀ s', body s x = Ok s' → I s') →
  foldM body s l ≠ Panic p.
Proof.
  revert s. induction l as [|x l IH]; intros s Hs Hbody; [done|].
  rewrite foldM_cons. destruct (Hbody s x) as [Hx Hkeep]; [by left|done|].
  intros [?|(s' & Hs' & Hl)]%res_bind_Panic; [done|].
  revert Hl. apply IH; [by apply Hkeep|].
  intros s2 y Hy. apply Hbody. by right.
Qed.

Section assembler_properties.

Context `{!CtyJson, !MapRange}.

(** Property X11.
    Blocks of other kinds than [provider] and [resource] have no part in
    the conversion: without them the assembler returns the same document,
    or ends in the same panic. *)
Theorem other_blocks_ignored modules :
  modulesToPlanJSON
    ((λ module, {| hcl.Blocks := assemblerBlocks (hcl.Blocks module) |})
       <$> modules)
  = modulesToPlanJSON modules.
Proof.
  unfold modulesToPlanJSON. rewrite foldM_fmap.
  apply foldM_ext. intros sch module _. cbn [hcl.Blocks].
  unfold assemblerBlocks. rewrite foldM_filter; last first.
  { intros st b _ Hkind. apply providerBlock_other. tauto. }
  destruct (foldM providerBlock _ _) as [[providerKey sch1]|p]; [|done].
  simpl. apply foldM_filter.
  intros sch2 b _ Hkind. apply resourceBlock_other. tauto.
Qed.

Lemma providerBlock_header st block st' :
  providerBlock st block = Ok st' →
  documentHeader st'.2 = documentHeader st.2
  ∧ childModules st'.2 = childModules st.2.
Proof.
  destruct st as [providerKey sch].
  destruct (decide (hcl.Type_ block = "provider")) as [Hkind|Hkind].
  - rewrite providerBlock_provider by done.
    by intros (entry & _ & [= <-])%res_bind_Ok.
  - rewrite providerBlock_other by done. by intros [= <-].
Qed.

Lemma appendChildModuleResource_header r sch sch' :
  appendChildModuleResource r sch = Ok sch' →
  documentHeader sch' = documentHeader sch.
Proof.
  unfold appendChildModuleResource.
  destruct (_ !! 0%nat) as [bucket|]; [|done]. by intros [= <-].
Qed.

Lemma resourceBlock_header providerKey sch block sch' :
  resourceBlock providerKey sch block = Ok sch' →
  documentHeader sch' = documentHeader sch.
Proof.
  destruct (decide (hcl.Type_ block = "resource")) as [Hkind|Hkind];
    [|rewrite resourceBlock_other by done; by intros [= <-]].
  unfold resourceBlock. rewrite bool_decide_eq_true_2 by done.
  intros (v0 & _ & (v & _ & (key & _ & Hplace)%res_bind_Ok)%res_bind_Ok)
    %res_bind_Ok.
  apply res_bind_Ok in Hplace as (sch1 & Hplace & [= <-]).
  change (documentHeader sch1 = documentHeader sch).
  destruct (hcl.HasModuleBlock block).
  - by apply appendChildModuleResource_header in Hplace as ->.
  - by injection Hplace as <-.
Qed.

(** Property X12.
    Every document that the assembler returns has format version [1.0],
    Terraform version [1.1.0] and no variables. *)
Theorem document_header_fixed modules sch :
  modulesToPlanJSON modules = Ok sch →
  documentHeader sch = ("1.0", "1.1.0", None).
Proof.
  unfold modulesToPlanJSON.
  apply (foldM_invariant (λ sch, documentHeader sch = ("1.0", "1.1.0", None)));
    [|done].
  intros sch1 module sch2 _ Hsch1
    ([providerKey sch3] & Hproviders & Hresources)%res_bind_Ok.
  assert (documentHeader sch3 = ("1.0", "1.1.0", None)) as Hsch3.
  { revert Hproviders.
    apply (foldM_invariant
             (λ st, documentHeader st.2 = ("1.0", "1.1.0", None))); [|done].
    intros st b st' _ Hst Hb. apply providerBlock_header in Hb as [-> _].
    done. }
  revert Hresources.
  apply (foldM_invariant (λ sch, documentHeader sch = ("1.0", "1.1.0", None)));
    [|done].
  intros sch4 b sch5 _ Hsch4 Hb. by apply resourceBlock_header in Hb as ->.
Qed.

(** Property X13.
    The assembler only plans creations of managed resources: every
    resource change has the mode [managed], the one action [create] and no
    state before; every planned resource has the mode [managed] and schema
    version 1; every declaration has the mode [managed]. *)
Theorem records_are_creations modules sch :
  modulesToPlanJSON modules = Ok sch →
  (∀ c, c ∈ PlanSchema.ResourceChanges sch →
     ResourceChangesJSON.Mode c = "managed"
     ∧ ResourceChange.Actions (ResourceChangesJSON.Change c) = ["create"]
     ∧ ResourceChange.Before (ResourceChangesJSON.Change c) = None)
  ∧ (∀ r, r ∈ allPlannedResources sch →
       ResourceJSON.Mode r = "managed" ∧ ResourceJSON.SchemaVersion r = 1%Z)
  ∧ (∀ d, d ∈ configResources sch → ResourceData.Mode d = "managed")
  ∧ (∀ name modCall d,
       moduleCalls sch !! name = Some modCall →
       d ∈ ModuleCallModule.Resources (ModuleCall.Module_ modCall) →
       ResourceData.Mode d = "managed").
Proof.
  intros (Hchanges & Hplanned & (bucket & Hbucket & Hchild) & Hconfig & Hcalls)
    %modulesToPlanJSON_records. simpl in *.
  split; [|split; [|split]].
  - intros c (i & Hi)%list_elem_of_lookup.
    by destruct (Forall2_lookup_r _ _ _ _ _ Hchanges Hi)
      as (b & _ & v & _ & ->).
  - intros r. unfold allPlannedResources. rewrite Hbucket. simpl.
    rewrite app_nil_r.
    intros [(i & Hi)%list_elem_of_lookup|(i & Hi)%list_elem_of_lookup]
      %elem_of_app.
    + by destruct (Forall2_lookup_r _ _ _ _ _ Hplanned Hi)
        as (b & _ & v & _ & ->).
    + by destruct (Forall2_lookup_r _ _ _ _ _ Hchild Hi)
        as (b & _ & v & _ & ->).
  - intros d (i & Hi)%list_elem_of_lookup.
    by destruct (Forall2_lookup_r _ _ _ _ _ Hconfig Hi) as (b & _ & key & ->).
  - intros name modCall d. rewrite Hcalls. unfold moduleCallOf.
    destruct (filter _ _) as [|first rest]; [done|]. intros [= <-]. simpl.
    rewrite <-(fmap_cons moduleDeclaration).
    by intros (b & -> & _)%list_elem_of_fmap.
Qed.

(** Property X14.
    Each resource change carries the snapshot of a planned resource of the
    same address, type and name: the [after] of the change is the [values]
    of that planned resource. *)
Theorem change_shares_planned_snapshot modules sch c :
  modulesToPlanJSON modules = Ok sch →
  c ∈ PlanSchema.ResourceChanges sch →
  ∃ r, r ∈ allPlannedResources sch
       ∧ ResourceJSON.Address r = ResourceChangesJSON.Address c
       ∧ ResourceJSON.Type_ r = ResourceChangesJSON.Type_ c
       ∧ ResourceJSON.Name r = ResourceChangesJSON.Name c
       ∧ ResourceJSON.Values r
         = ResourceChange.After (ResourceChangesJSON.Change c).
Proof.
  intros (Hchanges & Hplanned & (bucket & Hbucket & Hchild) & _)
    %modulesToPlanJSON_records (i & Hi)%list_elem_of_lookup. simpl in *.
  destruct (Forall2_lookup_r _ _ _ _ _ Hchanges Hi)
    as (b & Hb%list_elem_of_lookup_2 & v & Hv & ->).
  assert (∀ blocks rs, b ∈ blocks → Forall2 hasPlannedRecord blocks rs →
            plannedRecord b v ∈ rs) as Hrecord.
  { intros blocks rs (j & Hj)%list_elem_of_lookup Hrs.
    destruct (Forall2_lookup_l _ _ _ _ _ Hrs Hj) as (r & Hr & v' & Hv' & ->).
    replace v with v' by congruence. by apply list_elem_of_lookup_2 in Hr. }
  exists (plannedRecord b v). split; [|done].
  unfold allPlannedResources. rewrite Hbucket. simpl. rewrite app_nil_r.
  apply elem_of_app.
  destruct (hcl.HasModuleBlock b) eqn:Hnested; [right|left];
    (eapply Hrecord; [|done]); apply list_elem_of_filter; by rewrite Hnested.
Qed.

End assembler_properties.

(** ** Panics of the assembler *)

Section assembler_panics.

Context `{!CtyJson, !MapRange}.

Lemma AsString_Panic value p :
  cty.AsString value = Panic p → p = PanicNotAString.
Proof. destruct value; simpl; congruence. Qed.

Lemma marshalAttributeValues_in_range blockType value :
  marshalAttributeValues blockType value ≠ Panic PanicIndexOutOfRange.
Proof.
  unfold marshalAttributeValues. destruct (_ || _); [done|].
  intros [Hit|(it & _ & [Hloop|(ret & _ & ?)]%res_bind_Panic)]%res_bind_Panic;
    [by destruct value| |done].
  revert Hloop. apply (foldM_no_panic (λ _, True)); [done|].
  intros ret [k v] _ _. split; [|done].
  destruct (ctyJsonMarshal v) as [vJSON err].
  intros [Hkey%AsString_Panic|(key & _ & Hput)]%res_bind_Panic; [done|].
  by destruct (_ && _).
Qed.

Lemma marshalBlock_in_range block :
  ∀ jsonValues, marshalBlock block jsonValues ≠ Panic PanicIndexOutOfRange.
Proof.
  induction block as [block IH] using Block_induction. intros jsonValues.
  rewrite marshalBlock_unfold. rewrite Forall_forall in IH.
  apply (foldM_no_panic (λ _, True)); [done|].
  intros jv b Hb _. split; [|done]. unfold marshalChild.
  intros [Hvals|(vals0 & _ & [Hvals|(vals & _ & Hput)]%res_bind_Panic)]
    %res_bind_Panic.
  - by apply marshalAttributeValues_in_range in Hvals.
  - case_bool_decide; [by apply (IH b Hb) in Hvals|done].
  - destruct jv as [m|]; [|done]. by destruct (m !! hcl.Type_ b) as [[]|].
Qed.

Lemma providerBlock_in_range st block :
  providerBlock st block ≠ Panic PanicIndexOutOfRange.
Proof.
  destruct st as [providerKey sch].
  destruct (decide (hcl.Type_ block = "provider")) as [Hkind|Hkind];
    [|by rewrite providerBlock_other].
  rewrite providerBlock_provider by done.
  intros [Hentry|(entry & _ & ?)]%res_bind_Panic; [|done].
  unfold providerEntry in Hentry.
  apply res_bind_Panic in Hentry
    as [Hname|(name & _ & [Hregion|(region & _ & ?)]%res_bind_Panic)];
    [| |done].
  - unfold providerName in Hname.
    destruct (hcl.GetAttribute block "alias"); [|done].
    by apply AsString_Panic in Hname.
  - unfold providerRegion in Hregion. simpl in Hregion.
    destruct (negb _); [|done]. by apply AsString_Panic in Hregion.
Qed.

Lemma resourceBlock_in_range providerKey sch block :
  childModules sch ≠ [] →
  resourceBlock providerKey sch block ≠ Panic PanicIndexOutOfRange.
Proof.
  intros Hbucket. unfold resourceBlock. case_bool_decide; [|done].
  intros [Hvals|(vals0 & _ & [Hvals|(vals & _ & Hrest)]%res_bind_Panic)]
    %res_bind_Panic.
  - by apply marshalAttributeValues_in_range in Hvals.
  - by apply marshalBlock_in_range in Hvals.
  - apply res_bind_Panic in Hrest
      as [Hkey|(key & _ & [Hplace|(sch1 & _ & ?)]%res_bind_Panic)]; [| |done].
    + destruct (hcl.GetAttribute block "provider"); [|done].
      case_bool_decide; [|done]. by apply AsString_Panic in Hkey.
    + destruct (hcl.HasModuleBlock block); [|done].
      unfold appendChildModuleResource, childModules in *.
      destruct sch as [? ? ? [[? buckets]] ? ?]. simpl in *.
      by destruct buckets.
Qed.

Lemma resourceBlock_bucket providerKey sch block sch' :
  resourceBlock providerKey sch block = Ok sch' →
  childModules sch ≠ [] → childModules sch' ≠ [].
Proof.
  destruct (decide (hcl.Type_ block = "resource")) as [Hkind|Hkind];
    [|rewrite resourceBlock_other by done; by intros [= <-]].
  intros (v & key & _ & _ & _ & _ & Hplaced)%resourceBlock_Ok; [|done].
  destruct (hcl.HasModuleBlock block).
  - by destruct Hplaced as (_ & _ & _ & bucket & rest & _ & ->).
  - by destruct Hplaced as (_ & _ & _ & ->).
Qed.

(** Property X10.
    The child-module bucket is there whenever a planned resource is
    appended to it: the index expression [ChildModules[0]] at line 231 is
    never out of range, on any input. *)
Theorem bucket_index_in_range modules :
  modulesToPlanJSON modules ≠ Panic PanicIndexOutOfRange.
Proof.
  unfold modulesToPlanJSON.
  apply (foldM_no_panic (λ sch, childModules sch ≠ [])); [done|].
  intros sch module _ Hbucket.
  assert (∀ providerKey sch1,
            foldM providerBlock ("", sch) (hcl.Blocks module)
            = Ok (providerKey, sch1) → childModules sch1 ≠ []) as Hproviders.
  { intros providerKey sch1.
    apply (foldM_invariant (λ st, childModules st.2 ≠ [])); [|done].
    intros st b st' _ Hst Hb. apply providerBlock_header in Hb as [_ Hb].
    by rewrite Hb. }
  split.
  - intros [Hpanic|([providerKey sch1] & Hsch1 & Hpanic)]%res_bind_Panic.
    + revert Hpanic. apply (foldM_no_panic (λ _, True)); [done|].
      intros st b _ _. split; [apply providerBlock_in_range|done].
    + revert Hpanic.
      apply (foldM_no_panic (λ sch, childModules sch ≠ []));
        [by eapply Hproviders|].
      intros sch2 b _ Hsch2.
      split; [by apply resourceBlock_in_range|].
      intros sch3 Hsch3. by eapply resourceBlock_bucket.
  - intros sch' ([providerKey sch1] & Hsch1 & Hresources)%res_bind_Ok.
    revert Hresources.
    apply (foldM_invariant (λ sch, childModules sch ≠ []));
      [|by eapply Hproviders].
    intros sch2 b sch3 _ Hsch2 Hb. by eapply resourceBlock_bucket.
Qed.

(** ** Keys of the configuration *)

(** Property X16.
    Each provider configuration bears the name it is filed under and one
    expression, the region, as a constant; each module call holds a
    declaration at least, and its declarations are those of nested resource
    blocks of that module name, with a provider-config key that starts
    with the module name and a colon. *)
Theorem configuration_keys_consistent modules sch :
  modulesToPlanJSON modules = Ok sch →
  (∀ name config,
     providerConfigs sch !! name = Some config →
     ProviderConfig.Name config = name
     ∧ ∃ region, ProviderConfig.Expressions config
                 = {[ "region" := {[ "constant_value" := region ]} ]})
  ∧ (∀ name modCall,
       moduleCalls sch !! name = Some modCall →
       ModuleCallModule.Resources (ModuleCall.Module_ modCall) ≠ []
       ∧ ∀ d, d ∈ ModuleCallModule.Resources (ModuleCall.Module_ modCall) →
           ∃ block,
             block ∈ nestedBlocks (resourceBlocks (allBlocks modules))
             ∧ hcl.ModuleName block = name
             ∧ d = moduleDeclaration block
             ∧ ResourceData.ProviderConfigKey d
               = name +:+ ":" +:+ hcl.Provider block).
Proof.
  intros Hsch. split.
  - destruct (modulesToPlanJSON_Ok _ _ Hsch)
      as (keys & entries & _ & _ & Hcfg & _).
    intros name config. rewrite Hcfg, recordProviders_lookup, lookup_empty.
    destruct (last _) as [entry|] eqn:Hlast; [|done]. intros [= <-].
    apply last_Some_elem_of, list_elem_of_filter in Hlast as [Hname _].
    split; [done|]. by exists entry.2.
  - destruct (modulesToPlanJSON_records _ _ Hsch) as (_ & _ & _ & _ & Hcalls).
    intros name modCall. rewrite Hcalls. unfold moduleCallOf.
    destruct (filter _ _) as [|first rest] eqn:Hfilter; [done|].
    intros [= <-]. simpl. split; [done|].
    rewrite <-(fmap_cons moduleDeclaration), <-Hfilter.
    intros d (block & -> & [Hname Hblock]%list_elem_of_filter)
      %list_elem_of_fmap.
    exists block. repeat split; [done..|]. simpl. by rewrite Hname.
Qed.

(** Property X15.
    The planned resources at the root and the declarations at the root
    run in parallel: the records at the same position stem from the same
    block and bear the same address and type; the name of the planned
    resource is the name label of the block, that of the declaration its
    local name. *)
Theorem root_records_aligned modules sch :
  modulesToPlanJSON modules = Ok sch →
  Forall2 (λ r d,
      ResourceJSON.Address r = ResourceData.Address d
      ∧ ResourceJSON.Type_ r = ResourceData.Type_ d
      ∧ ∃ block,
          block ∈ rootBlocks (resourceBlocks (allBlocks modules))
          ∧ ResourceJSON.Name r = hcl.NameLabel block
          ∧ ResourceData.Name d = hcl.LocalName block)
    (plannedResources sch) (configResources sch).
Proof.
  intros (_ & Hplanned & _ & Hconfig & _)%modulesToPlanJSON_records.
  simpl in *. apply Forall2_same_length_lookup. split.
  { apply Forall2_length in Hplanned, Hconfig. congruence. }
  intros i r d Hr Hd.
  destruct (Forall2_lookup_r _ _ _ _ _ Hplanned Hr) as (b & Hb & v & _ & ->).
  destruct (Forall2_lookup_r _ _ _ _ _ Hconfig Hd) as (b' & Hb' & key & ->).
  assert (b' = b) as -> by congruence.
  repeat split. exists b. by split; [eapply list_elem_of_lookup_2|].
Qed.

End assembler_panics.

(** ** Entries of the extracted references *)

Section reference_entries.

Context `{!MapRange, !MapRangeSpec}.

(** The map [childExpressions] groups the expression maps of the child
    blocks by kind, in block order, and leaves out the empty ones; a kind
    without any is not a key. *)
Lemma childExpressionsOf_lookup children kind :
  childExpressionsOf children !! kind
  = match childReferences kind children with
    | [] => None
    | elems => Some elems
    end.
Proof.
  unfold childExpressionsOf, childReferences.
  induction children as [|child children IH] using rev_ind; [done|].
  rewrite foldl_app, filter_app, filter_cons, filter_nil. simpl.
  destruct (decide (hcl.Type_ child = kind)) as [<-|Hkind].
  - rewrite fmap_app, filter_app. simpl. rewrite filter_cons, filter_nil.
    case_bool_decide as Hsize.
    + rewrite lookup_insert_eq, IH.
      rewrite decide_True by done.
      by destruct (filter _ (_ <$> _)).
    + rewrite decide_False by done. by rewrite IH, app_nil_r.
  - rewrite app_nil_r. case_bool_decide; [|done].
    by rewrite lookup_insert_ne.
Qed.

Lemma attribute_entries_lookup (attributes : list hcl.Attribute) name :
  foldl (λ (expressionValues : gmap string expr) attribute,
       if bool_decide (0 < length (hcl.AllReferences attribute))
       then <[hcl.Name attribute :=
                ERefs (hcl.String <$> hcl.AllReferences attribute)]>
              expressionValues
       else expressionValues) ∅ attributes !! name
  = attributeRefs <$> last (referringAttributes name attributes).
Proof.
  unfold referringAttributes.
  induction attributes as [|attribute attributes IH] using rev_ind; [done|].
  rewrite foldl_app, filter_app, filter_cons, filter_nil. simpl.
  case_bool_decide as Hrefs.
  - destruct (decide (hcl.Name attribute = name)) as [<-|Hname].
    + rewrite lookup_insert_eq, decide_True by done. by rewrite last_snoc.
    + rewrite lookup_insert_ne, decide_False by tauto.
      by rewrite app_nil_r.
  - rewrite decide_False by tauto. by rewrite app_nil_r.
Qed.

Lemma blockToReferences_lookup block name :
  blockToReferences block !! name
  = match hcl.GetAttributes block with
    | [] => None
    | attributes =>
      match childReferences name (hcl.Children block) with
      | [] => attributeRefs <$> last (referringAttributes name attributes)
      | elems => Some (EList elems)
      end
    end.
Proof.
  destruct (hcl.GetAttributes block) as [|attribute attributes] eqn:Hattrs.
  { by rewrite blockToReferences_no_attributes. }
  rewrite blockToReferences_with_attributes by (by rewrite Hattrs).
  rewrite lookup_union, lookup_fmap, childExpressionsOf_lookup, Hattrs.
  rewrite attribute_entries_lookup.
  destruct (childReferences _ _); simpl; [|by destruct (_ <$> _)].
  by destruct (_ <$> _).
Qed.

(** Property X20.
    The child blocks of one kind that refer to something are entered under
    their kind as the list of their expression maps, in block order and
    without the empty maps, when the block has an attribute; an attribute
    of the same name is overwritten. *)
Theorem child_references_grouped block kind :
  hcl.GetAttributes block ≠ [] →
  childReferences kind (hcl.Children block) ≠ [] →
  blockToReferences block !! kind
  = Some (EList (childReferences kind (hcl.Children block))).
Proof.
  intros Hattrs Hrefs. rewrite blockToReferences_lookup.
  destruct (hcl.GetAttributes block); [done|].
  by destruct (childReferences _ _).
Qed.

(** Property X21.
    Under a name that no referring child block bears as its kind, the
    extracted map holds the references of the last attribute of that name
    among those that have references, and nothing if there is none. *)
Theorem attribute_references_recorded block name :
  childReferences name (hcl.Children block) = [] →
  blockToReferences block !! name
  = attributeRefs
      <$> last (referringAttributes name (hcl.GetAttributes block)).
Proof.
  intros Hrefs. rewrite blockToReferences_lookup, Hrefs.
  by destruct (hcl.GetAttributes block).
Qed.

(** Property X22.
    The extracted map has no empty entry: a [refs] entry lists a reference
    at least, and a list entry holds an expression map at least and no
    empty map. *)
Theorem references_never_empty block name entry :
  blockToReferences block !! name = Some entry →
  match entry with
  | ERefs references => references ≠ []
  | EList elems => elems ≠ [] ∧ Forall (λ m, m ≠ ∅) elems
  end.
Proof.
  rewrite blockToReferences_lookup.
  destruct (hcl.GetAttributes block) as [|attribute attributes]; [done|].
  destruct (childReferences _ _) as [|elem elems] eqn:Hrefs.
  - destruct (last _) as [a|] eqn:Hlast; [|done]. intros [= <-].
    apply last_Some_elem_of, list_elem_of_filter in Hlast as [[_ Hlen] _].
    simpl. destruct (hcl.AllReferences a); simpl in *; [lia|done].
  - intros [= <-]. split; [done|]. rewrite <-Hrefs. unfold childReferences.
    apply Forall_forall. intros m [Hsize _]%list_elem_of_filter.
    intros ->. rewrite map_size_empty in Hsize. lia.
Qed.

End reference_entries.

(** ** The document of a concatenation *)

Lemma Forall2_functional {A B} (R : A → B → Prop) l k k' :
  (∀ x y y', R x y → R x y' → y = y') →
  Forall2 R l k → Forall2 R l k' → k = k'.
Proof.
  intros Hfun Hk. revert k'. induction Hk as [|x y l k Hxy Hk IH]; intros k' Hk'.
  - by apply Forall2_nil_inv_l in Hk'.
  - apply Forall2_cons_inv_l in Hk' as (y' & k'' & Hxy' & Hk'' & ->).
    f_equal; [by eapply Hfun|by apply IH].
Qed.

Lemma Forall2_app_functional {A B} (R : A → B → Prop) l1 l2 k1 k2 k :
  (∀ x y y', R x y → R x y' → y = y') →
  Forall2 R l1 k1 → Forall2 R l2 k2 → Forall2 R (l1 ++ l2) k → k = k1 ++ k2.
Proof.
  intros Hfun Hk1 Hk2 Hk. eapply Forall2_functional; [done..|].
  by apply Forall2_app.
Qed.

(** Two runs of a loop from related states stay related when every
    iteration keeps the relation: the second run returns when the first
    does. *)
Lemma foldM_simulation {S B} (R : S → S → Prop) (body : S → B → res S)
    l s t s' :
  R s t →
  (∀ s t x s', x ∈ l → R s t → body s x = Ok s' →
     ∃ t', body t x = Ok t' ∧ R s' t') →
  foldM body s l = Ok s' → ∃ t', foldM body t l = Ok t' ∧ R s' t'.
Proof.
  revert s t. induction l as [|x l IH]; intros s t Hst Hbody.
  { simpl. intros [= <-]. by exists t. }
  rewrite !foldM_cons. intros (s1 & Hx & Hl)%res_bind_Ok.
  destruct (Hbody s t x s1) as (t1 & -> & Hs1); [by left|done..|]. simpl.
  eapply IH; [done| |done]. intros s2 t2 y s3 Hy. apply Hbody. by right.
Qed.

Lemma recordProviders_union cfg (entries : list (string * string)) :
  recordProviders cfg entries = recordProviders ∅ entries ∪ cfg.
Proof.
  apply map_eq. intros name.
  rewrite lookup_union, !recordProviders_lookup, lookup_empty.
  destruct (last _); simpl; [by destruct (cfg !! name)|].
  by rewrite (left_id_L None _).
Qed.

Section concatenation.

Context `{!CtyJson, !MapRange}.

Lemma modulesToPlanJSON_moduleBlocks modules :
  modulesToPlanJSON modules = foldM moduleBlocks initialSchema modules.
Proof. done. Qed.

Lemma providerBlock_frame providerKey sch block st sch' :
  providerBlock (providerKey, sch) block = Ok st →
  ∃ sch1, providerBlock (providerKey, sch') block = Ok (st.1, sch1)
          ∧ childModules sch1 = childModules sch'.
Proof.
  destruct (decide (hcl.Type_ block = "provider")) as [Hkind|Hkind].
  - rewrite !providerBlock_provider by done.
    intros (entry & -> & [= <-])%res_bind_Ok. simpl. by eexists.
  - rewrite !providerBlock_other by done. intros [= <-]. by eexists.
Qed.

Lemma resourceBlock_frame providerKey sch block sch1 sch' :
  resourceBlock providerKey sch block = Ok sch1 →
  childModules sch' ≠ [] →
  ∃ sch1', resourceBlock providerKey sch' block = Ok sch1'.
Proof.
  unfold resourceBlock. case_bool_decide; [|by eexists].
  intros (v0 & Hv0 & (v & Hv & (key & Hkey & _)%res_bind_Ok)%res_bind_Ok)
    %res_bind_Ok Hbucket.
  rewrite Hv0. simpl. rewrite Hv. simpl. simpl in Hkey. rewrite Hkey. simpl.
  destruct (hcl.HasModuleBlock block); simpl; [|by eexists].
  unfold appendChildModuleResource, childModules in *.
  destruct sch' as [? ? ? [[? buckets]] ? ?]. simpl in *.
  destruct buckets as [|bucket rest]; [done|]. simpl. by eexists.
Qed.

Lemma moduleBlocks_frame sch module sch1 sch' :
  moduleBlocks sch module = Ok sch1 →
  childModules sch' ≠ [] →
  ∃ sch1', moduleBlocks sch' module = Ok sch1' ∧ childModules sch1' ≠ [].
Proof.
  unfold moduleBlocks.
  intros ([providerKey sch2] & Hproviders & Hresources)%res_bind_Ok Hbucket.
  destruct (foldM_simulation
              (λ st st', st'.1 = st.1 ∧ childModules st'.2 ≠ [])
              providerBlock (hcl.Blocks module) ("", sch) ("", sch')
              (providerKey, sch2))
    as ([providerKey' sch2'] & -> & Hkey & Hbucket2); [done| |done|].
  { intros [key st] [key' st'] b st1 _ [Hkey Hst'] Hb. simpl in Hkey.
    subst key'. destruct (providerBlock_frame _ _ _ _ st' Hb)
      as (st1' & Hb' & Hst1').
    exists (st1.1, st1'). simpl. by rewrite Hst1'. }
  simpl in *. subst providerKey'.
  apply (foldM_simulation (λ _ st', childModules st' ≠ []) _ _ sch2 sch2' sch1);
    [done| |done].
  intros st st' b st1 _ Hst' Hb.
  destruct (resourceBlock_frame _ _ _ _ st' Hb Hst') as (st1' & Hb').
  exists st1'. split; [done|]. by eapply resourceBlock_bucket.
Qed.

Lemma isDefaultProviderKey_functional module key key' :
  isDefaultProviderKey module key → isDefaultProviderKey module key' →
  key = key'.
Proof.
  intros (names & Hnames & ->) (names' & Hnames' & ->). f_equal.
  eapply Forall2_functional; [|done..]. simpl. congruence.
Qed.

Lemma moduleCallOf_app name nested1 nested2 :
  moduleCallOf name (nested1 ++ nested2)
  = union_with (λ first second, Some (appendModuleCall first second))
      (moduleCallOf name nested1) (moduleCallOf name nested2).
Proof.
  unfold moduleCallOf. rewrite filter_app.
  destruct (filter _ nested1) as [|first1 rest1]; simpl.
  { by destruct (filter _ nested2). }
  destruct (filter _ nested2) as [|first2 rest2]; simpl.
  { by rewrite app_nil_r. }
  unfold appendModuleCall. simpl. by rewrite fmap_app.
Qed.

(** Property X19.
    The document of a list of modules followed by another: the assembler
    returns one when it does for either list, and then the resource
    changes, the planned resources at the root and in the bucket and the
    declarations at the root are those of the first document followed by
    those of the second, a provider configuration of the second document
    replaces that of the same name of the first, and a module call of the
    first document is extended by the declarations of that of the same name
    of the second. *)
Theorem document_of_concatenation modules1 modules2 sch1 sch2 :
  modulesToPlanJSON modules1 = Ok sch1 →
  modulesToPlanJSON modules2 = Ok sch2 →
  ∃ sch,
    modulesToPlanJSON (modules1 ++ modules2) = Ok sch
    ∧ PlanSchema.ResourceChanges sch
      = PlanSchema.ResourceChanges sch1 ++ PlanSchema.ResourceChanges sch2
    ∧ plannedResources sch = plannedResources sch1 ++ plannedResources sch2
    ∧ childModules sch
      = [ {| ChildModule.Resources :=
               (childModules sch1 ≫= ChildModule.Resources)
               ++ (childModules sch2 ≫= ChildModule.Resources) |} ]
    ∧ configResources sch = configResources sch1 ++ configResources sch2
    ∧ providerConfigs sch = providerConfigs sch2 ∪ providerConfigs sch1
    ∧ moduleCalls sch
      = union_with (λ first second, Some (appendModuleCall first second))
          (moduleCalls sch1) (moduleCalls sch2).
Proof.
  intros Hsch1 Hsch2.
  destruct (modulesToPlanJSON_Ok _ _ Hsch1)
    as (keys1 & entries1 & Hkeys1 & Hentries1 & Hcfg1 & Hdone1).
  destruct (modulesToPlanJSON_Ok _ _ Hsch2)
    as (keys2 & entries2 & Hkeys2 & Hentries2 & Hcfg2 & Hdone2).
  assert (childModules sch1 ≠ []) as Hbucket1.
  { by destruct Hdone1 as (_ & _ & (bucket & -> & _) & _). }
  destruct (foldM_simulation (λ _ sch', childModules sch' ≠ []) moduleBlocks
              modules2 initialSchema sch1 sch2) as (sch & Hsch & _);
    [done| |done|].
  { intros st st' module st1 _ Hst' Hmodule. by eapply moduleBlocks_frame. }
  exists sch. split.
  { rewrite modulesToPlanJSON_moduleBlocks, foldM_app.
    rewrite modulesToPlanJSON_moduleBlocks in Hsch1. by rewrite Hsch1. }
  destruct (modules_loop _ _ _ _ Hdone1 Hsch)
    as (keys & entries & Hkeys & Hentries & Hcfg & Hdone).
  assert (keys = keys2) as ->.
  { eapply Forall2_functional; [|done..].
    apply isDefaultProviderKey_functional. }
  assert (entries = entries2) as ->.
  { eapply Forall2_functional; [|done..]. simpl. congruence. }
  destruct Hdone1 as (Hchanges1 & Hplanned1 & (bucket1 & Hb1 & Hchild1)
    & Hconfig1 & Hcalls1).
  destruct Hdone2 as (Hchanges2 & Hplanned2 & (bucket2 & Hb2 & Hchild2)
    & Hconfig2 & Hcalls2).
  destruct Hdone as (Hchanges & Hplanned & (bucket & Hb & Hchild)
    & Hconfig & Hcalls).
  rewrite filter_app in Hplanned, Hchild, Hconfig, Hcalls.
  assert (∀ pb r r', hasPlannedRecord pb r → hasPlannedRecord pb r' → r = r')
    as Hplannedfun.
  { intros pb r r' (v & Hv & ->) (v' & Hv' & ->). congruence. }
  split; [|split; [|split; [|split; [|split]]]].
  - eapply Forall2_app_functional; [|done..].
    intros pb c c' (v & Hv & ->) (v' & Hv' & ->). congruence.
  - eapply Forall2_app_functional; [|done..]. intros pb. apply Hplannedfun.
  - rewrite Hb, Hb1, Hb2. simpl. rewrite !app_nil_r. destruct bucket as [rs].
    do 2 f_equal. simpl in Hchild.
    eapply Forall2_app_functional; [|done..]. intros pb. apply Hplannedfun.
  - eapply Forall2_app_functional; [|done..].
    intros pb d d' (key & Hkey & ->) (key' & Hkey' & ->). congruence.
  - by rewrite Hcfg, Hcfg2, Hcfg1, recordProviders_union.
  - apply map_eq. intros name.
    by rewrite lookup_union_with, Hcalls, Hcalls1, Hcalls2, fmap_app,
      moduleCallOf_app.
Qed.

End concatenation.

(** * The provider on the sample inputs *)

(** Property X1 on a sample input. *)
Lemma plan_flags_round_trip_witness :
  Forall (λ entry : planFlag * string, isWord entry.2)
    [(FlagVarFile, "prod.tfvars"); (FlagVar, "region=eu")]
  ∧ varsFromPlanFlags "-var-file prod.tfvars -var region=eu"
    = ({| files := ["prod.tfvars"]; vars_ := ["region=eu"] |}, None).
Proof.
  split; [by repeat constructor|].
  apply (plan_flags_round_trip
           [(FlagVarFile, "prod.tfvars"); (FlagVar, "region=eu")]).
  by repeat constructor.
Defined.

(** Property X2 on a sample input. *)
Lemma plan_flags_stop_at_word_witness :
  Forall (λ entry : planFlag * string, isWord entry.2) [(FlagVar, "a=1")]
  ∧ isWord "plan.out" ∧ stopsFlags "plan.out" ∧ endsWord " -var b=2"
  ∧ varsFromPlanFlags "-var a=1 plan.out -var b=2"
    = ({| files := []; vars_ := ["a=1"] |}, None).
Proof.
  split; [by repeat constructor|]. do 3 (split; [exact I|]).
  apply (plan_flags_stop_at_word [(FlagVar, "a=1")] "plan.out" " -var b=2");
    by repeat constructor.
Defined.

(** Property X3 on a sample input. *)
Lemma plan_flags_leading_space_witness :
  isSpace " " ∧ varsFromPlanFlags " -var a=1"
                = ({| files := []; vars_ := [] |}, None).
Proof.
  split; [exact I|]. apply (plan_flags_leading_space " " "-var a=1"). exact I.
Defined.

(** Property X4 on a sample input. *)
Lemma plan_flags_undefined_flag_witness :
  Forall (λ entry : planFlag * string, isWord entry.2) [(FlagVar, "a=1")]
  ∧ spaceFree "out" ∧ plainFlagName "out" ∧ lookupFlag "out" = None
  ∧ "out" ≠ "help" ∧ "out" ≠ "h" ∧ endsWord " plan.bin"
  ∧ varsFromPlanFlags "-var a=1 -out plan.bin"
    = ({| files := []; vars_ := [] |},
       Some (ErrorString "flag provided but not defined: -out")).
Proof.
  split; [by repeat constructor|]. do 2 (split; [exact I|]).
  split; [reflexivity|]. do 2 (split; [discriminate|]). split; [exact I|].
  apply (plan_flags_undefined_flag [(FlagVar, "a=1")] "out" " plan.bin");
    try exact I; try discriminate; try reflexivity.
  by repeat constructor.
Defined.

(** Property X5 on a sample input. *)
Lemma plan_flags_dangling_flag_witness :
  Forall (λ entry : planFlag * string, isWord entry.2) [(FlagVar, "a=1")]
  ∧ varsFromPlanFlags "-var a=1 -var-file"
    = ({| files := []; vars_ := [] |},
       Some (ErrorString "flag needs an argument: -var-file"))
  ∧ varsFromPlanFlags "-var a=1 -var-file "
    = ({| files := [""]; vars_ := ["a=1"] |}, None).
Proof.
  split; [by repeat constructor|].
  apply (plan_flags_dangling_flag [(FlagVar, "a=1")] FlagVarFile).
  by repeat constructor.
Defined.

(** Property X6 on a sample input. *)
Lemma NewHCLProvider_flags_before_config_witness :
  varsFromPlanFlags "-var-file prod.tfvars -var region=eu"
  = ({| files := ["prod.tfvars"]; vars_ := ["region=eu"] |}, None)
  ∧ @NewHCLProvider recordingParser recordingNew sampleConsumer
      {| Path := "infra"; TerraformPlanFlags :=
           "-var-file prod.tfvars -var region=eu";
         TerraformVarFiles := ["base.tfvars"]; TerraformVars := [] |} tt
    = (Some (@mkHCLProvider recordingParser sampleConsumer
               ("infra",
                [("tfvars-paths", ["prod.tfvars"; "base.tfvars"]);
                 ("input-vars", ["region=eu"])]) tt), None)
  ∧ @NewHCLProvider recordingParser recordingNew sampleConsumer
      {| Path := "infra"; TerraformPlanFlags := "";
         TerraformVarFiles := ["prod.tfvars"; "base.tfvars"];
         TerraformVars := ["region=eu"] |} tt
    = @NewHCLProvider recordingParser recordingNew sampleConsumer
        {| Path := "infra"; TerraformPlanFlags :=
             "-var-file prod.tfvars -var region=eu";
           TerraformVarFiles := ["base.tfvars"]; TerraformVars := [] |} tt.
Proof.
  split; [reflexivity|].
  apply (@NewHCLProvider_flags_before_config recordingParser recordingNew
           sampleConsumer "-var-file prod.tfvars -var region=eu" "infra"
           ["base.tfvars"] [] tt ["prod.tfvars"] ["region=eu"]).
  reflexivity.
Defined.

(** Property X7 on a sample input. *)
Lemma NewHCLProvider_undefined_flag_witness :
  Forall (λ entry : planFlag * string, isWord entry.2) [(FlagVar, "a=1")]
  ∧ spaceFree "out" ∧ plainFlagName "out" ∧ lookupFlag "out" = None
  ∧ "out" ≠ "help" ∧ "out" ≠ "h" ∧ endsWord " plan.bin"
  ∧ @NewHCLProvider recordingParser recordingNew sampleConsumer
      {| Path := "infra"; TerraformPlanFlags := "-var a=1 -out plan.bin";
         TerraformVarFiles := ["base.tfvars"]; TerraformVars := [] |} tt
    = (None,
       Some (WrapError "could not parse vars from plan flags "
               (ErrorString "flag provided but not defined: -out"))).
Proof.
  split; [by repeat constructor|]. do 2 (split; [exact I|]).
  split; [reflexivity|]. do 2 (split; [discriminate|]). split; [exact I|].
  apply (@NewHCLProvider_undefined_flag recordingParser recordingNew
           sampleConsumer [(FlagVar, "a=1")] "out" " plan.bin" "infra"
           ["base.tfvars"] [] tt);
    try exact I; try discriminate; try reflexivity.
  by repeat constructor.
Defined.

(** [LoadResources] on the sample modules: the consumer gets the bytes of
    the document. *)
Example LoadResources_sample :
  @LoadResources sampleEncoder sampleJson sampleOrder sampleParser
    sampleConsumer
    (@mkHCLProvider sampleParser sampleConsumer (sampleModules, None) tt) ∅
  = Ok ([Some "{format_version:1.0}"], None).
Proof. by vm_compute. Qed.

(** * The marshallers on the sample inputs *)

(** Property X23 on a sample input. *)
Lemma snapshot_groups_children_witness :
  ∃ vals,
    @blockValues sampleEncoder webInstance = Ok vals
    ∧ "ebs_block_device" ∈ hcl.Type_ <$> hcl.Children webInstance
    ∧ ∃ elems,
        jsonLookup vals "ebs_block_device" = Some (JArr elems)
        ∧ Forall2 (λ c v, @blockValues sampleEncoder c = Ok v)
            (filter (λ c, hcl.Type_ c = "ebs_block_device")
               (hcl.Children webInstance)) elems.
Proof.
  eexists. split; [vm_compute; reflexivity|]. split; [vm_compute; left|].
  apply (@snapshot_groups_children sampleEncoder webInstance);
    [vm_compute; reflexivity|vm_compute; left].
Defined.

(** Property X24 on a sample input. *)
Lemma snapshot_keeps_attributes_witness :
  ∃ vals0 vals,
    @marshalAttributeValues sampleEncoder (hcl.Type_ webInstance)
      (hcl.Values webInstance) = Ok vals0
    ∧ @marshalBlock sampleEncoder webInstance vals0 = Ok vals
    ∧ ("ami" ∉ hcl.Type_ <$> hcl.Children webInstance)
    ∧ jsonLookup vals "ami" = jsonLookup vals0 "ami".
Proof.
  assert ("ami" ∉ (hcl.Type_ <$> hcl.Children webInstance)) as Hami.
  { apply (bool_decide_unpack _). by vm_compute. }
  eexists _, _. split; [vm_compute; reflexivity|].
  split; [vm_compute; reflexivity|]. split; [exact Hami|].
  apply (@snapshot_keeps_attributes sampleEncoder webInstance);
    [vm_compute; reflexivity|vm_compute; reflexivity|exact Hami].
Defined.

(** Property X25 on a sample input. *)
Lemma attribute_named_like_child_panics_witness :
  hcl.Values clashingInstance
  = cty.ObjectVal [("ebs_block_device", cty.StringVal "none")]
  ∧ "ebs_block_device"
      ∈ [("ebs_block_device", cty.StringVal "none")].*1
  ∧ skipped (hcl.Type_ clashingInstance) "ebs_block_device" = false
  ∧ "ebs_block_device" ∈ hcl.Type_ <$> hcl.Children clashingInstance
  ∧ ∃ p, @blockValues sampleEncoder clashingInstance = Panic p.
Proof.
  split; [reflexivity|]. split; [vm_compute; left|].
  split; [vm_compute; reflexivity|]. split; [vm_compute; left|].
  apply (@attribute_named_like_child_panics sampleEncoder clashingInstance
           [("ebs_block_device", cty.StringVal "none")] "ebs_block_device");
    [reflexivity|vm_compute; left|vm_compute; reflexivity|vm_compute; left].
Defined.

(** The snapshot of the clashing resource ends in the failed type
    assertion. *)
Example clashingInstance_panics :
  @blockValues sampleEncoder clashingInstance = Panic PanicTypeAssertion.
Proof. by vm_compute. Qed.

(** * The assembler on the sample inputs *)

(** Property X12 on a sample input. *)
Lemma document_header_fixed_witness :
  ∃ sch,
    @modulesToPlanJSON sampleEncoder sampleOrder sampleModules = Ok sch
    ∧ documentHeader sch = ("1.0", "1.1.0", None).
Proof.
  eexists. split; [vm_compute; reflexivity|].
  apply (@document_header_fixed sampleEncoder sampleOrder sampleModules).
  vm_compute; reflexivity.
Defined.

(** Property X13 on a sample input. *)
Lemma records_are_creations_witness :
  ∃ sch,
    @modulesToPlanJSON sampleEncoder sampleOrder sampleModules = Ok sch
    ∧ (∀ c, c ∈ PlanSchema.ResourceChanges sch →
         ResourceChangesJSON.Mode c = "managed"
         ∧ ResourceChange.Actions (ResourceChangesJSON.Change c) = ["create"]
         ∧ ResourceChange.Before (ResourceChangesJSON.Change c) = None)
    ∧ (∀ r, r ∈ allPlannedResources sch →
         ResourceJSON.Mode r = "managed"
         ∧ ResourceJSON.SchemaVersion r = 1%Z)
    ∧ (∀ d, d ∈ configResources sch → ResourceData.Mode d = "managed")
    ∧ (∀ name modCall d,
         moduleCalls sch !! name = Some modCall →
         d ∈ ModuleCallModule.Resources (ModuleCall.Module_ modCall) →
         ResourceData.Mode d = "managed").
Proof.
  eexists. split; [vm_compute; reflexivity|].
  apply (@records_are_creations sampleEncoder sampleOrder sampleModules).
  vm_compute; reflexivity.
Defined.

(** Property X14 on a sample input. *)
Lemma change_shares_planned_snapshot_witness :
  ∃ sch c,
    @modulesToPlanJSON sampleEncoder sampleOrder sampleModules = Ok sch
    ∧ head (PlanSchema.ResourceChanges sch) = Some c
    ∧ c ∈ PlanSchema.ResourceChanges sch
    ∧ ∃ r, r ∈ allPlannedResources sch
           ∧ ResourceJSON.Address r = ResourceChangesJSON.Address c
           ∧ ResourceJSON.Type_ r = ResourceChangesJSON.Type_ c
           ∧ ResourceJSON.Name r = ResourceChangesJSON.Name c
           ∧ ResourceJSON.Values r
             = ResourceChange.After (ResourceChangesJSON.Change c).
Proof.
  eexists _, _. split; [vm_compute; reflexivity|]. split; [reflexivity|].
  split; [vm_compute; left|].
  apply (@change_shares_planned_snapshot sampleEncoder sampleOrder
           sampleModules); [vm_compute; reflexivity|vm_compute; left].
Defined.

(** Property X16 on a sample input. *)
Lemma configuration_keys_consistent_witness :
  ∃ sch,
    @modulesToPlanJSON sampleEncoder sampleOrder sampleModules = Ok sch
    ∧ (∀ name config,
         providerConfigs sch !! name = Some config →
         ProviderConfig.Name config = name
         ∧ ∃ region, ProviderConfig.Expressions config
                     = {[ "region" := {[ "constant_value" := region ]} ]})
    ∧ (∀ name modCall,
         moduleCalls sch !! name = Some modCall →
         ModuleCallModule.Resources (ModuleCall.Module_ modCall) ≠ []
         ∧ ∀ d, d ∈ ModuleCallModule.Resources (ModuleCall.Module_ modCall) →
             ∃ block,
               block ∈ nestedBlocks (resourceBlocks (allBlocks sampleModules))
               ∧ hcl.ModuleName block = name
               ∧ d = @moduleDeclaration sampleOrder block
               ∧ ResourceData.ProviderConfigKey d
                 = name +:+ ":" +:+ hcl.Provider block).
Proof.
  eexists. split; [vm_compute; reflexivity|].
  apply (@configuration_keys_consistent sampleEncoder sampleOrder
           sampleModules).
  vm_compute; reflexivity.
Defined.

(** Property X15 on a sample input. *)
Lemma root_records_aligned_witness :
  ∃ sch,
    @modulesToPlanJSON sampleEncoder sampleOrder sampleModules = Ok sch
    ∧ Forall2 (λ r d,
          ResourceJSON.Address r = ResourceData.Address d
          ∧ ResourceJSON.Type_ r = ResourceData.Type_ d
          ∧ ∃ block,
              block ∈ rootBlocks (resourceBlocks (allBlocks sampleModules))
              ∧ ResourceJSON.Name r = hcl.NameLabel block
              ∧ ResourceData.Name d = hcl.LocalName block)
        (plannedResources sch) (configResources sch).
Proof.
  eexists. split; [vm_compute; reflexivity|].
  apply (@root_records_aligned sampleEncoder sampleOrder sampleModules).
  vm_compute; reflexivity.
Defined.

(** Property X9 on a sample input. *)
Lemma modulesToPlanJSON_returns_witness :
  Forall (λ module, Forall (λ b, convertible b) (hcl.Blocks module))
    sampleModules
  ∧ ∃ sch, @modulesToPlanJSON sampleEncoder sampleOrder sampleModules = Ok sch.
Proof.
  assert (Forall (λ module, Forall (λ b, convertible b) (hcl.Blocks module))
            sampleModules) as Hsample.
  { repeat constructor. }
  split; [exact Hsample|].
  exact (@modulesToPlanJSON_returns sampleEncoder sampleOrder sampleModules
           Hsample).
Defined.

(** Property X19 on a sample input. *)
Lemma document_of_concatenation_witness :
  ∃ sch1 sch2,
    @modulesToPlanJSON sampleEncoder sampleOrder sampleModules = Ok sch1
    ∧ @modulesToPlanJSON sampleEncoder sampleOrder moreModules = Ok sch2
    ∧ ∃ sch,
        @modulesToPlanJSON sampleEncoder sampleOrder
          (sampleModules ++ moreModules) = Ok sch
        ∧ PlanSchema.ResourceChanges sch
          = PlanSchema.ResourceChanges sch1 ++ PlanSchema.ResourceChanges sch2
        ∧ plannedResources sch = plannedResources sch1 ++ plannedResources sch2
        ∧ childModules sch
          = [ {| ChildModule.Resources :=
                   (childModules sch1 ≫= ChildModule.Resources)
                   ++ (childModules sch2 ≫= ChildModule.Resources) |} ]
        ∧ configResources sch = configResources sch1 ++ configResources sch2
        ∧ providerConfigs sch = providerConfigs sch2 ∪ providerConfigs sch1
        ∧ moduleCalls sch
          = union_with (λ first second, Some (appendModuleCall first second))
              (moduleCalls sch1) (moduleCalls sch2).
Proof.
  eexists _, _. split; [vm_compute; reflexivity|].
  split; [vm_compute; reflexivity|].
  apply (@document_of_concatenation sampleEncoder sampleOrder sampleModules
           moreModules); vm_compute; reflexivity.
Defined.

(** The later provider block of the name [aws] replaces the entry of the
    first, and the module call [net] holds the subnets of both lists. *)
Example concatenation_sample :
  ∃ sch,
    @modulesToPlanJSON sampleEncoder sampleOrder (sampleModules ++ moreModules)
    = Ok sch
    ∧ providerConfigs sch !! "aws" = Some (providerConfigOf ("aws", ""))
    ∧ (length ∘ ModuleCallModule.Resources ∘ ModuleCall.Module_
         <$> moduleCalls sch !! "net") = Some 2.
Proof. eexists. split; [vm_compute; reflexivity|]. by vm_compute. Qed.

(** * The reference extractor on the sample inputs *)

(** Property X20 on a sample input. *)
Lemma child_references_grouped_witness :
  hcl.GetAttributes webInstance ≠ []
  ∧ @childReferences sampleOrder "ebs_block_device" (hcl.Children webInstance)
    ≠ []
  ∧ @blockToReferences sampleOrder webInstance !! "ebs_block_device"
    = Some (EList (@childReferences sampleOrder "ebs_block_device"
                     (hcl.Children webInstance))).
Proof.
  assert (@childReferences sampleOrder "ebs_block_device"
            (hcl.Children webInstance) ≠ []) as Hrefs.
  { by vm_compute. }
  split; [done|]. split; [exact Hrefs|].
  apply (@child_references_grouped sampleOrder sampleOrder_spec webInstance
           "ebs_block_device"); [done|exact Hrefs].
Defined.

(** Property X21 on a sample input. *)
Lemma attribute_references_recorded_witness :
  @childReferences sampleOrder "ami" (hcl.Children webInstance) = []
  ∧ @blockToReferences sampleOrder webInstance !! "ami"
    = attributeRefs
        <$> last (referringAttributes "ami" (hcl.GetAttributes webInstance)).
Proof.
  split; [vm_compute; reflexivity|].
  apply (@attribute_references_recorded sampleOrder sampleOrder_spec
           webInstance "ami").
  vm_compute; reflexivity.
Defined.

(** Property X22 on a sample input. *)
Lemma references_never_empty_witness :
  @blockToReferences sampleOrder webInstance !! "ami"
  = Some (ERefs ["var.ami"; "var.suffix"])
  ∧ ["var.ami"; "var.suffix"] ≠ [].
Proof.
  split; [vm_compute; reflexivity|].
  apply (@references_never_empty sampleOrder sampleOrder_spec webInstance
           "ami" (ERefs ["var.ami"; "var.suffix"])).
  vm_compute; reflexivity.
Defined.

(** * Values that the attribute marshaller accepts *)

(** Property X27.
    The result of the attribute marshaller by the kind of the value: the
    nil map for the zero value and for null, the recorded attributes for an
    object or a map, the empty map for an empty list, and a panic for every
    other value: the key of a list element is a number and not a string,
    and an unknown or primitive value has no elements. *)
Theorem marshalAttributeValues_by_value `{!CtyJson} blockType value :
  marshalAttributeValues blockType value
  = match value with
    | cty.NilVal | cty.NullVal _ => Ok None
    | cty.ObjectVal kvs | cty.MapVal kvs =>
        Ok (Some (foldl (recordAttribute blockType) ∅ kvs))
    | cty.ListVal [] => Ok (Some ∅)
    | cty.ListVal (_ :: _) => Panic PanicNotAString
    | _ => Panic PanicNotIterable
    end.
Proof.
  destruct value as [|ty|ty|s|n|b|kvs|kvs|[|v vs]]; try done.
  - apply marshalAttributeValues_object.
  - rewrite marshalAttributeValues_map. apply marshalAttributeValues_object.
  - unfold marshalAttributeValues. simpl. by destruct (ctyJsonMarshal v).
Qed.

(** * Provider keys of the resources *)

Section provider_keys.

Context `{!CtyJson, !MapRange}.

(** Property X17.
    A resource at the root whose [provider] attribute is a string is
    declared with that string as its provider-config key, whatever the
    default key of its module. *)
Theorem explicit_provider_key modules sch :
  modulesToPlanJSON modules = Ok sch →
  Forall2 (λ block d,
      ∀ providerAttr key,
        hcl.GetAttribute block "provider" = Some providerAttr →
        hcl.AttrValue providerAttr = cty.StringVal key →
        ResourceData.ProviderConfigKey d = key)
    (rootBlocks (resourceBlocks (allBlocks modules))) (configResources sch).
Proof.
  intros (keys & entries & Hkeys & _ & _ & Hdone)%modulesToPlanJSON_Ok.
  destruct Hdone as (_ & _ & _ & Hconfig & _).
  rewrite <-(keyedResources_blocks modules keys)
    by (by eapply Forall2_length).
  unfold rootBlocks. rewrite <-filter_snd_fmap. apply Forall2_fmap_l.
  eapply Forall2_impl; [exact Hconfig|].
  intros [providerKey block] d (key & Hkey & ->) providerAttr key' Hattr Hval.
  simpl in *. unfold resourceProviderKey in Hkey. rewrite Hattr in Hkey.
  simpl in Hkey. rewrite Hval in Hkey. simpl in Hkey. congruence.
Qed.

(** Property X18.
    A resource block whose [provider] attribute is of type string but
    null or unknown makes the whole conversion panic: the type check at
    line 205 lets the value through to [AsString]. *)
Theorem unreadable_provider_panics modules module block providerAttr :
  module ∈ modules → block ∈ hcl.Blocks module →
  hcl.Type_ block = "resource" →
  hcl.GetAttribute block "provider" = Some providerAttr →
  hcl.AttrValue providerAttr = cty.NullVal cty.String
  ∨ hcl.AttrValue providerAttr = cty.UnknownVal cty.String →
  ∃ p, modulesToPlanJSON modules = Panic p.
Proof.
  intros Hmodule Hblock Hkind Hattr Hval.
  eapply modulesToPlanJSON_panics; [exact Hmodule|]. intros sch. right.
  intros providerKey sch'. eapply foldM_panics; [exact Hblock|]. intros sch''.
  unfold resourceBlock. rewrite bool_decide_eq_true_2 by done.
  destruct (marshalAttributeValues _ _) as [vals0|p]; simpl; [|by eauto].
  destruct (marshalBlock _ _) as [vals|p]; simpl; [|by eauto].
  rewrite Hattr. simpl. destruct Hval as [-> | ->]; simpl; by eauto.
Qed.

End provider_keys.

(** * Provider keys on the sample inputs *)

(** Property X17 on a sample input. *)
Lemma explicit_provider_key_witness :
  ∃ sch,
    @modulesToPlanJSON sampleEncoder sampleOrder
      [ {| hcl.Blocks := [awsProvider; westInstance] |} ] = Ok sch
    ∧ Forall2 (λ block d,
          ∀ providerAttr key,
            hcl.GetAttribute block "provider" = Some providerAttr →
            hcl.AttrValue providerAttr = cty.StringVal key →
            ResourceData.ProviderConfigKey d = key)
        (rootBlocks (resourceBlocks
           (allBlocks [ {| hcl.Blocks := [awsProvider; westInstance] |} ])))
        (configResources sch).
Proof.
  eexists. split; [vm_compute; reflexivity|].
  apply (@explicit_provider_key sampleEncoder sampleOrder
           [ {| hcl.Blocks := [awsProvider; westInstance] |} ]).
  vm_compute; reflexivity.
Defined.

(** The resource with the explicit provider is declared under it, not
    under the default key [aws] of its module. *)
Example westInstance_key :
  ∃ sch,
    @modulesToPlanJSON sampleEncoder sampleOrder
      [ {| hcl.Blocks := [awsProvider; westInstance] |} ] = Ok sch
    ∧ (ResourceData.ProviderConfigKey <$> configResources sch) = ["aws.west"].
Proof. eexists. split; [vm_compute; reflexivity|]. by vm_compute. Qed.

(** Property X18 on a sample input. *)
Lemma unreadable_provider_panics_witness :
  {| hcl.Blocks := [awsProvider; pendingInstance] |}
    ∈ [ {| hcl.Blocks := [awsProvider; pendingInstance] |} ]
  ∧ pendingInstance ∈ [awsProvider; pendingInstance]
  ∧ hcl.Type_ pendingInstance = "resource"
  ∧ hcl.GetAttribute pendingInstance "provider"
    = Some (hcl.mkAttribute "provider" (cty.UnknownVal cty.String) [])
  ∧ ∃ p, @modulesToPlanJSON sampleEncoder sampleOrder
           [ {| hcl.Blocks := [awsProvider; pendingInstance] |} ] = Panic p.
Proof.
  split; [left|]. split; [right; left|]. split; [reflexivity|].
  split; [reflexivity|].
  apply (@unreadable_provider_panics sampleEncoder sampleOrder
           [ {| hcl.Blocks := [awsProvider; pendingInstance] |} ]
           {| hcl.Blocks := [awsProvider; pendingInstance] |}
           pendingInstance
           (hcl.mkAttribute "provider" (cty.UnknownVal cty.String) []));
    [left|right; left|reflexivity|reflexivity|by right].
Defined.

(** The conversion of the pending resource ends in the panic of
    [AsString]. *)
Example pendingInstance_panics :
  @modulesToPlanJSON sampleEncoder sampleOrder
    [ {| hcl.Blocks := [awsProvider; pendingInstance] |} ]
  = Panic PanicNotAString.
Proof. by vm_compute. Qed.

(** * All or nothing *)

Section all_or_nothing.

Context {valueEncoder : CtyJson} {documentEncoder : EncodingJson}
  {range : MapRange} {parser : HclParser}.

(** The blocks of a module are converted without a panic when they are
    convertible and the child-module bucket is there. *)
Lemma moduleBlocks_returns sch module :
  Forall (λ b, convertible b) (hcl.Blocks module) →
  childModules sch ≠ [] →
  ∃ sch', moduleBlocks sch module = Ok sch' ∧ childModules sch' ≠ [].
Proof.
  intros Hblocks Hbucket. rewrite Forall_forall in Hblocks.
  unfold moduleBlocks.
  destruct (foldM_returns (λ st, childModules st.2 ≠ []) providerBlock
              (hcl.Blocks module) ("", sch))
    as ([providerKey sch1] & -> & Hbucket1); [done| |].
  { intros st block Hblock%Hblocks Hst.
    destruct (providerBlock_returns st _ Hblock) as (st' & Hst' & Heq).
    exists st'. split; [done|]. by rewrite Heq. }
  simpl. apply foldM_returns; [done|].
  intros sch2 block Hblock%Hblocks Hsch2. by apply resourceBlock_returns.
Qed.

(** After a successful parse of convertible blocks [loadPlanJSON] returns:
    the bytes of the assembled document, or the wrapped error of
    [json.Marshal] on it. *)
Lemma loadPlanJSON_convertible (p : Parser) modules :
  ParseDirectory p = (modules, None) →
  Forall (λ module, Forall (λ b, convertible b) (hcl.Blocks module)) modules →
  ∃ sch,
    modulesToPlanJSON modules = Ok sch
    ∧ loadPlanJSON p
      = Ok (match jsonMarshal sch with
            | (_, Some inner) =>
              (None,
               Some (WrapError "error handling built plan json from hcl "
                       inner))
            | (b, None) => (b, None)
            end).
Proof.
  intros Hparse Hmodules. rewrite Forall_forall in Hmodules.
  destruct (foldM_returns (λ sch, childModules sch ≠ []) moduleBlocks
              modules initialSchema) as (sch & Hsch & _); [done| |].
  { intros sch module Hmodule%Hmodules. by apply moduleBlocks_returns. }
  exists sch. rewrite modulesToPlanJSON_moduleBlocks. split; [done|].
  unfold loadPlanJSON. rewrite Hparse, modulesToPlanJSON_moduleBlocks, Hsch.
  simpl. by destruct (jsonMarshal sch) as [b [inner|]].
Qed.

(** [loadPlanJSON] does not see the errors of the attribute encoder. *)
Lemma loadPlanJSON_bytes (encoder : CtyJson) (p : Parser) :
  (∀ v, (encoder v).1 = (valueEncoder v).1) →
  @loadPlanJSON encoder documentEncoder range parser p
  = @loadPlanJSON valueEncoder documentEncoder range parser p.
Proof.
  intros Hbytes. unfold loadPlanJSON.
  destruct (ParseDirectory p) as [modules [parseError|]]; [done|].
  by rewrite (@modulesToPlanJSON_bytes range encoder valueEncoder Hbytes).
Qed.

(** Nor the order of the range statement. *)
Lemma loadPlanJSON_order (order : MapRange) (p : Parser) :
  @MapRangeSpec range → @MapRangeSpec order →
  @loadPlanJSON valueEncoder documentEncoder order parser p
  = @loadPlanJSON valueEncoder documentEncoder range parser p.
Proof.
  intros Hspec Horder. unfold loadPlanJSON.
  destruct (ParseDirectory p) as [modules [parseError|]]; [done|].
  by rewrite (@modulesToPlanJSON_order valueEncoder order range Horder Hspec).
Qed.


End all_or_nothing.

Section loading.

Context {valueEncoder : CtyJson} {documentEncoder : EncodingJson}
  {range : MapRange} {rangeSpec : @MapRangeSpec range} {parser : HclParser}
  {consumer : PlanJSON}.

(** Property X8.
    When the parser succeeds and the blocks are convertible,
    [LoadResources] returns: it hands the bytes of the assembled document
    to the consumer of the plan JSON and returns what the consumer makes of
    them, or, when [json.Marshal] fails on the document, returns no project
    and the wrapped error without consulting the consumer; and what it
    returns depends neither on the errors of the attribute encoder nor on
    the order of the range statement. *)
Theorem LoadResources_on_convertible (p : HCLProvider)
    (usage : gmap string UsageData) modules :
  ParseDirectory (HCLProvider_Parser p) = (modules, None) →
  Forall (λ module, Forall (λ b, convertible b) (hcl.Blocks module)) modules →
  ∃ sch,
    modulesToPlanJSON modules = Ok sch
    ∧ LoadResources p usage
      = Ok (match jsonMarshal sch with
            | (_, Some inner) =>
              ([], Some (WrapError "error handling built plan json from hcl "
                           inner))
            | (b, None) =>
              LoadResourcesFromSrc (HCLProvider_Provider p) usage b
            end)
    ∧ ∀ (encoder : CtyJson) (order : MapRange),
        (∀ v, (encoder v).1 = (valueEncoder v).1) →
        @MapRangeSpec order →
        @LoadResources encoder documentEncoder order parser consumer p usage
        = @LoadResources valueEncoder documentEncoder range parser consumer
            p usage.
Proof.
  intros Hparse Hmodules.
  destruct (loadPlanJSON_convertible _ modules Hparse Hmodules)
    as (sch & Hsch & Hload).
  exists sch. split; [done|]. split.
  - unfold LoadResources. rewrite Hload. simpl.
    by destruct (jsonMarshal sch) as [b [inner|]].
  - intros encoder order Hbytes Horder. unfold LoadResources.
    rewrite <-(@loadPlanJSON_order valueEncoder _ _ _ order) by done.
    by rewrite (@loadPlanJSON_bytes valueEncoder _ order _ encoder).
Qed.

End loading.

(** * Loading on the sample inputs *)



(** Property X8 on a sample input. *)
Lemma LoadResources_on_convertible_witness :
  @ParseDirectory sampleParser (sampleModules, None) = (sampleModules, None)
  ∧ Forall (λ module, Forall (λ b, convertible b) (hcl.Blocks module))
      sampleModules
  ∧ ∃ sch,
      @modulesToPlanJSON sampleEncoder sampleOrder sampleModules = Ok sch
      ∧ @LoadResources sampleEncoder sampleJson sampleOrder sampleParser
          sampleConsumer
          (@mkHCLProvider sampleParser sampleConsumer (sampleModules, None) tt)
          ∅
        = Ok (match sampleJson sch with
              | (_, Some inner) =>
                ([], Some (WrapError
                             "error handling built plan json from hcl " inner))
              | (b, None) => @LoadResourcesFromSrc sampleConsumer tt ∅ b
              end)
      ∧ ∀ (encoder : CtyJson) (order : MapRange),
          (∀ v, (encoder v).1 = (sampleEncoder v).1) →
          @MapRangeSpec order →
          @LoadResources encoder sampleJson order sampleParser sampleConsumer
            (@mkHCLProvider sampleParser sampleConsumer (sampleModules, None)
               tt) ∅
          = @LoadResources sampleEncoder sampleJson sampleOrder sampleParser
              sampleConsumer
              (@mkHCLProvider sampleParser sampleConsumer
                 (sampleModules, None) tt) ∅.
Proof.
  assert (Forall (λ module, Forall (λ b, convertible b) (hcl.Blocks module))
            sampleModules) as Hsample.
  { repeat constructor. }
  split; [reflexivity|]. split; [exact Hsample|].
  exact (@LoadResources_on_convertible sampleEncoder sampleJson sampleOrder
           sampleOrder_spec sampleParser sampleConsumer
           (@mkHCLProvider sampleParser sampleConsumer (sampleModules, None) tt)
           ∅ sampleModules eq_refl Hsample).
Defined.
